(** * cfht_mp_tracking: exposure times, visibility windows and observing groups

    A shallow embedding of the parts of the repository that select exposure
    times ([exposure_time_index] of [ph2.py] and [create_cfht_observations.py]),
    reconcile a target's rise and set times with the night
    ([parse_recon_table] of [recon_parser.py] and of [build_et_files.py]),
    pack targets into observing groups (the [while] loops of [ph2.py] and of
    [CfhtUpload.execute]) and write the program file ([ph2.py]), read an HTML
    table ([HTMLTableParser.parse_html_table]), build an ephemeris
    ([build_ephem_files] of [minor_planet_ephemeris.py]) and pack and unpack
    the designations of the Minor Planet Center ([mpcread.py]).

    Conventions of the model:
    - the selector is given on Python's floats ([FloatSelector]): a float is
      a real number or [inf], the operations that round ([-], [/], [**]) are
      a parameter, and what is assumed of them is stated where it is used;
      [Selector] is the same function on the reals, without rounding, range
      or exceptions: the two schedulers take the durations of their targets
      from it, and it is [FloatSelector] on the unrounded arithmetic for a
      magnitude from -350.5 to 399.5; an angle is a real number;
    - a time is a number of seconds ([Z]): ephem prints rise and set times to
      the second, and the parser reads them back from that text; where the
      program computes on times in floats (the length of a window in hours,
      the stepped time of an ephemeris) the statements leave out the inputs
      at which the rounding decides a comparison;
    - [sorted] with a comparison that raises on its arguments raises as soon
      as it has two elements to compare;
    - a Python exception is a result of its own ([inl], [None] or [Raised]);
    - functions of libraries outside the repository (astropy's [separation],
      the Horizons query, [ephem]'s rise and set times, the SDK's token
      generator) are section variables, and so is Python's [int] on a
      string;
    - a [pandas] frame is the list of its rows, and a write outside of it
      raises;
    - a [while] loop takes a bound on its number of passes and says when the
      bound ran out ([Running]);
    - what is logged or printed is left out, but for the durations the two
      schedulers write to stdout. *)

From Stdlib Require Import Reals Lra Lia ZArith Ascii String.
From stdpp Require Import gmap strings list sorting pretty.

#[global] Set Warnings "-clear-no-such-hyp".

#[global] Instance Rlt_decision : RelDecision Rlt := Rlt_dec.
#[global] Instance Rle_decision : RelDecision Rle := Rle_dec.
#[global] Instance Rgt_decision : RelDecision Rgt := Rgt_dec.
#[global] Instance Req_decision : EqDecision R := Req_dec_T.

(** * Definitions *)

(** ** The instrument configuration selector
    ([ph2.py] lines 14-33, [create_cfht_observations.py] lines 20-40) *)

Module Selector.

Definition IC_exptimes : list Z :=
  [40; 80; 120; 160; 200; 240; 300; 340; 380; 420; 440; 480; 500]%Z.

Definition count_lt (x : R) (cuts : list Z) : nat :=
  length (filter (λ c, (x < IZR c)%R) cuts).

Definition ideal_exptime (mag : R) : R :=
  (300 / (Rpower 10 ((24.5 - mag) / 2.5)) ^ 2)%R.

Definition exact_exptime (mag : R) : R :=
  Rmin 499 (Rmax 40 (ideal_exptime mag)).

Definition exposure_time_index (mag : R) : nat :=
  let cuts := IC_exptimes in
  length cuts - count_lt (exact_exptime mag) cuts.

Definition exposure_time (mag : R) : option Z :=
  IC_exptimes !! exposure_time_index mag.

Definition instrument_configuration_identifier (mag : R) : string :=
  "I" +:+ pretty (exposure_time_index mag + 1).

End Selector.

(** ** The selector on Python's floats
    ([ph2.py] lines 14-33, [create_cfht_observations.py] lines 20-40)

    Line 24 is computed on floats: [**] raises [OverflowError] beyond the
    largest float and gives 0.0 below the smallest, [/] raises
    [ZeroDivisionError] at 0.0 and gives [inf] beyond the largest float.
    What [-], [/] and [**] round to is the business of the machine and of
    its C library: they are the fields of an [Arithmetic], and what is
    assumed of them is said by [Exact], [PythonPow] and [Monotone]. *)

Module FloatSelector.

(** The floats that line 24 has for a finite magnitude: no operation of it
    gives [-inf] or [nan] then. *)
Inductive float :=
  | Finite (x : R)
  | Infinity.

Arguments Finite x%_R.

Inductive exception :=
  | OverflowError        (* [**], with a result beyond the largest float *)
  | ZeroDivisionError    (* [/] by 0.0, [**] of 0.0 to a negative power *)
  | ValueError           (* [**] of a negative number to a fractional power *)
  | IndexError.          (* a list index out of range *)

#[global] Instance float_eq_dec : EqDecision float.
Proof.
  intros [x|] [y|]; [|by right|by right|by left].
  destruct (Req_dec_T x y) as [->|Hne]; [by left|right; congruence].
Defined.

(** [x < y] *)
Definition float_lt (x y : float) : Prop :=
  match x, y with
  | Finite a, Finite b => (a < b)%R
  | Finite _, Infinity => True
  | Infinity, _ => False
  end.

(** [x <= y] *)
Definition float_le (x y : float) : Prop :=
  match x, y with
  | Finite a, Finite b => (a <= b)%R
  | _, Infinity => True
  | Infinity, Finite _ => False
  end.

#[global] Instance float_lt_dec : RelDecision float_lt.
Proof. intros [a|] [b|]; simpl; apply _. Defined.

#[global] Instance float_exception_ret : MRet (sum exception) := λ A x, inr x.
#[global] Instance float_exception_bind : MBind (sum exception) :=
  λ A B f m, match m with inl e => inl e | inr x => f x end.

Record Arithmetic := {
  float_sub : float -> float -> float;              (* [x - y] *)
  float_div : float -> float -> float;              (* [x / y], for [y] other than 0.0 *)
  float_pow : float -> float -> exception + float   (* [x ** y] *)
}.

(** [max(a, b)] and [min(a, b)] of Python keep their first argument unless
    the second is strictly beyond it. *)
Definition max (a b : float) : float := if decide (float_lt a b) then b else a.
Definition min (a b : float) : float := if decide (float_lt b a) then b else a.

Section Selector.
Context (fl : Arithmetic).

(** [x / y] *)
Definition truediv (x y : float) : exception + float :=
  if decide (y = Finite 0) then inl ZeroDivisionError else inr (float_div fl x y).

(** [300.0 / ((10 ** ((24.5 - mag) / 2.5)) ** 2)] of line 24 *)
Definition ideal_exptime (mag : float) : exception + float :=
  t ← truediv (float_sub fl (Finite 24.5) mag) (Finite 2.5);
  p ← float_pow fl (Finite 10) t;
  q ← float_pow fl p (Finite 2);
  truediv (Finite 300) q.

Definition exact_exptime (mag : float) : exception + float :=
  ideal ← ideal_exptime mag;
  mret (min (Finite 499) (max (Finite 40) ideal)).

Definition count_lt (x : float) (cuts : list Z) : nat :=
  length (filter (λ c, float_lt x (Finite (IZR c))) cuts).

Definition exposure_time_index (mag : float) : exception + nat :=
  let cuts := Selector.IC_exptimes in
  exact_exptime ← exact_exptime mag;
  mret (length cuts - count_lt exact_exptime cuts).

Definition exposure_time (mag : float) : exception + Z :=
  i ← exposure_time_index mag;
  match Selector.IC_exptimes !! i with
  | Some etime => inr etime
  | None => inl IndexError
  end.

Definition instrument_configuration_identifier (mag : float) : exception + string :=
  i ← exposure_time_index mag;
  mret ("I" +:+ pretty (i + 1)).

End Selector.

(** *** What is assumed of the arithmetic *)

(** The reals that are floats: [m * 2^e] with 53 bits of [m]. *)
Definition representable (x : R) : Prop :=
  exists m e : Z,
    (Z.abs m < 2 ^ 53)%Z /\ (-1074 <= e <= 971)%Z /\ x = (IZR m * powerRZ 2 e)%R.

(** [-] and [/] round correctly: a result that is a float is not rounded. *)
Record Exact (fl : Arithmetic) : Prop := {
  float_sub_exact (x y : R) :
    representable x -> representable y -> representable (x - y) ->
    float_sub fl (Finite x) (Finite y) = Finite (x - y);
  float_div_exact (x y : R) :
    representable x -> representable y -> y <> 0%R -> representable (x / y) ->
    float_div fl (Finite x) (Finite y) = Finite (x / y)
}.

(** [**] of Python: its special cases ([x ** 0.0] and [1.0 ** y] are 1.0,
    [0.0 ** 2] is 0.0), and the range of a double, which ends between
    [10 ** 308] and [10 ** 309] and begins between [10 ** -400] and
    [10 ** -323]. *)
Record PythonPow (fl : Arithmetic) : Prop := {
  float_pow_zero (x : float) : float_pow fl x (Finite 0) = inr (Finite 1);
  float_pow_one (y : float) : float_pow fl (Finite 1) y = inr (Finite 1);
  float_pow_zero_squared : float_pow fl (Finite 0) (Finite 2) = inr (Finite 0);
  float_pow_overflow (t : R) :
    (309 <= t)%R -> float_pow fl (Finite 10) (Finite t) = inl OverflowError;
  float_pow_underflow (t : R) :
    (t <= -400)%R -> float_pow fl (Finite 10) (Finite t) = inr (Finite 0)
}.

(** Rounding keeps the order: [x - y] falls with [y], [x / y] grows with [x]
    and falls with [y] where they are positive, [10 ** t] grows with [t] and
    [x ** 2] with [x] where it is not negative. Correct rounding gives it for
    [-] and [/]; for [**] it is assumed of the C library. *)
Record Monotone (fl : Arithmetic) : Prop := {
  float_sub_antitone (x y1 y2 : R) :
    (y1 <= y2)%R ->
    float_le (float_sub fl (Finite x) (Finite y2)) (float_sub fl (Finite x) (Finite y1));
  float_div_monotone (x1 x2 : float) (y : R) :
    (0 < y)%R -> float_le x1 x2 ->
    float_le (float_div fl x1 (Finite y)) (float_div fl x2 (Finite y));
  float_div_antitone (x : R) (y1 y2 : float) :
    (0 < x)%R -> float_lt (Finite 0) y1 -> float_le y1 y2 ->
    float_le (float_div fl (Finite x) y2) (float_div fl (Finite x) y1);
  float_pow_nonneg (x y r : float) :
    float_le (Finite 0) x -> float_pow fl x y = inr r -> float_le (Finite 0) r;
  float_pow_monotone (t1 t2 p1 p2 : float) :
    float_le t1 t2 ->
    float_pow fl (Finite 10) t1 = inr p1 -> float_pow fl (Finite 10) t2 = inr p2 ->
    float_le p1 p2;
  float_square_monotone (x1 x2 q1 q2 : float) :
    float_le (Finite 0) x1 -> float_le x1 x2 ->
    float_pow fl x1 (Finite 2) = inr q1 -> float_pow fl x2 (Finite 2) = inr q2 ->
    float_le q1 q2
}.

End FloatSelector.

(** *** The arithmetic of the reals in the range of a double

    An arithmetic to run the definitions on, with the properties assumed
    above: [-], [/] and [**] without rounding, [**] leaving the range of a
    double as Python's does. *)

Module Unrounded.
Import FloatSelector.

Definition overflow_threshold : R := IZR (2 ^ 1024).
Definition underflow_threshold : R := (/ IZR (2 ^ 1075))%R.

Definition in_range (r : R) : exception + float :=
  if decide (overflow_threshold <= r)%R then inl OverflowError
  else if decide (r < underflow_threshold)%R then inr (Finite 0)
  else inr (Finite r).

Definition sub (x y : float) : float :=
  match x, y with
  | Finite a, Finite b => Finite (a - b)
  | _, _ => Infinity
  end.

Definition div (x y : float) : float :=
  match x, y with
  | Finite a, Finite b => Finite (a / b)
  | Finite _, Infinity => Finite 0
  | Infinity, _ => Infinity
  end.

Definition pow (x y : float) : exception + float :=
  match x, y with
  | _, Finite b =>
      if decide (b = 0)%R then inr (Finite 1)
      else match x with
           | Finite a =>
               (* a negative base, which line 24 never has, is left at the
                  [ValueError] of a fractional power *)
               if decide (0 < a)%R then in_range (Rpower a b)
               else if decide (a < 0)%R then inl ValueError
               else if decide (b < 0)%R then inl ZeroDivisionError
               else inr (Finite 0)
           | Infinity => if decide (b < 0)%R then inr (Finite 0) else inr Infinity
           end
  | Finite a, Infinity =>
      if decide (1 < Rabs a)%R then inr Infinity
      else if decide (Rabs a = 1)%R then inr (Finite 1)
      else inr (Finite 0)
  | Infinity, Infinity => inr Infinity
  end.

Definition unrounded : Arithmetic :=
  {| float_sub := sub; float_div := div; float_pow := pow |}.

End Unrounded.

(** ** The visibility windows of [recon_parser.py] *)

Module ReconParser.

(** [MINIMUM_UP_TIME = 1.0 * units.hour], in seconds. *)
Definition MINIMUM_UP_TIME : Z := 3600.

(** The [ephem.FixedBody] built for one row (lines 255 and 271-277). *)
Record FixedBody := {
  name : string;
  mag : R;
  _ra : R;
  _dec : R;
  rise_time : Z;
  set_time : Z
}.

Inductive exception :=
  | HorizonsError      (* raised inside [horizons.Body] / [predict] *)
  | TypeError.         (* [None - None] at line 302 *)

Section Night.
Variables sun_set_time sun_rise_time : Z.
(** Lines 268-277: the Horizons query for a decoded object name followed by
    [target.compute(cfht)]; [None] when the query raises. *)
Variable lookup : string -> option FixedBody.

(** Lines 279-300. *)
Definition window (target_rise_time target_set_time : Z) : option (Z * Z) :=
  if (target_rise_time >? sun_rise_time)%Z then
    if (target_set_time >? sun_set_time)%Z then
      Some (sun_set_time,
            if (target_set_time <? sun_rise_time)%Z then target_set_time
            else sun_rise_time)
    else None
  else if (target_rise_time <? sun_set_time)%Z then
    Some (sun_set_time,
          if (target_set_time <? sun_rise_time)%Z then target_set_time
          else sun_rise_time)
  else if (sun_set_time <? target_rise_time)%Z && (target_rise_time <? sun_rise_time)%Z then
    Some (target_rise_time,
          if (target_set_time <? sun_rise_time)%Z then target_set_time
          else sun_rise_time)
  else None.

(** Not in the source: the target's window exists and lasts the minimum
    up time, the condition under which line 307 is reached. *)
Definition accepted (target : FixedBody) : Prop :=
  exists start end_,
    window (rise_time target) (set_time target) = Some (start, end_) /\
    (MINIMUM_UP_TIME <= end_ - start)%Z.

(** Lines 254-307: the loop over the selected rows. Line 303 compares
    [(end - start).to(units.hour)], a float, with one hour: on times in
    whole seconds that is the test made here, but for a window of exactly
    3600 s, where the float may fall on either side of 1.0. *)
Fixpoint rows_loop (rows : list string) (good_targets : list FixedBody)
  : exception + list FixedBody :=
  match rows with
  | [] => inr good_targets
  | row :: rows' =>
      match lookup row with
      | None => inl HorizonsError
      | Some target =>
          match window (rise_time target) (set_time target) with
          | None => inl TypeError
          | Some (start, end_) =>
              let duration := (end_ - start)%Z in
              if (duration <? MINIMUM_UP_TIME)%Z then rows_loop rows' good_targets
              else rows_loop rows' (good_targets ++ [target])
          end
      end
  end.

Definition parse_recon_table (rows : list string) : exception + list FixedBody :=
  rows_loop rows [].
End Night.

End ReconParser.

Module ReconExamples.
Import ReconParser.
(** A night from 05:00 to 16:00 UTC (seconds of the day). *)
Definition dusk : Z := 18000.
Definition dawn : Z := 57600.

Definition night_target : FixedBody :=
  {| name := "night"; mag := 23; _ra := 1; _dec := 0;
     rise_time := 21600; set_time := 43200 |}.
Definition day_target : FixedBody :=
  {| name := "day"; mag := 23; _ra := 4; _dec := 0;
     rise_time := 61200; set_time := 14400 |}.
Definition brief_target : FixedBody :=
  {| name := "brief"; mag := 23; _ra := 1; _dec := 0;
     rise_time := 54600; set_time := 70000 |}.

Definition catalogue (n : string) : option FixedBody :=
  if decide (n = "night") then Some night_target
  else if decide (n = "day") then Some day_target
  else if decide (n = "brief") then Some brief_target
  else None.

(** A target that rises at the second of sunset and sets 1000 s later, and
    the catalogue with it. *)
Definition dusk_target : FixedBody :=
  {| name := "dusk"; mag := 23; _ra := 2; _dec := 0;
     rise_time := 18000; set_time := 19000 |}.

Definition catalogue_at_dusk (n : string) : option FixedBody :=
  if decide (n = "dusk") then Some dusk_target else catalogue n.
End ReconExamples.

(** ** The observing groups *)

(** An astropy [SkyCoord], in degrees. *)
Record SkyCoord := { ra : R; dec : R }.

(** *** [ph2.py] *)

Module Ph2.
Import Selector.

(** The fields of a target file that [__main__] reads (class [Target]). *)
Record Target := {
  name : string;
  token : string;
  mag : R;
  coordinate : SkyCoord
}.

(** [ObservingGroup.config]. *)
Record ObservingGroup := {
  client_token : string;
  observing_block_identifiers : list string
}.

(** What lines 115-133 collect. *)
Record Tables := {
  ob_tokens : list string;
  mags : gmap string R;
  ob_coordinate : gmap string SkyCoord
}.

(** The locals of one pass of the [while] loop (lines 148-152). *)
Record Pass := {
  og_coord : option SkyCoord;
  og_itime : Z;
  og : list string
}.

(** The variables that live across passes, with the output produced so far:
    the groups appended to the program and the lines written to stdout
    (token and duration). *)
Record State := {
  total_itime : Z;
  scheduled : gset string;
  og_idx : nat;
  observing_groups : list ObservingGroup;
  stdout : list (string * Z)
}.

(** The comparison of line 136 on the decorated keys: [cmp(x.ra, y.ra)]. *)
Definition ra_le (x y : string * SkyCoord) : Prop := (ra x.2 <= ra y.2)%R.

#[global] Instance ra_le_dec : RelDecision ra_le := λ x y, Rle_dec (ra x.2) (ra y.2).

(** Not in the source: both dictionaries have the same keys, the tokens of
    [ob_tokens], as lines 131-133 leave them. *)
Definition well_formed (tb : Tables) : Prop :=
  dom (ob_coordinate tb) = list_to_set (ob_tokens tb) /\
  dom (mags tb) = list_to_set (ob_tokens tb).

Inductive result :=
  | Done (st : State)        (* the [while] condition became false *)
  | Raised                   (* a [KeyError] or [IndexError] escaped *)
  | Running (st : State).    (* still looping when the fuel ran out *)

Section Main.
(** [a.separation(b)] of astropy, in degrees. *)
Variable separation : SkyCoord -> SkyCoord -> R.
Variables runid qrunid : string.

Definition ob_token_of (target : Target) : string :=
  "OB-" +:+ qrunid +:+ "-" +:+ token target.

Definition og_token_of (og_idx repeat : nat) : string :=
  "OG_" +:+ runid +:+ "_" +:+ qrunid +:+ "_" +:+ pretty og_idx +:+ "_" +:+ pretty repeat.

(** Lines 118-133, one target file. *)
Definition load_target (tb : Tables) (target : Target) : Tables :=
  let ob_token := ob_token_of target in
  {| ob_tokens := ob_tokens tb ++ [ob_token];
     mags := <[ob_token := mag target]> (mags tb);
     ob_coordinate := <[ob_token := coordinate target]> (ob_coordinate tb) |}.

Definition load (targets : list Target) : Tables :=
  foldl load_target {| ob_tokens := []; mags := ∅; ob_coordinate := ∅ |} targets.

(** Line 137: the keys of [ob_coordinate], each decorated with its
    coordinate, sorted by right ascension. Keys of equal right ascension
    stay as the dict has them in Python; here they stay in the order of the
    keys of the map, which stands for it. *)
Definition order_tokens (tb : Tables) : list string :=
  (merge_sort ra_le (map_to_list (ob_coordinate tb))).*1.

Section Loop.
Variable tb : Tables.

(** Lines 154-167. Both [break]s leave the scan with the same state. *)
Fixpoint scan (tokens : list string) (p : Pass) (scheduled : gset string)
  : option (Pass * gset string) :=
  match tokens with
  | [] => Some (p, scheduled)
  | ob_token :: tokens' =>
      if decide (ob_token ∈ scheduled) then scan tokens' p scheduled
      else
        c ← ob_coordinate tb !! ob_token;
        let og_coord' := default c (og_coord p) in
        if decide (separation c og_coord' > 10)%R then
          scan tokens' {| og_coord := Some og_coord'; og_itime := og_itime p; og := og p |}
               scheduled
        else
          m ← mags tb !! ob_token;
          e ← exposure_time m;
          let p' := {| og_coord := Some og_coord';
                       og_itime := og_itime p + (e + 40);
                       og := og p ++ [ob_token] |} in
          if decide (og_itime p' > 3000)%Z then Some (p', {[ob_token]} ∪ scheduled)
          else Some (p', {[ob_token]} ∪ scheduled)
  end.

Definition nrepeats : nat := 2.

(** Lines 173-178: the deep copies, each under its own token. *)
Definition repeats (og_idx : nat) (og : list string) : list ObservingGroup :=
  (λ repeat, {| client_token := og_token_of og_idx (repeat + 1);
                observing_block_identifiers := og |}) <$> seq 0 nrepeats.

(** Lines 147-178: one iteration of the [while] body. *)
Definition pass (st : State) : option State :=
  let og_idx := S (og_idx st) in
  let repeat := 0 in
  let og_token := og_token_of og_idx repeat in
  '(p, scheduled') ← scan (order_tokens tb)
                          {| og_coord := None; og_itime := 0; og := [] |}
                          (scheduled st);
  Some {| total_itime := total_itime st + og_itime p + Z.of_nat nrepeats * og_itime p;
          scheduled := scheduled';
          og_idx := og_idx;
          observing_groups :=
            observing_groups st
            ++ {| client_token := og_token; observing_block_identifiers := og p |}
               :: repeats og_idx (og p);
          stdout := stdout st ++ [(og_token, og_itime p)] |}.

(** Line 146, with [fuel] bounding the number of passes. *)
Fixpoint while (fuel : nat) (st : State) : result :=
  if decide (size (scheduled st) < length (ob_tokens tb)) then
    match fuel with
    | O => Running st
    | S fuel' =>
        match pass st with
        | None => Raised
        | Some st' => while fuel' st'
        end
    end
  else Done st.

(** *** The loop in closed form

    The definitions below are not in the source: they describe the state
    the loop is in after [k] passes, and are what the theorems about the
    loop are stated with. *)

(** Duration the scan adds for one block: exposure time plus 40 s. *)
Definition duration_of (ob_token : string) : Z :=
  (default 0 (mags tb !! ob_token ≫= exposure_time) + 40)%Z.

(** Blocks and duration of the group built by pass [k + 1]. *)
Definition members (k : nat) : list string := option_list (order_tokens tb !! k).
Definition itime (k : nat) : Z := from_option duration_of 0%Z (order_tokens tb !! k).

(** Cumulative duration of a group's blocks. *)
Definition group_duration (og : list string) : Z :=
  foldr Z.add 0%Z (duration_of <$> og).

(** The group of one pass with its [nrepeats] copies. *)
Definition copies (og_idx : nat) (og : list string) : list ObservingGroup :=
  {| client_token := og_token_of og_idx 0; observing_block_identifiers := og |}
  :: repeats og_idx og.

Definition state_after (k : nat) : State :=
  {| total_itime := 3 * foldr Z.add 0%Z (itime <$> seq 0 k);
     scheduled := list_to_set (take k (order_tokens tb));
     og_idx := k;
     observing_groups := mjoin ((λ i, copies (S i) (members i)) <$> seq 0 k);
     stdout := (λ i, (og_token_of (S i) 0, itime i)) <$> seq 0 k |}.
End Loop.

Definition initial : State :=
  {| total_itime := 0; scheduled := ∅; og_idx := 0; observing_groups := []; stdout := [] |}.

Definition main (fuel : nat) (targets : list Target) : result :=
  while (load targets) fuel initial.
End Main.

End Ph2.

(** *** [create_cfht_observations.py] *)

Module CreateCfht.
Import Selector.

(** The fields of a [TargetData] message that [execute] reads. *)
Record Target := {
  name : string;
  token : string;
  magnitude : R;
  coordinate : SkyCoord
}.

Record ObservingComponent := {
  target_token : string;
  observing_teplate_token : string
}.

(** A [PiObservingGroup]: the components of its one observing block. *)
Record ObservingGroup := {
  observing_component : list ObservingComponent
}.

(** The locals of one pass of the [while] loop (lines 102-106). *)
Record Pass := {
  og_coord : option SkyCoord;
  og_itime : Z;
  observing_group : ObservingGroup
}.

(** The variables that live across passes, with the output produced so far:
    the calls to [observing_group_repository.persist] and the lines written
    to stdout (token and duration). *)
Record State := {
  total_itime : Z;
  scheduled : gset string;
  og_idx : nat;
  persisted : list (string * ObservingGroup);
  stdout : list (string * Z)
}.

Inductive exception :=
  | NoTemplate     (* the [Exception] of lines 79-80 *)
  | TypeError      (* the comparison of lines 89-90, called by [sorted] *)
  | KeyError.      (* a dictionary without the key asked for *)

Inductive result :=
  | Done (st : State)
  | Raised (e : exception)
  | Running (st : State).

Section Execute.
Variable separation : SkyCoord -> SkyCoord -> R.
Variable qrunid : string.
(** [observing_group_repository.generate_token], of the CFHT SDK. *)
Variable generate_observing_group_token : string -> string.
(** Lines 67-70: the token of the observing template of each exposure time. *)
Variable observing_template_by_exptime : gmap Z string.

(** ["%s-%s-%s" % (self.qrunid, og_idx, repeat)]. *)
Definition og_name (og_idx repeat : nat) : string :=
  qrunid +:+ "-" +:+ pretty og_idx +:+ "-" +:+ pretty repeat.

(** Lines 77-80: the target has an observing template for its exposure
    time. *)
Definition has_template (target : Target) : Prop :=
  is_Some (exposure_time (magnitude target) ≫= (observing_template_by_exptime !!.)).

(** Line 91. The comparison of lines 89-90 takes item 0 of each of its
    arguments ([x[0]], [y[0]]); the arguments are the [TargetData] messages
    of the list, which have no items, so the comparison raises [TypeError].
    [sorted] calls it once the list holds two targets, and returns a shorter
    list as it is. [None] is the [TypeError]. *)
Definition targets_by_ra (targets_to_create_or_update : list Target)
  : option (list Target) :=
  match targets_to_create_or_update with
  | [] | [_] => Some targets_to_create_or_update
  | _ :: _ :: _ => None
  end.

(** Lines 108-128. Both [break]s leave the scan with the same state. *)
Fixpoint scan (targets : list Target) (p : Pass) (scheduled : gset string)
  : option (Pass * gset string) :=
  match targets with
  | [] => Some (p, scheduled)
  | target :: targets' =>
      if decide (token target ∈ scheduled) then scan targets' p scheduled
      else
        let target_coord := coordinate target in
        let og_coord' := default target_coord (og_coord p) in
        if decide (separation target_coord og_coord' > 10)%R then
          scan targets'
               {| og_coord := Some og_coord'; og_itime := og_itime p;
                  observing_group := observing_group p |}
               scheduled
        else
          etime_sec ← exposure_time (magnitude target);
          template ← observing_template_by_exptime !! etime_sec;
          let p' := {| og_coord := Some og_coord';
                       og_itime := og_itime p + etime_sec;
                       observing_group :=
                         {| observing_component :=
                              observing_component (observing_group p)
                              ++ [{| target_token := token target;
                                     observing_teplate_token := template |}] |} |} in
          if decide (og_itime p' > 3000)%Z then Some (p', {[token target]} ∪ scheduled)
          else Some (p', {[token target]} ∪ scheduled)
  end.

(** Lines 131-134, one round of the [for repeat in range(3)] loop. *)
Definition persist_repeat (og_idx : nat) (p : Pass) (st : State) (repeat : nat) : State :=
  let og_token := generate_observing_group_token (og_name og_idx repeat) in
  {| total_itime := total_itime st + og_itime p;
     scheduled := scheduled st;
     og_idx := CreateCfht.og_idx st;
     persisted := persisted st ++ [(og_token, observing_group p)];
     stdout := stdout st ++ [(og_token, og_itime p)] |}.

Section Loop.
Variable targets_by_ra : list Target.

(** Lines 101-134: one iteration of the [while] body. *)
Definition pass (st : State) : option State :=
  let og_idx := S (og_idx st) in
  '(p, scheduled') ← scan targets_by_ra
                          {| og_coord := None; og_itime := 0;
                             observing_group := {| observing_component := [] |} |}
                          (scheduled st);
  Some (foldl (persist_repeat og_idx p)
              {| total_itime := total_itime st; scheduled := scheduled';
                 og_idx := og_idx; persisted := persisted st; stdout := stdout st |}
              (seq 0 3)).

(** Line 100, with [fuel] bounding the number of passes. *)
Fixpoint while (fuel : nat) (st : State) : result :=
  if decide (size (scheduled st) < length targets_by_ra) then
    match fuel with
    | O => Running st
    | S fuel' =>
        match pass st with
        | None => Raised KeyError
        | Some st' => while fuel' st'
        end
    end
  else Done st.

(** *** The loop in closed form

    Not in the source: the state after [k] passes when the tokens of
    [targets_by_ra] are pairwise distinct. *)

Definition component_of (target : Target) : ObservingComponent :=
  {| target_token := token target;
     observing_teplate_token :=
       default EmptyString (exposure_time (magnitude target)
                   ≫= (observing_template_by_exptime !!.)) |}.

Definition duration_of (target : Target) : Z :=
  default 0%Z (exposure_time (magnitude target)).

(** Group and duration of pass [k + 1]. *)
Definition group (k : nat) : ObservingGroup :=
  {| observing_component := option_list (component_of <$> targets_by_ra !! k) |}.
Definition itime (k : nat) : Z := from_option duration_of 0%Z (targets_by_ra !! k).

(** What the three rounds of lines 130-134 hand to the repository. *)
Definition copies {A} (og_idx : nat) (x : A) : list (string * A) :=
  (λ repeat, (generate_observing_group_token (og_name og_idx repeat), x)) <$> seq 0 3.

Definition state_after (k : nat) : State :=
  {| total_itime := 3 * foldr Z.add 0%Z (itime <$> seq 0 k);
     scheduled := list_to_set (token <$> take k targets_by_ra);
     og_idx := k;
     persisted := mjoin ((λ i, copies (S i) (group i)) <$> seq 0 k);
     stdout := mjoin ((λ i, copies (S i) (itime i)) <$> seq 0 k) |}.

(** What one pass hands over: a group and its duration. A pass either
    schedules nothing or schedules one target of the list, alone. *)
Definition well_grouped (b : ObservingGroup * Z) : Prop :=
  (b.1 = {| observing_component := [] |} /\ b.2 = 0%Z) \/
  (exists t template e,
     t ∈ targets_by_ra /\ exposure_time (magnitude t) = Some e /\
     b.1 = {| observing_component :=
                [{| target_token := token t; observing_teplate_token := template |}] |} /\
     b.2 = e).

(** [st] holds exactly the output of the passes [bs], in order. *)
Definition emitted (bs : list (ObservingGroup * Z)) (st : State) : Prop :=
  og_idx st = length bs /\
  persisted st = mjoin (imap (λ i b, copies (S i) b.1) bs) /\
  stdout st = mjoin (imap (λ i b, copies (S i) b.2) bs).
End Loop.

Definition initial : State :=
  {| total_itime := 0; scheduled := ∅; og_idx := 0; persisted := []; stdout := [] |}.

(** Lines 72-134 of [execute], on the targets read from the files: the check
    of lines 77-80 raises before the targets are sorted, and the sort before
    anything is scheduled. *)
Definition execute (fuel : nat) (targets_to_create_or_update : list Target) : result :=
  if decide (Forall has_template targets_to_create_or_update) then
    match targets_by_ra targets_to_create_or_update with
    | None => Raised TypeError
    | Some targets_by_ra => while targets_by_ra fuel initial
    end
  else Raised NoTemplate.
End Execute.

End CreateCfht.

(** ** Concrete inputs *)

Module Examples.

(** The separation of two points of the celestial equator: the difference of
    their right ascensions, taken the short way round. It stands in for
    astropy's [separation] where a concrete function is needed. *)
Definition equatorial_separation (a b : SkyCoord) : R :=
  let d := Rabs (ra a - ra b) in Rmin d (360 - d).

Definition at_ra (x : R) : SkyCoord := {| ra := x; dec := 0 |}.

(** The three targets of the end-to-end scenario, as target files of [ph2.py]
    and as messages of [create_cfht_observations.py]. *)
Definition ph2_target (tok : string) (m x : R) : Ph2.Target :=
  {| Ph2.name := tok; Ph2.token := tok; Ph2.mag := m; Ph2.coordinate := at_ra x |}.
Definition cfht_target (tok : string) (m x : R) : CreateCfht.Target :=
  {| CreateCfht.name := tok; CreateCfht.token := tok;
     CreateCfht.magnitude := m; CreateCfht.coordinate := at_ra x |}.

Definition target_a : Ph2.Target := ph2_target "a" 22 10.
Definition target_b : Ph2.Target := ph2_target "b" 24.5 12.
Definition target_c : Ph2.Target := ph2_target "c" 26 200.
Definition ph2_scenario : list Ph2.Target := [target_a; target_b; target_c].

Definition message_a : CreateCfht.Target := cfht_target "a" 22 10.
Definition message_b : CreateCfht.Target := cfht_target "b" 24.5 12.
Definition message_c : CreateCfht.Target := cfht_target "c" 26 200.
Definition cfht_scenario : list CreateCfht.Target := [message_a; message_b; message_c].


(** A token generator that hands the name back, standing in for the SDK's
    [generate_token] where a concrete function is needed. *)
Definition named_token (name : string) : string := name.

(** One observing template per exposure time of the table. *)
Definition templates : gmap Z string :=
  list_to_map ((λ e, (e, "T" +:+ pretty e)) <$> Selector.IC_exptimes).

End Examples.

(** ** Characters of a token *)


Definition digit (c : ascii) : Prop := exists y : N, c = pretty_N_char y.

(** *** The program file of [ph2.py] *)

Module Ph2Program.
Import Selector.

(** A target file as class [Target] reads it; [None] is a key missing
    from the JSON (or an empty list of ephemeris points), on which the
    property raises. *)
Record TargetFile := {
  name : option string;
  client_token : option string;
  mag : option R;
  coordinate : option SkyCoord
}.

(** [ObservingBlock.config], identifiers by their tokens. *)
Record ObservingBlock := {
  identifier : string;
  target_identifier : string;
  constraint_identifiers : list string;
  instrument_config_identifiers : list string
}.

(** [Program.config]. *)
Record Program := {
  runid : string;
  pi_login : string;
  targets : list TargetFile;
  observing_blocks : list ObservingBlock;
  observing_groups : list Ph2.ObservingGroup
}.

Inductive result :=
  | Dumped (program : Program)   (* [json.dump] of line 180 was reached *)
  | Raised
  | Running.

Section Main.
Variable separation : SkyCoord -> SkyCoord -> R.
Variables args_runid args_qrunid : string.

(** Lines 119-133, one target file. The arguments of [logging.info] are
    evaluated at line 120, before the [try] of lines 121-124. *)
Definition add_file (acc : Program * Ph2.Tables) (file : TargetFile)
  : option (Program * Ph2.Tables) :=
  let '(program, tb) := acc in
  target_name ← name file;
  _ ← mag file;
  let mag := default 25%R (mag file) in
  target_token ← client_token file;
  let ob_token := "OB-" +:+ args_qrunid +:+ "-" +:+ target_token in
  let idx := instrument_configuration_identifier mag in
  let ob := {| identifier := ob_token;
               target_identifier := target_token;
               constraint_identifiers := ["C1"];
               instrument_config_identifiers := ["I" +:+ idx] |} in
  target_coordinate ← coordinate file;
  Some ({| runid := runid program;
           pi_login := pi_login program;
           targets := targets program ++ [file];
           observing_blocks := observing_blocks program ++ [ob];
           observing_groups := observing_groups program |},
        Ph2.load_target args_qrunid tb
          {| Ph2.name := target_name; Ph2.token := target_token;
             Ph2.mag := mag; Ph2.coordinate := target_coordinate |}).

(** Lines 118-133. *)
Fixpoint add_files (files : list TargetFile) (acc : Program * Ph2.Tables)
  : option (Program * Ph2.Tables) :=
  match files with
  | [] => Some acc
  | file :: files' => acc' ← add_file acc file; add_files files' acc'
  end.

(** Line 114. *)
Definition empty : Program :=
  {| runid := args_runid; pi_login := "kavelaars"; targets := [];
     observing_blocks := []; observing_groups := [] |}.

(** Lines 114-180: the groups are added to the program as the loop of
    lines 146-178 builds them. *)
Definition main (fuel : nat) (files : list TargetFile) : result :=
  match add_files files
          (empty, {| Ph2.ob_tokens := []; Ph2.mags := ∅; Ph2.ob_coordinate := ∅ |}) with
  | None => Raised
  | Some (program, tb) =>
      match Ph2.while separation args_runid args_qrunid tb fuel Ph2.initial with
      | Ph2.Done st =>
          Dumped {| runid := runid program; pi_login := pi_login program;
                    targets := targets program;
                    observing_blocks := observing_blocks program;
                    observing_groups := Ph2.observing_groups st |}
      | Ph2.Raised => Raised
      | Ph2.Running _ => Running
      end
  end.

(** Not in the source: a file with all its keys, as the target it
    describes, and the observing block made for a target. *)
Definition read (file : TargetFile) : option Ph2.Target :=
  target_name ← name file;
  m ← mag file;
  target_token ← client_token file;
  target_coordinate ← coordinate file;
  Some {| Ph2.name := target_name; Ph2.token := target_token;
          Ph2.mag := m; Ph2.coordinate := target_coordinate |}.

Definition block_of (target : Ph2.Target) : ObservingBlock :=
  {| identifier := Ph2.ob_token_of args_qrunid target;
     target_identifier := Ph2.token target;
     constraint_identifiers := ["C1"];
     instrument_config_identifiers :=
       ["II" +:+ pretty (exposure_time_index (Ph2.mag target) + 1)] |}.
End Main.

End Ph2Program.

Module Ph2ProgramExamples.
Import Ph2Program.

(** The target files of the end-to-end scenario, and a file that gives no
    magnitude. *)
Definition file_of (target : Ph2.Target) : TargetFile :=
  {| name := Some (Ph2.name target); client_token := Some (Ph2.token target);
     mag := Some (Ph2.mag target); coordinate := Some (Ph2.coordinate target) |}.

Definition scenario_files : list TargetFile := file_of <$> Examples.ph2_scenario.

Definition file_without_mag : TargetFile :=
  {| name := Some "d"; client_token := Some "d"; mag := None;
     coordinate := Some (Examples.at_ra 30) |}.

End Ph2ProgramExamples.

(** *** The observing templates of [create_cfht_observations.py] *)

Module CfhtTemplates.

(** The fields of an observing template that [execute] reads:
    [instrument_configuration.etime_or_snr.exposure_time_ms] and [token]. *)
Record ObservingTemplate := {
  exposure_time_ms : Z;
  token : string
}.

(** Line 69: [int(exposure_time_ms / 1000.0)], a float division followed by
    a truncation towards zero. The quotient of the integers is what it gives
    for an exposure time of at most 2^53 ms in absolute value, which a float
    holds exactly; beyond, the conversion and the division round. *)
Definition etime_sec (observing_template : ObservingTemplate) : Z :=
  (exposure_time_ms observing_template ÷ 1000)%Z.

(** Lines 67-70, on what [observing_template_repository.list()] returns. *)
Definition observing_template_by_exptime (listing : list ObservingTemplate)
  : gmap Z ObservingTemplate :=
  foldl (λ d observing_template, <[etime_sec observing_template := observing_template]> d)
        ∅ listing.

(** Line 125: the token [execute] takes from the dictionary. *)
Definition template_tokens (listing : list ObservingTemplate) : gmap Z string :=
  token <$> observing_template_by_exptime listing.

End CfhtTemplates.

(** ** The table parser of [recon_parser.py] and [build_et_files.py] *)

Module HtmlTable.

(** A [<tr>] of the table as the parser sees it: the texts of the tags
    [row.find_all('th')] and [row.find_all('td')] return. *)
Record Row := {
  th : list string;
  td : list string
}.

(** A column label of the frame: a title, or a position when there are no
    titles ([range(0, n_columns)]). *)
Inductive label :=
  | Title (text : string)
  | Position (i : nat).

(** The [pandas.DataFrame] of lines 94-107: its column labels and its rows
    of cells, a cell nothing was written to being [None] (NaN). *)
Record DataFrame := {
  columns : list label;
  cells : list (list (option string))
}.

Inductive exception :=
  | ColumnTitles     (* "Column titles do not match the number of columns" *)
  | IndexError.      (* [df.iat] outside the frame *)

(** The variables of the loop of lines 66-87. *)
Record Counts := {
  n_columns : nat;
  n_rows : Z;
  column_names : list string;
  skip_first_tr : bool
}.

(** Lines 67-87, one row. *)
Definition count_row (st : Counts) (row : Row) : Counts :=
  let td_tags := td row in
  let n_rows := if decide (0 < length td_tags) then (n_rows st + 1)%Z else n_rows st in
  let n_columns := if decide (n_columns st = 0) then length td_tags else n_columns st in
  let th_tags := th row in
  let '(column_names, skip_first_tr) :=
    if decide (0 < length th_tags /\ length (column_names st) = 0)
    then (column_names st ++ th_tags, false)
    else (column_names st, skip_first_tr st) in
  if decide (length column_names = 0) then
    {| n_columns := n_columns; n_rows := n_rows - 1;
       column_names := column_names ++ td row; skip_first_tr := true |}
  else
    {| n_columns := n_columns; n_rows := n_rows;
       column_names := column_names; skip_first_tr := skip_first_tr |}.

(** Lines 60-87. *)
Definition count (rows : list Row) : Counts :=
  foldl count_row
        {| n_columns := 0; n_rows := 0; column_names := []; skip_first_tr := false |}
        rows.

(** [df.iat[row_marker, column_marker] = text]. *)
Definition iat_set (df : list (list (option string))) (row_marker column_marker : nat)
    (text : string) : option (list (list (option string))) :=
  row ← df !! row_marker;
  if decide (column_marker < length row)
  then Some (<[row_marker := <[column_marker := Some text]> row]> df)
  else None.

(** Lines 103-105. *)
Fixpoint write_row (texts : list string) (row_marker column_marker : nat)
    (df : list (list (option string))) : option (list (list (option string))) :=
  match texts with
  | [] => Some df
  | text :: texts' =>
      df' ← iat_set df row_marker column_marker text;
      write_row texts' row_marker (S column_marker) df'
  end.

(** Lines 97-107. *)
Fixpoint fill (rows : list Row) (skip_first_tr : bool) (row_marker : nat)
    (df : list (list (option string))) : option (list (list (option string))) :=
  match rows with
  | [] => Some df
  | row :: rows' =>
      if skip_first_tr then fill rows' false row_marker df
      else
        df' ← write_row (td row) row_marker 0 df;
        fill rows' false (if decide (0 < length (td row)) then S row_marker else row_marker) df'
  end.

(** Lines 60-107 of [parse_html_table], on the rows [table.find_all('tr')]
    returns: the frame as it stands before lines 109-114, which replace the
    cells of a column by floats when all of them read as floats and leave
    the labels and the shape of the frame as they are. *)
Definition parse_html_table (rows : list Row) : exception + DataFrame :=
  let st := count rows in
  if decide (0 < length (column_names st) /\ length (column_names st) <> n_columns st)
  then inl ColumnTitles
  else
    let columns :=
      if decide (0 < length (column_names st)) then Title <$> column_names st
      else Position <$> seq 0 (n_columns st) in
    let df := replicate (Z.to_nat (n_rows st)) (replicate (length columns) None) in
    match fill rows (skip_first_tr st) 0 df with
    | None => inl IndexError
    | Some df' => inr {| columns := columns; cells := df' |}
    end.

(** *** The rows the second loop writes

    Not in the source: the rows that hold cells, the first row of the table
    left out when it was taken for the titles, and a row of cells completed
    to the width of the frame. *)
Definition written (rows : list Row) : list Row :=
  filter (λ row, td row <> [])
         (if skip_first_tr (count rows) then tail rows else rows).

Definition completed (width : nat) (texts : list string) : list (option string) :=
  (Some <$> texts) ++ replicate (width - length texts) None.

End HtmlTable.

Module HtmlTableExamples.
Import HtmlTable.

(** A table of two objects under a row of titles. *)
Definition titles : list string := ["Desig"; "TNO pos err"].
Definition objects : list Row :=
  [{| th := []; td := ["15RR245"; "0.35"] |};
   {| th := []; td := ["04PB112"; "1.20"] |}].
Definition recon_table : list Row := {| th := titles; td := [] |} :: objects.

End HtmlTableExamples.

(** ** The visibility windows of [build_et_files.py] *)

Module BuildEtFiles.

Definition max_per_iter : nat := 7.

Inductive exception :=
  | HorizonsError          (* raised while a row is decoded and looked up *)
  | UnboundLocalError.     (* [end - start] at line 229, with neither bound *)

Section Night.
Variables sun_set_time sun_rise_time : Z.
(** Lines 186-203 for one row: the name decoded from the row, and the rise
    and set times [ephem] computes for the coordinates Horizons gives;
    [None] when one of the calls raises. *)
Variable lookup : string -> option (string * Z * Z).

(** Lines 205-227. [start] and [end] are not reset between rows: a row that
    takes no branch finds them as the row before left them. *)
Definition window (previous : option (Z * Z)) (target_rise_time target_set_time : Z)
  : option (Z * Z) :=
  if (target_rise_time >? sun_rise_time)%Z then
    if (target_set_time >? sun_set_time)%Z then
      Some (sun_set_time,
            if (target_set_time <? sun_rise_time)%Z then target_set_time
            else sun_rise_time)
    else Some (target_set_time, target_set_time)
  else if (target_rise_time <? sun_set_time)%Z then
    Some (sun_set_time,
          if (target_set_time <? sun_rise_time)%Z then target_set_time
          else sun_rise_time)
  else if (target_rise_time >? sun_set_time)%Z && (target_rise_time <? sun_rise_time)%Z then
    Some (target_rise_time,
          if (target_set_time <? sun_rise_time)%Z then target_set_time
          else sun_rise_time)
  else previous.

(** Lines 184-247: the loop over the rows, [count] rows having gone before.
    Line 230 compares [(end - start).to(units.hour)], a float, with one
    hour: on times in whole seconds that is the test made here, but for a
    window of exactly 3600 s, where the float may fall on either side of 1.0. *)
Fixpoint rows_loop (rows : list string) (count : nat) (previous : option (Z * Z))
    (good_targets : list string) : exception + list string :=
  match rows with
  | [] => inr good_targets
  | row :: rows' =>
      let count := S count in
      match lookup row with
      | None => inl HorizonsError
      | Some (name, target_rise_time, target_set_time) =>
          match window previous target_rise_time target_set_time with
          | None => inl UnboundLocalError
          | Some (start, end_) =>
              let duration := (end_ - start)%Z in
              if (duration <? 3600)%Z then
                if decide (count = max_per_iter) then inr good_targets
                else rows_loop rows' count (Some (start, end_)) good_targets
              else
                let good_targets := good_targets ++ [name] in
                if decide (count = max_per_iter) then inr good_targets
                else rows_loop rows' count (Some (start, end_)) good_targets
          end
      end
  end.

(** Lines 132-248, on the rows selected at line 166. *)
Definition parse_recon_table (rows : list string) (iter : nat) : exception + list string :=
  rows_loop (drop (iter * max_per_iter) rows) 0 None [].
End Night.

End BuildEtFiles.

Module BuildEtFilesExamples.
(** The night of [ReconExamples]: a target up in the night, one that rises
    at the second of sunset, and one up in daytime only. *)
Definition catalogue (row : string) : option (string * Z * Z) :=
  if decide (row = "night") then Some ("2015 RR245", 21600, 43200)%Z
  else if decide (row = "dusk") then Some ("2004 PB112", 18000, 19000)%Z
  else if decide (row = "day") then Some ("1992 QB1", 61200, 14400)%Z
  else None.
End BuildEtFilesExamples.

(** ** The ephemeris files of [minor_planet_ephemeris.py] *)

Module MinorPlanetEphemeris.

(** What [ephem] knows of a body once [compute(observatory)] ran. *)
Record Body := {
  rise_time : Z;
  set_time : Z;
  mag : R
}.

(** A point of the ephemeris: the copy of [body.coordinate] of lines 65-67. *)
Record EphemPoint := {
  coordinate : SkyCoord;
  point_mag : R;
  obstime : Z
}.

(** The variables of the loop of lines 32-70, [et] being the points appended
    so far. *)
Record State := {
  current_time : Z;
  et : list EphemPoint
}.

Inductive result :=
  | Saved (et : list EphemPoint)   (* [et.save()] of line 72 was reached *)
  | Raised                         (* the Horizons query raised *)
  | Running (st : State).          (* still looping when the fuel ran out *)

(** Lines 41-44. *)
Definition sun_down (current_time sun_set sun_rise : Z) : bool :=
  if (current_time <? sun_set)%Z || (current_time >? sun_rise)%Z then false else true.

(** Lines 34 and 55-62: four tests in a row, each overwriting the flag. *)
Definition target_up (fb_rise_time current_time fb_set_time : Z) : bool :=
  let target_up := false in
  let target_up :=
    if (fb_rise_time <? current_time)%Z && (current_time <? fb_set_time)%Z
    then true else target_up in
  let target_up :=
    if (fb_rise_time <? current_time)%Z && (fb_set_time <? current_time)%Z
    then false else target_up in
  let target_up :=
    if (fb_rise_time >? current_time)%Z && (fb_set_time >? current_time)%Z
    then true else target_up in
  let target_up :=
    if (fb_rise_time >? current_time)%Z && (current_time >? fb_set_time)%Z
    then false else target_up in
  target_up.

Section Build.
(** [sun.compute(observatory)] with the horizon at -7 degrees, at a date. *)
Variable sun : Z -> Body.
(** [body.predict(t)] followed by [body.coordinate]; [None] when the query
    raises. *)
Variable predict : Z -> option SkyCoord.
(** [fb.compute(observatory)] with the horizon at 40 degrees, for the
    coordinates given to [fb] and a date. *)
Variable fixed_body : SkyCoord -> Z -> Body.
Variables start_time stop_time step_size : Z.

(** Lines 33-70: one iteration of the [while] body. Line 70 adds the step to
    a time kept in floats: the sum is the one made here up to a rounding far
    below a second, which decides a comparison only where a time that was
    stepped to meets the very second it falls on (the stop time, a rise or
    a set time). *)
Definition pass (st : State) : option State :=
  let current_time := current_time st in
  let sun_rise := rise_time (sun current_time) in
  let sun_set := set_time (sun current_time) in
  let sun_down := sun_down current_time sun_set sun_rise in
  c ← predict current_time;
  let fb := fixed_body c current_time in
  let target_up := target_up (rise_time fb) current_time (set_time fb) in
  Some {| current_time := current_time + step_size;
          et := if target_up && sun_down
                then et st ++ [{| coordinate := c; point_mag := mag fb;
                                  obstime := current_time |}]
                else et st |}.

(** Line 32, with [fuel] bounding the number of passes. *)
Fixpoint while (fuel : nat) (st : State) : result :=
  if (current_time st <? stop_time)%Z then
    match fuel with
    | O => Running st
    | S fuel' =>
        match pass st with
        | None => Raised
        | Some st' => while fuel' st'
        end
    end
  else Saved (et st).

(** Lines 30-72. *)
Definition build_ephem_files (fuel : nat) : result :=
  match predict start_time with
  | None => Raised
  | Some _ => while fuel {| current_time := start_time; et := [] |}
  end.

(** *** The loop in closed form

    Not in the source: the times the loop visits and the point, if any, it
    appends at each. *)

Definition passes : nat := Z.to_nat ((stop_time - start_time + step_size - 1) / step_size).

Definition time_of (k : nat) : Z := (start_time + Z.of_nat k * step_size)%Z.

Definition point_at (t : Z) : option EphemPoint :=
  c ← predict t;
  let fb := fixed_body c t in
  if target_up (rise_time fb) t (set_time fb)
     && sun_down t (set_time (sun t)) (rise_time (sun t))
  then Some {| coordinate := c; point_mag := mag fb; obstime := t |}
  else None.

Definition points (n : nat) : list EphemPoint :=
  omap (λ k, point_at (time_of k)) (seq 0 n).
End Build.

End MinorPlanetEphemeris.

Module EphemerisExamples.
Import MinorPlanetEphemeris.

(** A night from 05:00 to 16:00 and a target up from 06:00 to 12:00, the same
    at every date; two hours of ephemeris from 05:30 on, every half hour. *)
Definition night (t : Z) : Body := {| rise_time := 57600; set_time := 18000; mag := 0 |}.
Definition steady (c : SkyCoord) (t : Z) : Body :=
  {| rise_time := 21600; set_time := 43200; mag := 23 |}.
Definition always (t : Z) : option SkyCoord := Some {| ra := 10; dec := 0 |}.
(** A query that answers before 06:30 only. *)
Definition early (t : Z) : option SkyCoord :=
  if (t <? 23400)%Z then Some {| ra := 10; dec := 0 |} else None.

End EphemerisExamples.

(** ** Packed designations and dates of the Minor Planet Center ([mpcread.py]) *)

Module Mpcread.

Inductive exception :=
  | KeyError
  | IndexError
  | ValueError.

(** The result of a call: the exception it raises or the value it returns. *)
#[global] Instance exception_ret : MRet (sum exception) := λ A x, inr x.
#[global] Instance exception_bind : MBind (sum exception) :=
  λ A B f m, match m with inl e => inl e | inr x => f x end.

(** [o] when it holds a value, the exception [e] otherwise. *)
Definition or_raise {A} (e : exception) (o : option A) : exception + A :=
  match o with Some x => inr x | None => inl e end.

(** *** The operations of Python's [str] that the module uses *)

(** [s[i]]: a negative index counts from the end, an index outside the
    string raises ([None]). *)
Definition getitem (s : string) (i : Z) : option ascii :=
  let n := Z.of_nat (String.length s) in
  if (0 <=? i)%Z then String.get (Z.to_nat i) s
  else if (- n <=? i)%Z then String.get (Z.to_nat (n + i)) s
  else None.

(** [s[i:]] and [s[i:j]], for literal bounds [0 <= i <= j]. *)
Fixpoint slice_from (i : nat) (s : string) : string :=
  match i, s with
  | O, _ => s
  | S i', String _ s' => slice_from i' s'
  | S _, EmptyString => EmptyString
  end.

Fixpoint slice_to (j : nat) (s : string) : string :=
  match j, s with
  | S j', String c s' => String c (slice_to j' s')
  | _, _ => EmptyString
  end.

Definition slice (i j : nat) (s : string) : string := slice_to (j - i) (slice_from i s).

(** [s.rfind(c)] for a one-character [c]: the highest index of [c] in [s];
    [None] stands for Python's [-1], and for the [ValueError] of
    [s.rindex(c)]. *)
Fixpoint rfind (s : string) (c : ascii) : option nat :=
  match s with
  | EmptyString => None
  | String x s' =>
      match rfind s' c with
      | Some i => Some (S i)
      | None => if decide (x = c) then Some 0 else None
      end
  end.

(** The class [\d] of [re] on a byte string: [0] to [9]. *)
Definition is_digit (c : ascii) : bool :=
  (48 <=? N_of_ascii c)%N && (N_of_ascii c <=? 57)%N.

Fixpoint all_digits (s : string) : bool :=
  match s with
  | EmptyString => true
  | String c s' => is_digit c && all_digits s'
  end.

(** [re.match('\d+', s)]: the string starts with a digit. *)
Definition match_digits_prefix (s : string) : bool :=
  match s with
  | String c _ => is_digit c
  | EmptyString => false
  end.

(** [re.match('^\d+$', s)]: digits only, at least one; [$] also matches in
    front of a newline that ends the string. *)
Fixpoint match_digits (s : string) : bool :=
  match s with
  | EmptyString => false
  | String c s' =>
      is_digit c &&
      match s' with
      | EmptyString => true
      | String c' EmptyString => is_digit c' || bool_decide (c' = "010"%char)
      | String _ (String _ _) => match_digits s'
      end
  end.

(** ["{:04d}".format(n)]: the decimal numeral, filled with zeros to four
    characters, the sign first. *)
Definition zero_fill (width : nat) (s : string) : string :=
  string_of_list_ascii (replicate (width - String.length s) "0"%char) +:+ s.

Definition format_04d (n : Z) : string :=
  if (n <? 0)%Z then "-" +:+ zero_fill 3 (pretty (- n)%Z) else zero_fill 4 (pretty n).

(** *** The tables (lines 14-19) *)

Definition Ncode : string :=
  "0123456789ABCDEFGHIJKLMNOPQRSTUVWXYZabcdefghijklmnopqrstuvwxyz".
Definition Kilo : string :=
  "ABCDEFGHIJKLMNOPQRSTUVWXYZabcdefghijklmnopqrstuvwxyz".
Definition YY : list (ascii * Z) :=
  [("I"%char, 1800%Z); ("J"%char, 1900%Z); ("K"%char, 2000%Z)].

(** [d[k]] on a dictionary written as its list of items. *)
Fixpoint dict_get (d : list (ascii * Z)) (k : ascii) : option Z :=
  match d with
  | [] => None
  | (k', v) :: d' => if decide (k' = k) then Some v else dict_get d' k
  end.

(** *** Python's [int]

    [int] is a parameter of the functions below. What the theorems use of it
    is that it reads an unsigned decimal numeral as its value and rejects
    the empty string. *)

Definition digit_value (c : ascii) : Z := (Z.of_N (N_of_ascii c) - 48)%Z.

Fixpoint digits_value_from (acc : Z) (s : string) : Z :=
  match s with
  | EmptyString => acc
  | String c s' => digits_value_from (10 * acc + digit_value c) s'
  end.

Definition digits_value (s : string) : Z := digits_value_from 0 s.

Class IntSpec (int : string -> option Z) : Prop := {
  int_digits s :
    s <> EmptyString -> all_digits s = true -> int s = Some (digits_value s);
  int_empty : int EmptyString = None
}.

(** The least [int]: unsigned decimal numerals and nothing else. It stands
    in for Python's where a concrete function is needed. *)
Definition int_of_digits (s : string) : option Z :=
  if all_digits s && negb (bool_decide (s = EmptyString)) then Some (digits_value s)
  else None.

Section Functions.
(** Python's [int] on a string: [None] when it raises [ValueError]. *)
Variable int : string -> option Z.

(** Lines 22-26. The day, a float in the source, is the integer it holds. *)
Definition date_unpack (pdate : string) : exception + (Z * Z * Z) :=
  c0 ← or_raise IndexError (getitem pdate 0);
  century ← or_raise KeyError (dict_get YY c0);
  yy ← or_raise ValueError (int (slice 1 3 pdate));
  let yyyy := (century + yy)%Z in
  c3 ← or_raise IndexError (getitem pdate 3);
  mm ← or_raise ValueError (rfind Ncode c3);
  c4 ← or_raise IndexError (getitem pdate 4);
  dd ← or_raise ValueError (rfind Ncode c4);
  mret (yyyy, Z.of_nat mm, Z.of_nat dd).

(** Lines 29-36, the body of the [try]. *)
Definition desig_pack_number (desig : string) : exception + string :=
  f ← or_raise ValueError (int desig);
  if (f <? 100000)%Z then mret desig
  else
    let digits := (f mod 10000)%Z in
    pow ← or_raise IndexError (getitem Ncode ((f - digits) / 10000));
    mret (String pow (format_04d digits)).

(** Lines 38-44, the handler; what it raises escapes. *)
Definition desig_pack_provisional (desig : string) : exception + string :=
  i ← or_raise ValueError (int (slice 0 2 desig));
  c ← or_raise IndexError (getitem Ncode i);
  let y := slice 2 4 desig in
  month ← or_raise IndexError (getitem desig 5);
  l2 ← or_raise IndexError (getitem desig 6);
  cycle ← or_raise ValueError (int (slice_from 7 desig));
  let digit := (cycle mod 10)%Z in
  n ← or_raise IndexError (getitem Ncode ((cycle - digit) / 10));
  mret (String c y +:+ String month (String n (pretty digit)) +:+ String l2 EmptyString).

(** Lines 28-44: the bare [except:] catches whatever the [try] raises. *)
Definition desig_pack (desig : string) : exception + string :=
  match desig_pack_number desig with
  | inr packed => inr packed
  | inl _ => desig_pack_provisional desig
  end.

(** Lines 47-66. *)
Definition desig_unpack (desig : string) : exception + string :=
  if match_digits_prefix desig then
    n ← or_raise ValueError (int desig);
    mret (pretty n)
  else
    c0 ← or_raise IndexError (getitem desig 0);
    let j := rfind Kilo c0 in
    match (if match_digits (slice 1 7 desig) then j else None) with
    | Some j =>
        n ← or_raise ValueError (int (slice 1 7 desig));
        mret (pretty (100000 + Z.of_nat j * 10000 + n)%Z)
    | None =>
        match dict_get YY c0 with
        | None => mret desig
        | Some century =>
            yy ← or_raise ValueError (int (slice 1 3 desig));
            let yyyy := pretty (century + yy)%Z in
            c3 ← or_raise IndexError (getitem desig 3);
            c6 ← or_raise IndexError (getitem desig 6);
            let Mcode := String c3 (String c6 EmptyString) in
            c4 ← or_raise IndexError (getitem desig 4);
            i ← or_raise ValueError (rfind Ncode c4);
            c5 ← or_raise IndexError (getitem desig 5);
            d ← or_raise ValueError (int (String c5 EmptyString));
            let cycle := (Z.of_nat i * 10 + d)%Z in
            mret (yyyy +:+ " " +:+ Mcode +:+
                  (if (0 <? cycle)%Z then pretty cycle else EmptyString))
        end
    end.
End Functions.

End Mpcread.

(** * Facts about the definitions *)

(** ** The selector *)

Section SelectorFacts.
Import Selector.
Local Open Scope R_scope.

Lemma count_lt_cons x c cuts :
  count_lt x (c :: cuts) =
  ((if decide (x < IZR c)%R then 1 else 0) + count_lt x cuts)%nat.
Proof. unfold count_lt. rewrite filter_cons. by case_decide. Qed.

Lemma count_lt_nil x : count_lt x [] = 0%nat.
Proof. done. Qed.

Lemma count_lt_le_length x cuts : (count_lt x cuts <= length cuts)%nat.
Proof. apply length_filter. Qed.

Lemma count_lt_antitone x y cuts :
  x <= y -> (count_lt y cuts <= count_lt x cuts)%nat.
Proof.
  intros Hxy. induction cuts as [|c cuts IH]; [done|].
  rewrite !count_lt_cons. repeat case_decide; try lia. lra.
Qed.

Lemma Rpower10_pos x : 0 < Rpower 10 x.
Proof. unfold Rpower. apply exp_pos. Qed.

Lemma exact_exptime_bounds mag : 40 <= exact_exptime mag <= 499.
Proof.
  unfold exact_exptime, Rmin, Rmax.
  repeat destruct (Rle_dec _ _); lra.
Qed.

Ltac count_cuts :=
  unfold IC_exptimes; rewrite ?count_lt_cons, ?count_lt_nil;
  repeat (case_decide; try lra).

Lemma clamped_index_range (x : R) :
  40 <= x <= 499 ->
  (1 <= length IC_exptimes - count_lt x IC_exptimes <= 12)%nat.
Proof.
  intros [Hlo Hhi].
  assert (H40 : count_lt x IC_exptimes = count_lt x (tail IC_exptimes)).
  { unfold IC_exptimes at 1. rewrite count_lt_cons. case_decide; [lra|done]. }
  assert (H500 : (1 <= count_lt x IC_exptimes)%nat).
  { rewrite H40. simpl tail. rewrite !count_lt_cons, count_lt_nil.
    destruct (decide (x < 500)); [lia|lra]. }
  pose proof (count_lt_le_length x (tail IC_exptimes)).
  rewrite H40 in *. simpl in *. lia.
Qed.

Lemma exposure_time_index_range mag :
  (1 <= exposure_time_index mag <= 12)%nat.
Proof. apply clamped_index_range, exact_exptime_bounds. Qed.

Lemma clamped_index_40 : (length IC_exptimes - count_lt 40 IC_exptimes = 1)%nat.
Proof. by count_cuts. Qed.

Lemma clamped_index_300 : (length IC_exptimes - count_lt 300 IC_exptimes = 7)%nat.
Proof. by count_cuts. Qed.

Lemma clamped_index_499 : (length IC_exptimes - count_lt 499 IC_exptimes = 12)%nat.
Proof. by count_cuts. Qed.

Lemma exposure_time_index_at mag (x : R) :
  exact_exptime mag = x ->
  exposure_time_index mag = (length IC_exptimes - count_lt x IC_exptimes)%nat.
Proof. intros <-. reflexivity. Qed.

Lemma ideal_exptime_reference : ideal_exptime 24.5 = 300.
Proof.
  unfold ideal_exptime.
  replace ((24.5 - 24.5) / 2.5) with 0 by lra.
  rewrite Rpower_O by lra. lra.
Qed.

Lemma exact_exptime_reference : exact_exptime 24.5 = 300.
Proof.
  unfold exact_exptime. rewrite ideal_exptime_reference.
  unfold Rmin, Rmax. repeat destruct (Rle_dec _ _); lra.
Qed.

Lemma exact_exptime_bright mag : ideal_exptime mag <= 40 -> exact_exptime mag = 40.
Proof.
  intros H. unfold exact_exptime, Rmin, Rmax. repeat destruct (Rle_dec _ _); lra.
Qed.

Lemma exact_exptime_faint mag : 499 <= ideal_exptime mag -> exact_exptime mag = 499.
Proof.
  intros H. unfold exact_exptime, Rmin, Rmax. repeat destruct (Rle_dec _ _); lra.
Qed.

Lemma exposure_time_reference : exposure_time_index 24.5 = 7%nat /\ exposure_time 24.5 = Some 340%Z.
Proof.
  assert (H : exposure_time_index 24.5 = 7%nat).
  { rewrite (exposure_time_index_at _ _ exact_exptime_reference). by count_cuts. }
  split; [done|]. unfold exposure_time. by rewrite H.
Qed.

Lemma exposure_time_bright mag :
  exact_exptime mag = 40 -> exposure_time_index mag = 1%nat /\ exposure_time mag = Some 80%Z.
Proof.
  intros Hx.
  assert (H : exposure_time_index mag = 1%nat).
  { rewrite (exposure_time_index_at _ _ Hx). by count_cuts. }
  split; [done|]. unfold exposure_time. by rewrite H.
Qed.

Lemma exposure_time_faint mag :
  exact_exptime mag = 499 -> exposure_time_index mag = 12%nat /\ exposure_time mag = Some 500%Z.
Proof.
  intros Hx.
  assert (H : exposure_time_index mag = 12%nat).
  { rewrite (exposure_time_index_at _ _ Hx). by count_cuts. }
  split; [done|]. unfold exposure_time. by rewrite H.
Qed.

Lemma ideal_exptime_22 : ideal_exptime 22 = 3.
Proof.
  unfold ideal_exptime.
  replace ((24.5 - 22) / 2.5) with 1 by lra.
  rewrite Rpower_1 by lra. lra.
Qed.

Lemma Rpower10_neg_06 : Rpower 10 ((24.5 - 26) / 2.5) < / 2.
Proof.
  set (x := Rpower 10 ((24.5 - 26) / 2.5)).
  assert (Hx : 0 < x) by apply Rpower10_pos.
  assert (H5 : x ^ 5 = / 1000).
  { rewrite <- (Rpower_pow 5 x Hx). unfold x. rewrite Rpower_mult.
    replace ((24.5 - 26) / 2.5 * INR 5) with (- INR 3) by (simpl; lra).
    rewrite Rpower_Ropp, Rpower_pow by lra. simpl. lra. }
  destruct (Rlt_dec x (/ 2)) as [|Hge]; [done|exfalso].
  assert (H2 : / 2 <= x) by lra.
  assert (H4 : / 4 <= x ^ 2) by nra.
  assert (H16 : / 16 <= x ^ 4) by nra.
  assert (H32 : / 32 <= x ^ 5) by nra.
  lra.
Qed.

Lemma ideal_exptime_26 : 499 <= ideal_exptime 26.
Proof.
  unfold ideal_exptime.
  pose proof Rpower10_neg_06 as Hlt.
  pose proof (Rpower10_pos ((24.5 - 26) / 2.5)) as Hpos.
  set (x := Rpower 10 ((24.5 - 26) / 2.5)) in *.
  assert (Hsq : 0 < x ^ 2 < / 4) by nra.
  apply Rmult_le_reg_r with (x ^ 2); [lra|].
  unfold Rdiv. rewrite Rmult_assoc, Rinv_l by lra. lra.
Qed.

Lemma IC_exptimes_sorted : StronglySorted Z.lt IC_exptimes.
Proof. unfold IC_exptimes. repeat (constructor; [|repeat constructor; lia]). constructor. Qed.

Lemma StronglySorted_lookup_le (l : list Z) (i j : nat) (a b : Z) :
  StronglySorted Z.lt l -> (i <= j)%nat -> l !! i = Some a -> l !! j = Some b -> (a <= b)%Z.
Proof.
  intros Hs. revert i j. induction Hs as [|x l Hs IH Hall]; intros i j Hij Hi Hj; [done|].
  destruct i as [|i], j as [|j]; simpl in *; simplify_eq; try lia.
  - rewrite Forall_forall in Hall. apply list_elem_of_lookup_2 in Hj.
    specialize (Hall _ Hj). lia.
  - eapply IH; [|done..]. lia.
Qed.

Lemma count_lt_sorted x (l : list Z) :
  StronglySorted Z.lt l ->
  forall i c, l !! i = Some c -> (x < IZR c <-> (length l - count_lt x l <= i)%nat).
Proof.
  induction 1 as [|a l Hs IH Hall]; intros i c Hi; [done|].
  rewrite count_lt_cons. pose proof (count_lt_le_length x l) as Hle.
  rewrite Forall_forall in Hall. case_decide as Ha.
  - assert (Hfull : count_lt x l = length l).
    { clear IH Hle Hi. induction l as [|b l IHl]; [done|].
      rewrite count_lt_cons, decide_True.
      - simpl. f_equal. apply IHl; [by inversion Hs|].
        intros y Hy. apply Hall. by right.
      - assert (a < b)%Z by (apply Hall; left). apply IZR_lt in H. lra. }
    rewrite Hfull. simpl. split; [lia|]. intros _.
    destruct i as [|i]; simpl in Hi; [by simplify_eq|].
    apply list_elem_of_lookup_2, Hall, IZR_lt in Hi. lra.
  - destruct i as [|i]; simpl in Hi.
    + simplify_eq. simpl. split; [done|lia].
    + rewrite (IH i c Hi). simpl. lia.
Qed.

Lemma IC_exptimes_lookup_range (i : nat) :
  (1 <= i <= 12)%nat -> exists v, IC_exptimes !! i = Some v /\ (80 <= v <= 500)%Z.
Proof.
  intros Hi. unfold IC_exptimes.
  do 13 (destruct i as [|i]; [simpl; first [lia | eexists; split; [reflexivity|lia]]|]).
  lia.
Qed.

Lemma exposure_time_total mag :
  exists v, exposure_time mag = Some v /\ (80 <= v <= 500)%Z.
Proof. apply IC_exptimes_lookup_range, exposure_time_index_range. Qed.

End SelectorFacts.

(** ** The selector on floats *)

Section FloatSelectorFacts.
Import FloatSelector.
Local Open Scope R_scope.

Lemma float_le_trans x y z : float_le x y -> float_le y z -> float_le x z.
Proof. destruct x, y, z; simpl; try done; lra. Qed.

Lemma float_positive x : float_le (Finite 0) x -> x <> Finite 0 -> float_lt (Finite 0) x.
Proof.
  destruct x as [a|]; simpl; [|done]. intros Ha Hne.
  destruct (Req_dec a 0) as [->|]; [done|lra].
Qed.

(** *** The clamp *)

Lemma clamp_bounds x :
  exists r, min (Finite 499) (max (Finite 40) x) = Finite r /\ 40 <= r <= 499.
Proof.
  unfold min, max. destruct x as [a|]; repeat (case_decide; simpl in * );
    try done; eexists; (split; [reflexivity|lra]).
Qed.

Lemma clamp_monotone x y :
  float_le x y ->
  float_le (min (Finite 499) (max (Finite 40) x)) (min (Finite 499) (max (Finite 40) y)).
Proof.
  unfold min, max. destruct x as [a|], y as [b|]; simpl; intros Hxy;
    repeat (case_decide; simpl in * ); try done; lra.
Qed.

Lemma clamp_Finite (a : R) :
  min (Finite 499) (max (Finite 40) (Finite a)) = Finite (Rmin 499 (Rmax 40 a)).
Proof.
  unfold min, max, Rmin, Rmax.
  repeat (case_decide; simpl in * ); repeat destruct (Rle_dec _ _); f_equal; lra.
Qed.

(** *** What the functions return and what they raise *)

Lemma float_count_lt_Finite (r : R) cuts : count_lt (Finite r) cuts = Selector.count_lt r cuts.
Proof. reflexivity. Qed.

Section Returns.
Context (fl : Arithmetic).

Lemma float_exact_exptime_inr mag x :
  exact_exptime fl mag = inr x <->
  exists ideal, ideal_exptime fl mag = inr ideal /\
                x = min (Finite 499) (max (Finite 40) ideal).
Proof.
  unfold exact_exptime. destruct (ideal_exptime fl mag) as [e|ideal]; simpl.
  - split; [done|]. by intros (? & ? & _).
  - split; [intros [= <-]; by eexists|]. by intros (? & [= <-] & ->).
Qed.

Lemma float_exact_exptime_inl mag e :
  exact_exptime fl mag = inl e <-> ideal_exptime fl mag = inl e.
Proof. unfold exact_exptime. by destruct (ideal_exptime fl mag). Qed.

Lemma float_exact_exptime_bounds mag x :
  exact_exptime fl mag = inr x -> exists r, x = Finite r /\ 40 <= r <= 499.
Proof.
  intros (ideal & _ & ->)%float_exact_exptime_inr. apply clamp_bounds.
Qed.

Lemma float_exposure_time_index_inr mag i :
  exposure_time_index fl mag = inr i <->
  exists x, exact_exptime fl mag = inr x /\
            i = (length Selector.IC_exptimes - count_lt x Selector.IC_exptimes)%nat.
Proof.
  unfold exposure_time_index. cbv zeta.
  destruct (exact_exptime fl mag) as [e|x]; simpl.
  - split; [done|]. by intros (? & ? & _).
  - split; [intros [= <-]; by eexists|]. by intros (? & [= <-] & ->).
Qed.

Lemma float_exposure_time_index_inl mag e :
  exposure_time_index fl mag = inl e <-> ideal_exptime fl mag = inl e.
Proof.
  rewrite <-float_exact_exptime_inl. unfold exposure_time_index. cbv zeta.
  destruct (exact_exptime fl mag); cbn; split; intros H;
    first [discriminate H|by injection H as ->].
Qed.

Lemma float_exposure_time_index_range mag i :
  exposure_time_index fl mag = inr i -> (1 <= i <= 12)%nat.
Proof.
  intros (x & Hx & ->)%float_exposure_time_index_inr.
  apply float_exact_exptime_bounds in Hx as (r & -> & Hr).
  rewrite float_count_lt_Finite. by apply clamped_index_range.
Qed.

Lemma float_exposure_time_inr mag etime :
  exposure_time fl mag = inr etime <->
  exists i, exposure_time_index fl mag = inr i /\ Selector.IC_exptimes !! i = Some etime.
Proof.
  unfold exposure_time. destruct (exposure_time_index fl mag) as [e|i]; simpl.
  - split; [done|]. by intros (? & ? & _).
  - destruct (Selector.IC_exptimes !! i) as [v|] eqn:Hi.
    + split; [intros [= <-]; by eexists|]. intros (? & [= <-] & ?). congruence.
    + split; [done|]. intros (? & [= <-] & ?). congruence.
Qed.

Lemma float_exposure_time_total mag i :
  exposure_time_index fl mag = inr i ->
  exists etime, exposure_time fl mag = inr etime /\
                Selector.IC_exptimes !! i = Some etime /\ (80 <= etime <= 500)%Z.
Proof.
  intros Hi. pose proof (float_exposure_time_index_range _ _ Hi) as Hr.
  destruct (IC_exptimes_lookup_range i Hr) as (v & Hv & Hb).
  exists v. split; [|done]. apply float_exposure_time_inr. by exists i.
Qed.

Lemma float_exposure_time_inl mag e :
  exposure_time fl mag = inl e <-> ideal_exptime fl mag = inl e.
Proof.
  rewrite <-float_exposure_time_index_inl. unfold exposure_time.
  destruct (exposure_time_index fl mag) as [e'|i] eqn:Hi; simpl.
  - split; intros [= ->]; done.
  - destruct (float_exposure_time_total _ _ Hi) as (v & _ & -> & _). done.
Qed.

Lemma float_identifier_inr mag i :
  exposure_time_index fl mag = inr i ->
  instrument_configuration_identifier fl mag = inr ("I" +:+ pretty (i + 1)%nat).
Proof. unfold instrument_configuration_identifier. by intros ->. Qed.

(** The selected exposure time is the least one above the clamped value. *)
Lemma float_exposure_time_least mag (r : R) :
  exact_exptime fl mag = inr (Finite r) ->
  exists etime,
    exposure_time fl mag = inr etime /\ r < IZR etime /\
    forall c, c ∈ Selector.IC_exptimes -> r < IZR c -> (etime <= c)%Z.
Proof.
  intros Hx.
  assert (Hi : exposure_time_index fl mag
               = inr (length Selector.IC_exptimes
                      - Selector.count_lt r Selector.IC_exptimes)%nat).
  { apply float_exposure_time_index_inr. by exists (Finite r). }
  destruct (float_exposure_time_total _ _ Hi) as (v & Hv & Hl & _).
  exists v. split; [done|].
  pose proof (count_lt_sorted r Selector.IC_exptimes IC_exptimes_sorted) as Hc.
  split.
  - by apply (Hc _ _ Hl).
  - intros c Hin Hlt. apply list_elem_of_lookup in Hin as [j Hj].
    eapply (StronglySorted_lookup_le Selector.IC_exptimes); [apply IC_exptimes_sorted| |done..].
    by apply (Hc _ _ Hj).
Qed.

(** The value at a clamped ideal of 40, of 300 and of 499 seconds. *)
Lemma float_exposure_time_at mag (r : R) (i : nat) :
  exact_exptime fl mag = inr (Finite r) ->
  i = (length Selector.IC_exptimes - Selector.count_lt r Selector.IC_exptimes)%nat ->
  exposure_time_index fl mag = inr i /\
  exposure_time fl mag
  = match Selector.IC_exptimes !! i with Some etime => inr etime | None => inl IndexError end /\
  instrument_configuration_identifier fl mag = inr ("I" +:+ pretty (i + 1)%nat).
Proof.
  intros Hx ->.
  assert (Hi : exposure_time_index fl mag
               = inr (length Selector.IC_exptimes
                      - Selector.count_lt r Selector.IC_exptimes)%nat).
  { apply float_exposure_time_index_inr. by exists (Finite r). }
  split; [done|]. split; [|by apply float_identifier_inr].
  unfold exposure_time. by rewrite Hi.
Qed.

End Returns.

(** *** The order of the magnitudes *)

Section Order.
Context (fl : Arithmetic) (Hmono : Monotone fl).

Lemma float_ideal_exptime_monotone (m1 m2 : R) x1 x2 :
  m1 <= m2 ->
  ideal_exptime fl (Finite m1) = inr x1 -> ideal_exptime fl (Finite m2) = inr x2 ->
  float_le x1 x2.
Proof.
  intros Hm. unfold ideal_exptime, truediv.
  rewrite !(decide_False (P := Finite 2.5 = Finite 0)) by (intros [=]; lra).
  pose proof (float_sub_antitone _ Hmono 24.5 m1 m2 Hm) as Hs.
  pose proof (float_div_monotone _ Hmono _ _ 2.5 ltac:(lra) Hs) as Ht.
  set (t1 := float_div fl (float_sub fl (Finite 24.5) (Finite m1)) (Finite 2.5)) in *.
  set (t2 := float_div fl (float_sub fl (Finite 24.5) (Finite m2)) (Finite 2.5)) in *.
  simpl.
  destruct (float_pow fl (Finite 10) t1) as [|p1] eqn:Hp1; [done|].
  destruct (float_pow fl (Finite 10) t2) as [|p2] eqn:Hp2; [done|].
  simpl.
  pose proof (float_pow_monotone _ Hmono t2 t1 p2 p1 Ht Hp2 Hp1) as Hp.
  assert (H10 : float_le (Finite 0) (Finite 10)) by (simpl; lra).
  pose proof (float_pow_nonneg _ Hmono _ _ _ H10 Hp2) as Hp2pos.
  assert (Hp1pos : float_le (Finite 0) p1) by (by eapply float_le_trans).
  destruct (float_pow fl p1 (Finite 2)) as [|q1] eqn:Hq1; [done|].
  destruct (float_pow fl p2 (Finite 2)) as [|q2] eqn:Hq2; [done|].
  simpl.
  pose proof (float_square_monotone _ Hmono p2 p1 q2 q1 Hp2pos Hp Hq2 Hq1) as Hq.
  pose proof (float_pow_nonneg _ Hmono _ _ _ Hp2pos Hq2) as Hq2pos.
  case_decide as Hz1; [done|]. case_decide as Hz2; [done|].
  intros [= <-] [= <-].
  apply (float_div_antitone _ Hmono 300 q2 q1); [lra| |done].
  by apply float_positive.
Qed.

Lemma float_exposure_time_index_monotone (m1 m2 : R) i1 i2 :
  m1 <= m2 ->
  exposure_time_index fl (Finite m1) = inr i1 ->
  exposure_time_index fl (Finite m2) = inr i2 ->
  (i1 <= i2)%nat.
Proof.
  intros Hm (x1 & Hx1 & ->)%float_exposure_time_index_inr
            (x2 & Hx2 & ->)%float_exposure_time_index_inr.
  destruct (float_exact_exptime_bounds _ _ _ Hx1) as (r1 & -> & _).
  destruct (float_exact_exptime_bounds _ _ _ Hx2) as (r2 & -> & _).
  apply float_exact_exptime_inr in Hx1 as (y1 & Hy1 & Hc1).
  apply float_exact_exptime_inr in Hx2 as (y2 & Hy2 & Hc2).
  pose proof (clamp_monotone _ _ (float_ideal_exptime_monotone _ _ _ _ Hm Hy1 Hy2)) as Hle.
  rewrite <-Hc1, <-Hc2 in Hle. simpl in Hle.
  rewrite !float_count_lt_Finite.
  pose proof (count_lt_antitone _ _ Selector.IC_exptimes Hle).
  pose proof (count_lt_le_length r1 Selector.IC_exptimes).
  lia.
Qed.

Lemma float_exposure_time_monotone (m1 m2 : R) (e1 e2 : Z) :
  m1 <= m2 ->
  exposure_time fl (Finite m1) = inr e1 -> exposure_time fl (Finite m2) = inr e2 ->
  (e1 <= e2)%Z.
Proof.
  intros Hm (i1 & Hi1 & Hl1)%float_exposure_time_inr (i2 & Hi2 & Hl2)%float_exposure_time_inr.
  eapply (StronglySorted_lookup_le Selector.IC_exptimes); [apply IC_exptimes_sorted| |done..].
  by eapply float_exposure_time_index_monotone.
Qed.

End Order.

(** *** Magnitudes at which the operations round nothing *)

Ltac representable m e :=
  exists m, e; split; [lia|split; [lia|simpl; lra]].

Section Rounded.
Context (fl : Arithmetic) (Hexact : Exact fl) (Hpow : PythonPow fl).

Lemma float_exponent (mag t : R) (m1 m2 m3 : Z) :
  mag = IZR m1 * / 2 -> 24.5 - mag = IZR m2 -> t = IZR m3 -> t * 2.5 = IZR m2 ->
  (Z.abs m1 < 2 ^ 53)%Z -> (Z.abs m2 < 2 ^ 53)%Z -> (Z.abs m3 < 2 ^ 53)%Z ->
  truediv fl (float_sub fl (Finite 24.5) (Finite mag)) (Finite 2.5) = inr (Finite t).
Proof.
  intros Hm1 Hm2 Hm3 Ht H1 H2 H3. unfold truediv.
  rewrite decide_False by (intros [=]; lra).
  rewrite (float_sub_exact _ Hexact 24.5 mag).
  - rewrite (float_div_exact _ Hexact (24.5 - mag) 2.5).
    + do 2 f_equal. lra.
    + exists m2, 0%Z. split; [done|]. split; [lia|]. simpl. lra.
    + representable 5%Z (-1)%Z.
    + lra.
    + exists m3, 0%Z. split; [done|]. split; [lia|]. simpl. lra.
  - representable 49%Z (-1)%Z.
  - exists m1, (-1)%Z. split; [done|]. split; [lia|]. simpl. lra.
  - exists m2, 0%Z. split; [done|]. split; [lia|]. simpl. lra.
Qed.

Lemma float_ideal_exptime_reference :
  ideal_exptime fl (Finite 24.5) = inr (Finite 300).
Proof.
  unfold ideal_exptime.
  rewrite (float_exponent 24.5 0 49 0 0) by (lia || lra). simpl.
  rewrite (float_pow_zero _ Hpow). simpl.
  rewrite (float_pow_one _ Hpow). simpl.
  unfold truediv. rewrite decide_False by (intros [=]; lra).
  rewrite (float_div_exact _ Hexact 300 1);
    [do 2 f_equal; lra|representable 300%Z 0%Z|representable 1%Z 0%Z|lra|representable 300%Z 0%Z].
Qed.

Lemma float_ideal_exptime_overflow :
  ideal_exptime fl (Finite (-975.5)) = inl OverflowError.
Proof.
  unfold ideal_exptime.
  rewrite (float_exponent (-975.5) 400 (-1951) 1000 400) by (lia || lra). simpl.
  rewrite (float_pow_overflow _ Hpow) by lra. done.
Qed.

Lemma float_ideal_exptime_zero_division :
  ideal_exptime fl (Finite 1024.5) = inl ZeroDivisionError.
Proof.
  unfold ideal_exptime.
  rewrite (float_exponent 1024.5 (-400) 2049 (-1000) (-400)) by (lia || lra). simpl.
  rewrite (float_pow_underflow _ Hpow) by lra. simpl.
  rewrite (float_pow_zero_squared _ Hpow). simpl.
  unfold truediv. by rewrite decide_True.
Qed.

Lemma float_exact_exptime_reference :
  exact_exptime fl (Finite 24.5) = inr (Finite 300).
Proof.
  apply float_exact_exptime_inr. exists (Finite 300).
  split; [apply float_ideal_exptime_reference|].
  rewrite clamp_Finite. f_equal. unfold Rmin, Rmax. repeat destruct (Rle_dec _ _); lra.
Qed.

End Rounded.

End FloatSelectorFacts.

(** ** The arithmetic of the reals in the range of a double *)

Section UnroundedFacts.
Import FloatSelector Unrounded.
Local Open Scope R_scope.

Lemma Rpower10_nat (n : nat) : Rpower 10 (INR n) = IZR (10 ^ Z.of_nat n).
Proof. rewrite Rpower_pow by lra. apply pow_IZR. Qed.

Lemma Rpower10_monotone s t : s <= t -> Rpower 10 s <= Rpower 10 t.
Proof. intros Hst. apply Rle_Rpower; [lra|done]. Qed.

Lemma thresholds : 0 < underflow_threshold /\ underflow_threshold < overflow_threshold.
Proof.
  unfold underflow_threshold, overflow_threshold.
  assert (H1 : 1 <= IZR (2 ^ 1075)) by (apply IZR_le; by vm_compute).
  assert (H2 : 1 < IZR (2 ^ 1024)) by (apply IZR_lt; by vm_compute).
  assert (H3 : 0 < / IZR (2 ^ 1075)) by (apply Rinv_0_lt_compat; lra).
  split; [done|].
  assert (/ IZR (2 ^ 1075) <= 1); [|lra].
  rewrite <-Rinv_1. apply Rinv_le_contravar; lra.
Qed.

Lemma Rpower10_range s :
  -300 <= s <= 300 -> underflow_threshold <= Rpower 10 s < overflow_threshold.
Proof.
  intros [Hlo Hhi].
  assert (H300 : Rpower 10 300 = IZR (10 ^ 300)).
  { replace 300 with (INR 300) by (rewrite INR_IZR_INZ; reflexivity).
    apply Rpower10_nat. }
  assert (Hpos : 0 < IZR (10 ^ 300)) by (apply IZR_lt; by vm_compute).
  split.
  - apply Rle_trans with (Rpower 10 (Ropp 300)); [|apply Rpower10_monotone; lra].
    rewrite Rpower_Ropp, H300. unfold underflow_threshold.
    apply Rinv_le_contravar; [done|]. apply IZR_le. by vm_compute.
  - apply Rle_lt_trans with (Rpower 10 300); [by apply Rpower10_monotone|].
    rewrite H300. unfold overflow_threshold. apply IZR_lt. by vm_compute.
Qed.

Lemma Rpower10_overflow t : 309 <= t -> overflow_threshold <= Rpower 10 t.
Proof.
  intros Ht. apply Rle_trans with (Rpower 10 309); [|by apply Rpower10_monotone].
  replace 309 with (INR 309) by (rewrite INR_IZR_INZ; reflexivity).
  rewrite Rpower10_nat. unfold overflow_threshold. apply IZR_le. by vm_compute.
Qed.

Lemma Rpower10_underflow t : t <= -400 -> Rpower 10 t < underflow_threshold.
Proof.
  intros Ht. apply Rle_lt_trans with (Rpower 10 (Ropp 400)); [by apply Rpower10_monotone|].
  rewrite Rpower_Ropp.
  replace 400 with (INR 400) by (rewrite INR_IZR_INZ; reflexivity).
  rewrite Rpower10_nat. unfold underflow_threshold.
  apply Rinv_lt_contravar.
  - apply Rmult_lt_0_compat; apply IZR_lt; by vm_compute.
  - apply IZR_lt. by vm_compute.
Qed.

Lemma in_range_inside r :
  underflow_threshold <= r < overflow_threshold -> in_range r = inr (Finite r).
Proof. intros [Hlo Hhi]. unfold in_range. repeat case_decide; (done || lra). Qed.

Lemma in_range_nonneg r p : in_range r = inr p -> float_le (Finite 0) p.
Proof.
  pose proof thresholds as [Hpos _]. unfold in_range.
  repeat case_decide; intros [= <-]; simpl; lra.
Qed.

Lemma in_range_monotone r1 r2 p1 p2 :
  r1 <= r2 -> in_range r1 = inr p1 -> in_range r2 = inr p2 -> float_le p1 p2.
Proof.
  pose proof thresholds as [Hpos _]. intros Hr. unfold in_range.
  repeat case_decide; intros [= <-] [= <-]; simpl; lra.
Qed.

Lemma in_range_1 : in_range 1 = inr (Finite 1).
Proof.
  apply in_range_inside. split.
  - unfold underflow_threshold. rewrite <-Rinv_1.
    apply Rinv_le_contravar; [lra|]. apply IZR_le. by vm_compute.
  - unfold overflow_threshold. apply IZR_lt. by vm_compute.
Qed.

Lemma in_range_0 : in_range 0 = inr (Finite 0).
Proof.
  pose proof thresholds. unfold in_range.
  rewrite decide_False by lra. by rewrite decide_True by lra.
Qed.

Lemma unrounded_pow10 t : pow (Finite 10) (Finite t) = in_range (Rpower 10 t).
Proof.
  unfold pow. case_decide as Ht.
  - subst t. rewrite Rpower_O by lra. by rewrite in_range_1.
  - rewrite decide_True by lra. done.
Qed.

Lemma unrounded_square a : 0 <= a -> pow (Finite a) (Finite 2) = in_range (a ^ 2).
Proof.
  intros Ha. unfold pow. rewrite decide_False by lra.
  case_decide as Hpos.
  - f_equal. replace 2 with (INR 2) by (simpl; lra). by apply Rpower_pow.
  - assert (a = 0) as -> by lra.
    rewrite !(decide_False (P := 0 < 0)) by lra. rewrite decide_False by lra.
    replace (0 ^ 2) with 0 by (simpl; lra). by rewrite in_range_0.
Qed.

Lemma unrounded_pow10_inf : pow (Finite 10) Infinity = inr Infinity.
Proof. unfold pow. rewrite Rabs_pos_eq by lra. by rewrite decide_True by lra. Qed.

Lemma unrounded_square_inf : pow Infinity (Finite 2) = inr Infinity.
Proof. unfold pow. rewrite decide_False by lra. by rewrite decide_False by lra. Qed.

Lemma unrounded_Exact : Exact unrounded.
Proof. by split. Qed.

Lemma unrounded_PythonPow : PythonPow unrounded.
Proof.
  split; cbn [float_pow unrounded].
  - intros [a|]; unfold pow; by rewrite decide_True.
  - intros [b|]; unfold pow.
    + case_decide; [done|]. rewrite decide_True by lra.
      assert (Rpower 1 b = 1) as ->.
      { unfold Rpower. rewrite ln_1, Rmult_0_r. apply exp_0. }
      apply in_range_1.
    + rewrite Rabs_R1. rewrite decide_False by lra. by rewrite decide_True.
  - rewrite unrounded_square by lra.
    replace (0 ^ 2) with 0 by (simpl; lra). apply in_range_0.
  - intros t Ht. rewrite unrounded_pow10. unfold in_range.
    rewrite decide_True; [done|]. by apply Rpower10_overflow.
  - intros t Ht. rewrite unrounded_pow10. unfold in_range.
    pose proof (Rpower10_underflow t Ht). pose proof thresholds.
    rewrite decide_False by lra. by rewrite decide_True.
Qed.

Lemma unrounded_pow_nonneg x y r :
  float_le (Finite 0) x -> pow x y = inr r -> float_le (Finite 0) r.
Proof.
  unfold pow. destruct x as [a|], y as [b|]; simpl; intros Ha;
    repeat case_decide; try done;
    first [apply in_range_nonneg | intros [= <-]; simpl; (done || lra)].
Qed.

Lemma unrounded_Monotone : Monotone unrounded.
Proof.
  split; cbn [float_sub float_div float_pow unrounded].
  - intros x y1 y2 Hy. simpl. lra.
  - intros [a1|] [a2|] y Hy; cbn [float_le float_lt sub div]; try done. intros Ha.
    unfold Rdiv. apply Rmult_le_compat_r; [|done].
    apply Rlt_le. by apply Rinv_0_lt_compat.
  - intros x [b1|] [b2|] Hx; cbn [float_le float_lt sub div]; try done.
    + intros Hb1 Hb. unfold Rdiv. apply Rmult_le_compat_l; [lra|].
      apply Rinv_le_contravar; lra.
    + intros Hb1 _. apply Rlt_le. by apply Rdiv_lt_0_compat.
  - apply unrounded_pow_nonneg.
  - intros [t1|] [t2|] p1 p2; cbn [float_le float_lt sub div]; try done.
    + intros Ht. rewrite !unrounded_pow10. apply in_range_monotone.
      by apply Rpower10_monotone.
    + intros _ _. rewrite unrounded_pow10_inf. intros [= <-]. by destruct p1.
    + intros _. rewrite unrounded_pow10_inf. intros [= <-] [= <-]. done.
  - intros [a1|] [a2|] q1 q2; cbn [float_le float_lt sub div]; try done.
    + intros H1 H2. rewrite !unrounded_square by lra. apply in_range_monotone. nra.
    + intros _ _ _. rewrite unrounded_square_inf. intros [= <-]. by destruct q1.
    + intros _ _. rewrite unrounded_square_inf. intros [= <-] [= <-]. done.
Qed.

(** *** The selector on it is the one on the reals *)

Lemma unrounded_ideal_exptime (mag : R) :
  -350.5 <= mag <= 399.5 ->
  ideal_exptime unrounded (Finite mag) = inr (Finite (Selector.ideal_exptime mag)).
Proof.
  intros Hmag. unfold ideal_exptime, truediv.
  rewrite decide_False by (intros [=]; lra).
  cbn [float_sub float_div float_pow unrounded sub div mbind float_exception_bind].
  set (t := (24.5 - mag) / 2.5).
  assert (Ht : -150 <= t <= 150) by (unfold t; lra).
  rewrite unrounded_pow10, in_range_inside by (apply Rpower10_range; lra).
  cbn [mbind float_exception_bind].
  pose proof (Rpower10_pos t) as Hp.
  rewrite unrounded_square by lra.
  assert (Hsq : Rpower 10 t ^ 2 = Rpower 10 (t * 2)).
  { rewrite <-(Rpower_pow 2) by done. rewrite Rpower_mult. f_equal. }
  rewrite in_range_inside by (rewrite Hsq; apply Rpower10_range; lra).
  cbn [mbind float_exception_bind].
  rewrite decide_False by (intros [=]; nra).
  done.
Qed.

Lemma unrounded_exact_exptime (mag : R) :
  -350.5 <= mag <= 399.5 ->
  exact_exptime unrounded (Finite mag) = inr (Finite (Selector.exact_exptime mag)).
Proof.
  intros Hmag. apply float_exact_exptime_inr. eexists.
  split; [by apply unrounded_ideal_exptime|]. by rewrite clamp_Finite.
Qed.

Lemma unrounded_exposure_time_index (mag : R) :
  -350.5 <= mag <= 399.5 ->
  exposure_time_index unrounded (Finite mag) = inr (Selector.exposure_time_index mag).
Proof.
  intros Hmag. apply float_exposure_time_index_inr. eexists.
  split; [by apply unrounded_exact_exptime|]. done.
Qed.

Lemma unrounded_exposure_time (mag : R) (etime : Z) :
  -350.5 <= mag <= 399.5 ->
  Selector.exposure_time mag = Some etime ->
  exposure_time unrounded (Finite mag) = inr etime.
Proof.
  intros Hmag He. apply float_exposure_time_inr. eexists.
  split; [by apply unrounded_exposure_time_index|done].
Qed.

End UnroundedFacts.

(** ** The visibility windows *)

Section ReconFacts.
Import ReconParser.
Local Open Scope Z_scope.
Variables sun_set_time sun_rise_time : Z.
Variable lookup : string -> option FixedBody.

#[local] Abbreviation window := (window sun_set_time sun_rise_time).
#[local] Abbreviation rows_loop := (rows_loop sun_set_time sun_rise_time lookup).
#[local] Abbreviation parse_recon_table := (parse_recon_table sun_set_time sun_rise_time lookup).

Lemma window_accept_contained tr ts s e :
  window tr ts = Some (s, e) -> MINIMUM_UP_TIME <= e - s ->
  s <= e /\ sun_set_time <= s /\ e <= sun_rise_time.
Proof.
  unfold ReconParser.window, MINIMUM_UP_TIME. intros Hw Hd.
  repeat case_match; simplify_eq; try lia.
  all: try (apply andb_prop in H1 as [? ?]); lia.
Qed.

#[local] Abbreviation accepted := (accepted sun_set_time sun_rise_time).

Lemma rows_loop_accepted rows acc good :
  rows_loop rows acc = inr good ->
  Forall accepted acc -> Forall accepted good.
Proof.
  revert acc. induction rows as [|row rows IH]; intros acc Hr Hacc; simpl in Hr.
  - by simplify_eq.
  - destruct (lookup row) as [t|]; [|done].
    destruct (window (rise_time t) (set_time t)) as [[s e]|] eqn:Hw; [|done].
    destruct (e - s <? MINIMUM_UP_TIME) eqn:Hd.
    + eauto.
    + apply (IH _ Hr). apply Forall_app; split; [done|].
      constructor; [|done]. exists s, e. split; [done|lia].
Qed.

Lemma rows_loop_lookup_failure rows acc row :
  row ∈ rows -> lookup row = None -> exists e, rows_loop rows acc = inl e.
Proof.
  revert acc. induction rows as [|r rows IH]; intros acc Hin Hl.
  - by apply elem_of_nil in Hin.
  - simpl. apply elem_of_cons in Hin as [<-|Hin].
    + rewrite Hl. eauto.
    + destruct (lookup r) as [t|]; [|eauto].
      destruct (window _ _) as [[s e]|]; [|eauto].
      case_match; eauto.
Qed.

Lemma rows_loop_no_window rows acc row t :
  row ∈ rows -> lookup row = Some t ->
  window (rise_time t) (set_time t) = None ->
  exists e, rows_loop rows acc = inl e.
Proof.
  revert acc. induction rows as [|r rows IH]; intros acc Hin Hl Hw.
  - by apply elem_of_nil in Hin.
  - simpl. apply elem_of_cons in Hin as [<-|Hin].
    + rewrite Hl, Hw. eauto.
    + destruct (lookup r) as [t'|]; [|eauto].
      destruct (window (rise_time t') (set_time t')) as [[s e]|]; [|eauto].
      case_match; eapply IH; eauto.
Qed.

Lemma window_day_target tr ts :
  tr > sun_rise_time -> ts <= sun_set_time -> window tr ts = None.
Proof.
  intros H1 H2. unfold ReconParser.window.
  destruct (Z.gtb_spec tr sun_rise_time); [|lia].
  destruct (Z.gtb_spec ts sun_set_time); [lia|done].
Qed.

(** A target that rises at the very second of sunset or of sunrise takes
    none of the branches of lines 280-300. *)
Lemma window_tie tr ts :
  sun_set_time <= tr <= sun_rise_time ->
  tr = sun_set_time \/ tr = sun_rise_time -> window tr ts = None.
Proof.
  intros Hnight Htie. unfold ReconParser.window.
  destruct (Z.gtb_spec tr sun_rise_time); [lia|].
  destruct (Z.ltb_spec tr sun_set_time); [lia|].
  destruct (Z.ltb_spec sun_set_time tr), (Z.ltb_spec tr sun_rise_time); simpl; (done || lia).
Qed.

Lemma rows_loop_app rows1 rows2 acc :
  rows_loop (rows1 ++ rows2) acc =
    match rows_loop rows1 acc with
    | inl e => inl e
    | inr good_targets => rows_loop rows2 good_targets
    end.
Proof.
  revert acc. induction rows1 as [|r rows1 IH]; intros acc; simpl; [done|].
  destruct (lookup r) as [t|]; [|done].
  destruct (window (rise_time t) (set_time t)) as [[s e]|]; [|done].
  by case_match.
Qed.

Lemma window_orderings tr ts :
  (tr > sun_rise_time -> ts > sun_set_time ->
     window tr ts = Some (sun_set_time, Z.min ts sun_rise_time)) /\
  (tr <= sun_rise_time -> tr < sun_set_time ->
     window tr ts = Some (sun_set_time, Z.min ts sun_rise_time)) /\
  (sun_set_time < tr < sun_rise_time ->
     window tr ts = Some (tr, Z.min ts sun_rise_time)).
Proof.
  unfold ReconParser.window.
  assert (Hend : (if ts <? sun_rise_time then ts else sun_rise_time)
                 = Z.min ts sun_rise_time).
  { destruct (Z.ltb_spec ts sun_rise_time); lia. }
  rewrite !Hend. split; [|split].
  - intros H1 H2.
    destruct (Z.gtb_spec tr sun_rise_time); [|lia].
    destruct (Z.gtb_spec ts sun_set_time); [done|lia].
  - intros H1 H2.
    destruct (Z.gtb_spec tr sun_rise_time); [lia|].
    destruct (Z.ltb_spec tr sun_set_time); [done|lia].
  - intros [H1 H2].
    destruct (Z.gtb_spec tr sun_rise_time); [lia|].
    destruct (Z.ltb_spec tr sun_set_time); [lia|].
    destruct (Z.ltb_spec sun_set_time tr); [|lia].
    destruct (Z.ltb_spec tr sun_rise_time); [done|lia].
Qed.

End ReconFacts.

(** ** Lists, sets and sorting *)

Section ListFacts.

Lemma foldr_add_acc (l : list Z) (a : Z) :
  foldr Z.add a l = (foldr Z.add 0 l + a)%Z.
Proof. induction l as [|x l IH]; simpl; lia. Qed.

Lemma size_list_to_set_le (l : list string) :
  size (list_to_set (C:=gset string) l) <= length l.
Proof.
  induction l as [|x l IH]; simpl; [done|].
  rewrite size_union_alt, size_singleton.
  assert (Hs : size (list_to_set (C:=gset string) l ∖ {[x]}) <= size (list_to_set (C:=gset string) l)).
  { apply subseteq_size. set_solver. }
  lia.
Qed.

Lemma size_list_to_set_NoDup (l : list string) :
  size (list_to_set (C:=gset string) l) = length l <-> NoDup l.
Proof.
  split; [|apply size_list_to_set].
  induction l as [|x l IH]; simpl; [constructor|].
  intros Hsz. pose proof (size_list_to_set_le l) as Hle.
  destruct (decide (x ∈ l)) as [Hin|Hnin].
  - exfalso.
    assert (Heq : {[x]} ∪ list_to_set l =@{gset string} list_to_set l) by set_solver.
    rewrite Heq in Hsz. lia.
  - constructor; [done|]. apply IH.
    rewrite size_union, size_singleton in Hsz by set_solver. lia.
Qed.


(** Sorting a permutation of a list that is sorted, with no two of its
    elements equivalent, gives that list. *)
Lemma merge_sort_unique {A} (R : relation A) `{!RelDecision R, !Transitive R, !Total R}
    (l sorted : list A) :
  StronglySorted R sorted -> l ≡ₚ sorted ->
  (forall x y, x ∈ sorted -> y ∈ sorted -> R x y -> R y x -> x = y) ->
  merge_sort R l = sorted.
Proof.
  intros Hs Hp Hanti. symmetry. apply (StronglySorted_unique_strong R).
  - intros x y Hx Hy. apply Hanti; [done|].
    by rewrite merge_sort_Permutation, Hp in Hy.
  - done.
  - by apply StronglySorted_merge_sort.
  - by rewrite merge_sort_Permutation.
Qed.

#[global] Instance ph2_ra_le_trans : Transitive Ph2.ra_le.
Proof. intros x y z. unfold Ph2.ra_le. lra. Qed.
#[global] Instance ph2_ra_le_total : Total Ph2.ra_le.
Proof. intros x y. unfold Ph2.ra_le. lra. Qed.
End ListFacts.

(** ** Tokens *)

Section TokenFacts.







End TokenFacts.

(** ** The loop of [ph2.py] *)

Section Ph2Facts.
Import Selector Ph2.
Variable separation : SkyCoord -> SkyCoord -> R.
Variables runid qrunid : string.

#[local] Abbreviation ob_token_of := (ob_token_of qrunid).
#[local] Abbreviation og_token_of := (og_token_of runid qrunid).
#[local] Abbreviation load := (load qrunid).
#[local] Abbreviation scan := (scan separation).
#[local] Abbreviation pass := (pass separation runid qrunid).
#[local] Abbreviation while := (while separation runid qrunid).
#[local] Abbreviation main := (main separation runid qrunid).

(** *** The tables built from the target files *)

Lemma load_snoc targets target :
  load (targets ++ [target]) = load_target qrunid (load targets) target.
Proof. unfold Ph2.load. by rewrite foldl_app. Qed.

Lemma ob_tokens_load targets : ob_tokens (load targets) = ob_token_of <$> targets.
Proof.
  induction targets as [|t ts IH] using rev_ind; [done|].
  rewrite load_snoc, fmap_app. simpl. by rewrite IH.
Qed.

Lemma dom_ob_coordinate_load targets :
  dom (ob_coordinate (load targets)) = list_to_set (ob_tokens (load targets)).
Proof.
  induction targets as [|t ts IH] using rev_ind; [cbn; by rewrite dom_empty_L|].
  rewrite load_snoc. simpl. rewrite dom_insert_L, IH, list_to_set_app_L. set_solver.
Qed.

Lemma dom_mags_load targets :
  dom (mags (load targets)) = list_to_set (ob_tokens (load targets)).
Proof.
  induction targets as [|t ts IH] using rev_ind; [cbn; by rewrite dom_empty_L|].
  rewrite load_snoc. simpl. rewrite dom_insert_L, IH, list_to_set_app_L. set_solver.
Qed.

Lemma load_well_formed targets : well_formed (load targets).
Proof. split; [apply dom_ob_coordinate_load|apply dom_mags_load]. Qed.

(** *** The sorted keys *)

Lemma order_tokens_Permutation tb :
  order_tokens tb ≡ₚ (map_to_list (ob_coordinate tb)).*1.
Proof. unfold order_tokens. by rewrite merge_sort_Permutation. Qed.

Lemma order_tokens_NoDup tb : NoDup (order_tokens tb).
Proof. rewrite order_tokens_Permutation. apply NoDup_fst_map_to_list. Qed.

Lemma elem_of_order_tokens tb t :
  t ∈ order_tokens tb <-> t ∈ dom (ob_coordinate tb).
Proof.
  rewrite order_tokens_Permutation, elem_of_dom.
  rewrite list_elem_of_fmap. split.
  - intros [[k c] [-> Hin]]. apply elem_of_map_to_list in Hin. by eexists.
  - intros [c Hc]. exists (t, c). split; [done|]. by apply elem_of_map_to_list.
Qed.

Lemma length_order_tokens tb : length (order_tokens tb) = size (dom (ob_coordinate tb)).
Proof.
  rewrite order_tokens_Permutation, length_fmap, length_map_to_list. by rewrite size_dom.
Qed.

(** *** One scan of the sorted keys *)

Hypothesis separation_self : forall c, separation c c = 0%R.

Section Scan.
Variable tb : Tables.

#[local] Abbreviation fresh := {| og_coord := None; og_itime := 0; og := [] |}.

Lemma ph2_scan_all_scheduled tokens p scheduled :
  Forall (.∈ scheduled) tokens -> scan tb tokens p scheduled = Some (p, scheduled).
Proof.
  induction 1 as [|t ts Ht _ IH]; simpl; [done|]. by rewrite decide_True.
Qed.

Lemma ph2_scan_first_unscheduled l1 t l2 scheduled c m e :
  Forall (.∈ scheduled) l1 -> t ∉ scheduled ->
  ob_coordinate tb !! t = Some c -> mags tb !! t = Some m -> exposure_time m = Some e ->
  scan tb (l1 ++ t :: l2) fresh scheduled =
    Some ({| og_coord := Some c; og_itime := e + 40; og := [t] |}, {[t]} ∪ scheduled).
Proof.
  intros Hl1 Ht Hc Hm He. induction Hl1 as [|t' ts Ht' _ IH]; simpl.
  - rewrite decide_False by done. rewrite Hc. simpl.
    rewrite decide_False by (rewrite separation_self; lra).
    rewrite Hm. simpl. rewrite He. simpl. by case_decide.
  - by rewrite decide_True.
Qed.

Hypothesis tb_well_formed : well_formed tb.

Lemma order_tokens_lookup k t :
  order_tokens tb !! k = Some t ->
  exists c m e, ob_coordinate tb !! t = Some c /\ mags tb !! t = Some m /\
                exposure_time m = Some e.
Proof.
  intros Hk. apply list_elem_of_lookup_2 in Hk.
  apply elem_of_order_tokens in Hk.
  destruct tb_well_formed as [Hc Hm].
  assert (Hk' : t ∈ dom (mags tb)) by (by rewrite Hm, <-Hc).
  apply elem_of_dom in Hk as [c Hc'], Hk' as [m Hm'].
  destruct (exposure_time_total m) as (e & He & _). by exists c, m, e.
Qed.

Lemma ph2_scan_after k :
  scan tb (order_tokens tb) fresh (list_to_set (take k (order_tokens tb))) =
    Some ({| og_coord := (order_tokens tb !! k) ≫= (ob_coordinate tb !!.);
             og_itime := itime tb k;
             og := members tb k |},
          list_to_set (take (S k) (order_tokens tb))).
Proof.
  unfold itime, members.
  destruct (order_tokens tb !! k) as [t|] eqn:Hk; simpl.
  - destruct (order_tokens_lookup _ _ Hk) as (c & m & e & Hc & Hm & He).
    rewrite <-(take_drop_middle _ _ _ Hk) at 1.
    rewrite (ph2_scan_first_unscheduled _ _ _ _ c m e); try done.
    + rewrite (take_S_r _ _ _ Hk), list_to_set_app_L. simpl.
      rewrite Hc. unfold duration_of. rewrite Hm. simpl. rewrite He. simpl.
      do 2 f_equal. set_solver.
    + apply Forall_forall. intros x Hx. by apply elem_of_list_to_set.
    + rewrite elem_of_list_to_set. intros Hin.
      pose proof (order_tokens_NoDup tb) as Hnd.
      rewrite <-(take_drop_middle _ _ _ Hk) in Hnd.
      apply NoDup_app in Hnd as (_ & Hnd & _). apply (Hnd _ Hin). left.
  - apply lookup_ge_None in Hk.
    rewrite !take_ge by lia.
    apply ph2_scan_all_scheduled, Forall_forall. intros x Hx. by apply elem_of_list_to_set.
Qed.

Lemma ph2_pass_state_after k :
  pass tb (state_after runid qrunid tb k) = Some (state_after runid qrunid tb (S k)).
Proof.
  unfold Ph2.pass, state_after. cbn [scheduled og_idx total_itime observing_groups stdout].
  rewrite ph2_scan_after. cbn [mbind option_bind og_itime og].
  rewrite !seq_S, !fmap_app, foldr_app, join_app.
  cbn [fmap list_fmap foldr mjoin list_join Nat.add].
  rewrite app_nil_r, (foldr_add_acc _ (itime tb k + 0)). unfold copies, nrepeats.
  do 2 f_equal. lia.
Qed.

(** The [while] condition after [k] passes. *)
Lemma ph2_size_scheduled_after k :
  size (scheduled (state_after runid qrunid tb k)) = k `min` length (order_tokens tb).
Proof.
  cbn. rewrite size_list_to_set, length_take; [done|].
  pose proof (order_tokens_NoDup tb) as Hnd.
  rewrite <-(take_drop k) in Hnd. by apply NoDup_app in Hnd as [? _].
Qed.

Lemma ph2_initial_state_after : initial = state_after runid qrunid tb 0.
Proof. reflexivity. Qed.

Lemma length_order_tokens_le : length (order_tokens tb) <= length (ob_tokens tb).
Proof.
  rewrite length_order_tokens. destruct tb_well_formed as [-> _].
  apply size_list_to_set_le.
Qed.

Lemma ph2_while_running fuel k :
  length (order_tokens tb) < length (ob_tokens tb) ->
  while tb fuel (state_after runid qrunid tb k) =
    Running (state_after runid qrunid tb (k + fuel)).
Proof.
  intros Hlt. revert k. induction fuel as [|fuel IH]; intros k.
  - cbn [Ph2.while]. rewrite ph2_size_scheduled_after, decide_True by lia.
    by rewrite Nat.add_0_r.
  - cbn [Ph2.while]. rewrite ph2_size_scheduled_after, decide_True by lia.
    rewrite ph2_pass_state_after, IH. do 2 f_equal. lia.
Qed.

Lemma ph2_while_short fuel k :
  k + fuel < length (ob_tokens tb) ->
  length (order_tokens tb) = length (ob_tokens tb) ->
  while tb fuel (state_after runid qrunid tb k) =
    Running (state_after runid qrunid tb (k + fuel)).
Proof.
  intros Hlt Hn. revert k Hlt. induction fuel as [|fuel IH]; intros k Hlt.
  - cbn [Ph2.while]. rewrite ph2_size_scheduled_after, decide_True by lia.
    by rewrite Nat.add_0_r.
  - cbn [Ph2.while]. rewrite ph2_size_scheduled_after, decide_True by lia.
    rewrite ph2_pass_state_after, IH by lia. do 2 f_equal. lia.
Qed.

Lemma ph2_while_done fuel k :
  k <= length (ob_tokens tb) <= k + fuel ->
  length (order_tokens tb) = length (ob_tokens tb) ->
  while tb fuel (state_after runid qrunid tb k) =
    Done (state_after runid qrunid tb (length (ob_tokens tb))).
Proof.
  intros Hk Hn. revert k Hk. induction fuel as [|fuel IH]; intros k Hk.
  - cbn [Ph2.while]. rewrite ph2_size_scheduled_after, decide_False by lia.
    do 2 f_equal. lia.
  - cbn [Ph2.while]. rewrite ph2_size_scheduled_after.
    destruct (decide (k = length (ob_tokens tb))) as [->|Hne].
    + by rewrite decide_False by lia.
    + rewrite decide_True by lia. rewrite ph2_pass_state_after. apply IH. lia.
Qed.

End Scan.

(** *** The whole run *)

Lemma NoDup_ob_tokens targets :
  NoDup (ob_tokens (load targets)) <-> NoDup (token <$> targets).
Proof.
  rewrite ob_tokens_load.
  set (f := λ tok : string, "OB-" +:+ qrunid +:+ "-" +:+ tok).
  assert (Hf : Inj (=) (=) f).
  { intros x y Hxy. unfold f in Hxy. by do 3 apply (inj (String.app _)) in Hxy. }
  change (ob_token_of <$> targets) with ((f ∘ token) <$> targets).
  rewrite (list_fmap_compose token f). apply (NoDup_fmap f).
Qed.

Lemma length_order_tokens_NoDup targets :
  length (order_tokens (load targets)) = length (ob_tokens (load targets)) <->
  NoDup (token <$> targets).
Proof.
  rewrite length_order_tokens, dom_ob_coordinate_load, size_list_to_set_NoDup.
  apply NoDup_ob_tokens.
Qed.

Lemma main_done targets fuel :
  NoDup (token <$> targets) -> length targets <= fuel ->
  main fuel targets =
    Done (state_after runid qrunid (load targets) (length targets)).
Proof.
  intros Hnd Hfuel. unfold Ph2.main.
  assert (Hlen : length (ob_tokens (load targets)) = length targets).
  { by rewrite ob_tokens_load, length_fmap. }
  rewrite (ph2_initial_state_after (load targets)), ph2_while_done.
  - by rewrite Hlen.
  - apply load_well_formed.
  - lia.
  - by apply length_order_tokens_NoDup.
Qed.

Lemma main_running targets fuel :
  ~ NoDup (token <$> targets) \/ fuel < length targets ->
  main fuel targets = Running (state_after runid qrunid (load targets) fuel).
Proof.
  intros Hcase. unfold Ph2.main. rewrite (ph2_initial_state_after (load targets)).
  pose proof (length_order_tokens_le (load targets) (load_well_formed targets)) as Hle.
  destruct (decide (length (order_tokens (load targets)) =
                    length (ob_tokens (load targets)))) as [Heq|Hne].
  - destruct Hcase as [Hdup|Hfuel].
    + by apply length_order_tokens_NoDup in Heq.
    + apply (ph2_while_short _ (load_well_formed targets)); [|done].
      rewrite ob_tokens_load, length_fmap. lia.
  - apply (ph2_while_running _ (load_well_formed targets)). lia.
Qed.

Lemma main_reaches targets fuel :
  exists k,
    main fuel targets = Done (state_after runid qrunid (load targets) k) \/
    main fuel targets = Running (state_after runid qrunid (load targets) k).
Proof.
  destruct (decide (NoDup (token <$> targets))) as [Hnd|Hdup].
  - destruct (decide (length targets <= fuel)).
    + eexists. left. by apply main_done.
    + eexists. right. apply main_running. right. lia.
  - eexists. right. apply main_running. by left.
Qed.

(** *** What every reachable state holds *)

Lemma itime_bounds tb k : (0 <= itime tb k <= 540)%Z.
Proof.
  unfold itime, duration_of. destruct (order_tokens tb !! k) as [t|]; simpl; [|lia].
  destruct (mags tb !! t) as [m|]; simpl; [|lia].
  destruct (exposure_time_total m) as (e & -> & He). simpl. lia.
Qed.

Lemma main_reachable targets fuel st :
  main fuel targets = Done st \/ main fuel targets = Running st ->
  exists k, st = state_after runid qrunid (load targets) k.
Proof.
  destruct (main_reaches targets fuel) as [k [Hk|Hk]]; rewrite Hk;
    intros [[= <-]|[= <-]]; by exists k.
Qed.


Lemma copies_repeats og_idx og :
  copies runid qrunid og_idx og =
    (λ repeat, {| client_token := og_token_of og_idx repeat;
                  observing_block_identifiers := og |}) <$> seq 0 (S nrepeats).
Proof. reflexivity. Qed.



Lemma members_cases tb k :
  (members tb k = [] /\ itime tb k = 0%Z) \/
  (exists t, order_tokens tb !! k = Some t /\ members tb k = [t] /\
             itime tb k = duration_of tb t).
Proof.
  unfold members, itime. destruct (order_tokens tb !! k) as [t|]; [right|left]; eauto.
Qed.

Lemma itime_group_duration tb k : itime tb k = group_duration tb (members tb k).
Proof.
  destruct (members_cases tb k) as [[-> ->]|(t & _ & -> & ->)]; [done|].
  unfold group_duration. simpl. lia.
Qed.

Lemma elem_of_observing_groups tb k g :
  g ∈ observing_groups (state_after runid qrunid tb k) ->
  exists i, i < k /\ observing_block_identifiers g = members tb i.
Proof.
  cbn [observing_groups state_after]. intros Hg.
  apply list_elem_of_join in Hg as (row & Hg & Hrow).
  apply list_elem_of_fmap in Hrow as (i & -> & Hi).
  apply elem_of_seq in Hi. exists i. split; [lia|].
  rewrite copies_repeats in Hg. by apply list_elem_of_fmap in Hg as (r & -> & _).
Qed.

Lemma elem_of_stdout tb k line :
  line ∈ stdout (state_after runid qrunid tb k) ->
  exists i, i < k /\ line = (og_token_of (S i) 0, itime tb i).
Proof.
  cbn [stdout state_after]. intros Hl.
  apply list_elem_of_fmap in Hl as (i & -> & Hi).
  apply elem_of_seq in Hi. exists i. split; [lia|done].
Qed.

Lemma first_copy_emitted tb k i :
  i < k ->
  {| client_token := og_token_of (S i) 0;
     observing_block_identifiers := members tb i |}
    ∈ observing_groups (state_after runid qrunid tb k).
Proof.
  intros Hi. cbn [observing_groups state_after].
  apply list_elem_of_join. exists (copies runid qrunid (S i) (members tb i)).
  split; [left|]. apply list_elem_of_fmap. exists i. split; [done|].
  apply elem_of_seq. lia.
Qed.

Lemma join_members tb :
  mjoin (members tb <$> seq 0 (length (order_tokens tb))) = order_tokens tb.
Proof.
  unfold members. induction (order_tokens tb) as [|t l IH] using rev_ind; [done|].
  rewrite length_app, seq_app, fmap_app, join_app. simpl.
  rewrite lookup_app_r, Nat.sub_diag by lia. simpl. f_equal.
  rewrite <-IH at 2. f_equal. apply list_fmap_ext. intros i k Hk.
  apply lookup_seq in Hk as [-> Hk]. simpl. by rewrite lookup_app_l.
Qed.







End Ph2Facts.

(** ** The loop of [create_cfht_observations.py] *)

Section CreateCfhtFacts.
Import Selector CreateCfht.
Variable separation : SkyCoord -> SkyCoord -> R.
Variable qrunid : string.
Variable generate_observing_group_token : string -> string.
Variable observing_template_by_exptime : gmap Z string.

#[local] Abbreviation scan := (scan separation observing_template_by_exptime).
#[local] Abbreviation pass :=
  (pass separation qrunid generate_observing_group_token observing_template_by_exptime).
#[local] Abbreviation while :=
  (while separation qrunid generate_observing_group_token observing_template_by_exptime).
#[local] Abbreviation execute :=
  (execute separation qrunid generate_observing_group_token observing_template_by_exptime).
#[local] Abbreviation has_template := (has_template observing_template_by_exptime).
#[local] Abbreviation state_after :=
  (state_after qrunid generate_observing_group_token observing_template_by_exptime).
#[local] Abbreviation copies := (copies qrunid generate_observing_group_token).
#[local] Abbreviation component_of := (component_of observing_template_by_exptime).
#[local] Abbreviation group := (group observing_template_by_exptime).
#[local] Abbreviation fresh :=
  {| og_coord := None; og_itime := 0; observing_group := {| observing_component := [] |} |}.

Hypothesis separation_self : forall c, separation c c = 0%R.

Lemma persist_repeats og_idx p st :
  foldl (persist_repeat qrunid generate_observing_group_token og_idx p) st (seq 0 3) =
    {| total_itime := total_itime st + 3 * og_itime p;
       scheduled := scheduled st;
       og_idx := CreateCfht.og_idx st;
       persisted := persisted st ++ copies og_idx (observing_group p);
       stdout := stdout st ++ copies og_idx (og_itime p) |}.
Proof.
  unfold persist_repeat, CreateCfht.copies. simpl.
  rewrite <-!(assoc_L (++)). simpl. f_equal. lia.
Qed.

Lemma pass_unfold tbr st :
  pass tbr st =
    '(p, scheduled') ← scan tbr fresh (scheduled st);
    Some {| total_itime := total_itime st + 3 * og_itime p;
            scheduled := scheduled';
            og_idx := S (og_idx st);
            persisted := persisted st ++ copies (S (og_idx st)) (observing_group p);
            stdout := stdout st ++ copies (S (og_idx st)) (og_itime p) |}.
Proof.
  unfold CreateCfht.pass.
  destruct (scan tbr fresh (scheduled st)) as [[p sch]|]; [|done].
  cbn [mbind option_bind]. by rewrite persist_repeats.
Qed.

Lemma cfht_scan_all_scheduled targets p scheduled :
  Forall (λ t, token t ∈ scheduled) targets -> scan targets p scheduled = Some (p, scheduled).
Proof.
  induction 1 as [|t ts Ht _ IH]; simpl; [done|]. by rewrite decide_True.
Qed.

Lemma has_template_inv target :
  has_template target ->
  exists e tpl, exposure_time (magnitude target) = Some e /\
                observing_template_by_exptime !! e = Some tpl.
Proof.
  unfold CreateCfht.has_template. intros [tpl H].
  destruct (exposure_time (magnitude target)) as [e|]; [|done]. by exists e, tpl.
Qed.

Lemma cfht_scan_first_unscheduled l1 t l2 scheduled :
  Forall (λ t, token t ∈ scheduled) l1 -> token t ∉ scheduled -> has_template t ->
  scan (l1 ++ t :: l2) fresh scheduled =
    Some ({| og_coord := Some (coordinate t);
             og_itime := duration_of t;
             observing_group := {| observing_component := [component_of t] |} |},
          {[token t]} ∪ scheduled).
Proof.
  intros Hl1 Ht Hh. apply has_template_inv in Hh as (e & tpl & He & Htpl).
  induction Hl1 as [|t' ts Ht' _ IH]; simpl.
  - rewrite decide_False by done. 
    rewrite decide_False by (rewrite separation_self; lra).
    unfold duration_of, CreateCfht.component_of.
    rewrite He. simpl. rewrite Htpl. simpl. by case_decide.
  - by rewrite decide_True.
Qed.

(** Whatever the tokens are, a scan adds at most one target, its own anchor. *)
Lemma scan_cases targets scheduled p scheduled' :
  scan targets fresh scheduled = Some (p, scheduled') ->
  (p = fresh /\ scheduled' = scheduled) \/
  (exists t tpl e, t ∈ targets /\ (token t ∉ scheduled) /\
     exposure_time (magnitude t) = Some e /\
     p = {| og_coord := Some (coordinate t); og_itime := e;
            observing_group :=
              {| observing_component :=
                   [{| target_token := token t; observing_teplate_token := tpl |}] |} |} /\
     scheduled' = {[token t]} ∪ scheduled).
Proof.
  induction targets as [|t ts IH]; simpl.
  - intros [= <- <-]. by left.
  - case_decide as Hin.
    + intros Hs. apply IH in Hs as [?|(t' & tpl & e & ? & ?)]; [by left|right].
      exists t', tpl, e. split; [by right|done].
    + rewrite decide_False by (rewrite separation_self; lra).
      destruct (exposure_time (magnitude t)) as [e|] eqn:He; [|done]. simpl.
      destruct (observing_template_by_exptime !! e) as [tpl|]; [|done]. simpl.
      intros Hs. right. exists t, tpl, e. split; [by left|].
      case_decide; by simplify_eq.
Qed.

Section Loop.
Variable tbr : list Target.

(** **** Tokens that repeat: the loop cannot end *)

Lemma scan_scheduled_subseteq targets p scheduled p' scheduled' (all : gset string) :
  scan targets p scheduled = Some (p', scheduled') ->
  scheduled ⊆ all -> list_to_set (token <$> targets) ⊆ all -> scheduled' ⊆ all.
Proof.
  clear separation_self.
  revert p. induction targets as [|t ts IH]; intros p; simpl.
  - by intros [= <- <-].
  - intros Hs Hsub Hall. repeat case_match; simplify_option_eq; try done.
    all: try (eapply IH; [done..|set_solver]).
    all: set_solver.
Qed.

Lemma while_not_done fuel st st' :
  ~ NoDup (token <$> tbr) ->
  scheduled st ⊆ list_to_set (token <$> tbr) ->
  while tbr fuel st <> Done st'.
Proof.
  intros Hdup. revert st. induction fuel as [|fuel IH]; intros st Hsub; simpl.
  all: assert (Hlt : size (scheduled st) < length tbr).
  all: try (pose proof (size_list_to_set_le (token <$> tbr)) as Hle;
            rewrite length_fmap in Hle;
            pose proof (subseteq_size _ _ Hsub) as Hsz;
            assert (size (list_to_set (C:=gset string) (token <$> tbr)) <> length tbr);
            [rewrite <-(length_fmap token tbr); by rewrite size_list_to_set_NoDup|lia]).
  - by rewrite decide_True.
  - rewrite decide_True by done.
    destruct (pass tbr st) as [st1|] eqn:Hp; [|done].
    apply IH. rewrite pass_unfold in Hp.
    destruct (scan tbr _ (scheduled st)) as [[p sch]|] eqn:Hs; [|done].
    simpl in Hp. injection Hp as <-. cbn.
    by eapply scan_scheduled_subseteq.
Qed.

(** **** What every pass emits *)

Lemma pass_emitted bs st st' :
  emitted qrunid generate_observing_group_token bs st ->
  pass tbr st = Some st' ->
  exists b, emitted qrunid generate_observing_group_token (bs ++ [b]) st' /\
            well_grouped tbr b.
Proof.
  intros (Hidx & Hp & Hs). rewrite pass_unfold.
  destruct (scan tbr fresh (scheduled st)) as [[p sch]|] eqn:Hscan; [|done].
  simpl. intros [= <-]. exists (observing_group p, og_itime p). split.
  - unfold emitted. cbn [og_idx persisted stdout].
    rewrite !imap_app, !join_app, length_app, Hidx, Hp, Hs. simpl.
    rewrite !Nat.add_0_r. split; [lia|done].
  - apply scan_cases in Hscan as [[-> _]|(t & tpl & e & Ht & _ & He & -> & _)].
    + by left.
    + right. by exists t, tpl, e.
Qed.

Lemma while_emitted fuel bs st st' :
  emitted qrunid generate_observing_group_token bs st ->
  Forall (well_grouped tbr) bs ->
  while tbr fuel st = Done st' \/ while tbr fuel st = Running st' ->
  exists bs', emitted qrunid generate_observing_group_token bs' st' /\
              Forall (well_grouped tbr) bs'.
Proof.
  revert bs st. induction fuel as [|fuel IH]; intros bs st Hem Hwg; simpl.
  - case_decide; intros [[= <-]|[= <-]]; eauto.
  - case_decide; [|intros [[= <-]|[= <-]]; eauto].
    destruct (pass tbr st) as [st1|] eqn:Hpass; [|by intros [|]].
    destruct (pass_emitted _ _ _ Hem Hpass) as (b & Hem' & Hb).
    apply (IH _ _ Hem'). apply Forall_app. by split; [|constructor].
Qed.

(** **** Distinct tokens: the closed form *)

Hypothesis tokens_NoDup : NoDup (token <$> tbr).
Hypothesis templates_configured : Forall has_template tbr.

Lemma cfht_scan_after k :
  scan tbr fresh (list_to_set (token <$> take k tbr)) =
    Some ({| og_coord := coordinate <$> tbr !! k;
             og_itime := itime tbr k;
             observing_group := group tbr k |},
          list_to_set (token <$> take (S k) tbr)).
Proof.
  unfold itime, CreateCfht.group.
  destruct (tbr !! k) as [t|] eqn:Hk; simpl.
  - rewrite <-(take_drop_middle _ _ _ Hk) at 1.
    rewrite cfht_scan_first_unscheduled.
    + rewrite (take_S_r _ _ _ Hk), fmap_app, list_to_set_app_L. simpl.
      do 2 f_equal. set_solver.
    + apply Forall_forall. intros x Hx. apply elem_of_list_to_set.
      by apply list_elem_of_fmap_2.
    + rewrite elem_of_list_to_set. intros Hin.
      pose proof tokens_NoDup as Hnd.
      rewrite <-(take_drop_middle _ _ _ Hk), fmap_app in Hnd.
      apply NoDup_app in Hnd as (_ & Hnd & _). apply (Hnd _ Hin). simpl. left.
    + rewrite Forall_forall in templates_configured.
      apply templates_configured. by eapply list_elem_of_lookup_2.
  - apply lookup_ge_None in Hk.
    rewrite !take_ge by lia.
    apply cfht_scan_all_scheduled, Forall_forall. intros x Hx.
    apply elem_of_list_to_set. by apply list_elem_of_fmap_2.
Qed.

Lemma cfht_scheduled_after_S k t :
  tbr !! k = Some t ->
  (token t ∉ scheduled (state_after tbr k)) /\
  scheduled (state_after tbr (S k)) = {[token t]} ∪ scheduled (state_after tbr k).
Proof.
  clear separation_self.
  intros Hk. cbn [scheduled CreateCfht.state_after]. split.
  - rewrite elem_of_list_to_set. intros Hin.
    pose proof tokens_NoDup as Hnd.
    rewrite <-(take_drop_middle _ _ _ Hk), fmap_app in Hnd.
    apply NoDup_app in Hnd as (_ & Hnd & _). apply (Hnd _ Hin). simpl. left.
  - rewrite (take_S_r _ _ _ Hk), fmap_app, list_to_set_app_L. simpl. set_solver.
Qed.

Lemma cfht_pass_state_after k :
  pass tbr (state_after tbr k) = Some (state_after tbr (S k)).
Proof.
  rewrite pass_unfold. unfold CreateCfht.state_after.
  cbn [scheduled og_idx total_itime persisted stdout].
  rewrite cfht_scan_after. cbn [mbind option_bind og_itime observing_group].
  rewrite !seq_S, !fmap_app, foldr_app, !join_app.
  cbn [fmap list_fmap foldr mjoin list_join Nat.add].
  rewrite !app_nil_r, (foldr_add_acc _ (itime tbr k + 0)).
  do 2 f_equal. lia.
Qed.

Lemma cfht_size_scheduled_after k :
  size (scheduled (state_after tbr k)) = k `min` length tbr.
Proof.
  cbn. rewrite size_list_to_set, length_fmap, length_take; [done|].
  pose proof tokens_NoDup as Hnd.
  rewrite <-(take_drop k tbr), fmap_app in Hnd. by apply NoDup_app in Hnd as [? _].
Qed.


Lemma cfht_while_short fuel k :
  k + fuel < length tbr ->
  while tbr fuel (state_after tbr k) = Running (state_after tbr (k + fuel)).
Proof.
  revert k. induction fuel as [|fuel IH]; intros k Hlt.
  - cbn [CreateCfht.while]. rewrite cfht_size_scheduled_after, decide_True by lia.
    by rewrite Nat.add_0_r.
  - cbn [CreateCfht.while]. rewrite cfht_size_scheduled_after, decide_True by lia.
    rewrite cfht_pass_state_after, IH by lia. do 2 f_equal. lia.
Qed.


End Loop.

(** *** The whole run *)

(** The sort returns a list of at most one target, and raises on any other. *)
Lemma targets_by_ra_Some targets tbr :
  targets_by_ra targets = Some tbr <-> tbr = targets /\ length targets <= 1.
Proof.
  destruct targets as [|t [|t' targets]]; simpl; split;
    try (intros [= <-]; split; [done|lia]); try (by intros [-> _]); try done.
  intros [_ ?]. lia.
Qed.

Lemma targets_by_ra_None targets :
  targets_by_ra targets = None <-> 2 <= length targets.
Proof. destruct targets as [|t [|t' targets]]; simpl; split; (done || lia). Qed.

Lemma cfht_execute_no_template targets fuel :
  ~ Forall has_template targets -> execute fuel targets = Raised NoTemplate.
Proof. intros Ht. unfold CreateCfht.execute. by rewrite decide_False. Qed.

Lemma cfht_execute_raises targets fuel :
  Forall has_template targets -> 2 <= length targets ->
  execute fuel targets = Raised TypeError.
Proof.
  intros Ht Hlen. unfold CreateCfht.execute. rewrite decide_True by done.
  by rewrite (proj2 (targets_by_ra_None targets) Hlen).
Qed.



Lemma cfht_execute_reached targets fuel st :
  execute fuel targets = Done st \/ execute fuel targets = Running st ->
  length targets <= 1 /\
  (while targets fuel initial = Done st \/ while targets fuel initial = Running st).
Proof.
  unfold CreateCfht.execute. case_decide; [|by intros [|]].
  destruct (targets_by_ra targets) as [tbr|] eqn:Hs; [|by intros [|]].
  apply targets_by_ra_Some in Hs as [-> ?]. done.
Qed.

Lemma cfht_execute_emitted targets fuel st :
  execute fuel targets = Done st \/ execute fuel targets = Running st ->
  exists bs, emitted qrunid generate_observing_group_token bs st /\
             Forall (well_grouped targets) bs.
Proof.
  intros Hrun. apply cfht_execute_reached in Hrun as [_ Hrun]. revert Hrun.
  apply (while_emitted _ _ []); [|constructor]. by repeat split.
Qed.

Lemma emitted_persisted bs st g :
  emitted qrunid generate_observing_group_token bs st ->
  g ∈ (persisted st).*2 -> exists b, b ∈ bs /\ g = b.1.
Proof.
  intros (_ & -> & _) Hg.
  apply list_elem_of_fmap in Hg as ([tok g'] & -> & Hg).
  apply list_elem_of_join in Hg as (row & Hg & Hrow).
  apply elem_of_lookup_imap in Hrow as (i & b & -> & Hb).
  apply list_elem_of_fmap in Hg as (r & [= _ ->] & _).
  exists b. split; [by eapply list_elem_of_lookup_2|done].
Qed.

Lemma emitted_stdout bs st line :
  emitted qrunid generate_observing_group_token bs st ->
  line ∈ stdout st -> exists b, b ∈ bs /\ line.2 = b.2.
Proof.
  intros (_ & _ & ->) Hl.
  apply list_elem_of_join in Hl as (row & Hl & Hrow).
  apply elem_of_lookup_imap in Hrow as (i & b & -> & Hb).
  apply list_elem_of_fmap in Hl as (r & -> & _).
  exists b. split; [by eapply list_elem_of_lookup_2|done].
Qed.

Lemma well_grouped_bounds tbr b :
  well_grouped tbr b ->
  (0 <= b.2 <= 500)%Z /\
  forall anchor member,
    head (observing_component b.1) = Some anchor ->
    member ∈ observing_component b.1 ->
    exists ta tm, ta ∈ tbr /\ tm ∈ tbr /\
      token ta = target_token anchor /\ token tm = target_token member /\
      (separation (coordinate tm) (coordinate ta) <= 10)%R.
Proof.
  intros [[-> ->]|(t & tpl & e & Ht & He & -> & ->)].
  - split; [lia|]. intros a m Ha. done.
  - destruct (exposure_time_total (magnitude t)) as (e' & He' & Hb).
    rewrite He in He'. injection He' as <-. split; [lia|].
    intros a m [= <-] Hm. apply list_elem_of_singleton in Hm as ->.
    exists t, t. repeat split; try done. rewrite separation_self. lra.
Qed.

(** *** Names and tokens of the groups *)




End CreateCfhtFacts.

(** ** The end-to-end scenario *)

Section ScenarioFacts.
Import Selector Examples.
Variable separation : SkyCoord -> SkyCoord -> R.
Variables runid qrunid : string.
Hypothesis separation_self : forall c, separation c c = 0%R.

#[local] Abbreviation ob := (Ph2.ob_token_of qrunid).

Lemma ob_ne x y : Ph2.token x <> Ph2.token y -> ob x <> ob y.
Proof.
  intros Hne Heq. unfold Ph2.ob_token_of in Heq.
  by do 3 apply (inj (String.app _)) in Heq.
Qed.

Lemma ph2_scenario_order :
  Ph2.order_tokens (Ph2.load qrunid ph2_scenario) = [ob target_a; ob target_b; ob target_c].
Proof.
  unfold Ph2.order_tokens.
  rewrite (merge_sort_unique Ph2.ra_le _
             [(ob target_a, at_ra 10); (ob target_b, at_ra 12); (ob target_c, at_ra 200)]); [done|..].
  - repeat constructor; unfold Ph2.ra_le; simpl; lra.
  - cbn. rewrite !map_to_list_insert, map_to_list_empty.
    + by rewrite (Permutation_swap _ _ [(ob target_a, at_ra 10)]),
        (Permutation_swap _ _ []), (Permutation_swap _ _ [(ob target_c, at_ra 200)]).
    + done.
    + rewrite lookup_insert_ne by (by apply ob_ne). done.
    + rewrite !lookup_insert_ne by (by apply ob_ne). done.
  - intros x y Hx Hy. unfold Ph2.ra_le.
    repeat (apply elem_of_cons in Hx as [->|Hx]); [..|by apply elem_of_nil in Hx];
    repeat (apply elem_of_cons in Hy as [->|Hy]); try (by apply elem_of_nil in Hy);
    simpl; intros; try done; lra.
Qed.

Lemma ph2_scenario_mags :
  Ph2.mags (Ph2.load qrunid ph2_scenario) !! ob target_a = Some 22%R /\
  Ph2.mags (Ph2.load qrunid ph2_scenario) !! ob target_b = Some 24.5%R /\
  Ph2.mags (Ph2.load qrunid ph2_scenario) !! ob target_c = Some 26%R.
Proof.
  cbn. repeat split.
  - rewrite !lookup_insert_ne by (by apply ob_ne). apply lookup_insert_eq.
  - rewrite lookup_insert_ne by (by apply ob_ne). apply lookup_insert_eq.
  - apply lookup_insert_eq.
Qed.

Lemma exposure_time_22 : exposure_time 22 = Some 80%Z.
Proof.
  apply exposure_time_bright, exact_exptime_bright. rewrite ideal_exptime_22. lra.
Qed.

Lemma exposure_time_26 : exposure_time 26 = Some 500%Z.
Proof. apply exposure_time_faint, exact_exptime_faint, ideal_exptime_26. Qed.

Lemma exposure_time_24_5 : exposure_time 24.5 = Some 340%Z.
Proof. apply exposure_time_reference. Qed.

Lemma ph2_scenario_run :
  Ph2.main separation runid qrunid 3 ph2_scenario =
    Ph2.Done
      {| Ph2.total_itime := 3120;
         Ph2.scheduled := {[ob target_a; ob target_b; ob target_c]};
         Ph2.og_idx := 3;
         Ph2.observing_groups :=
           Ph2.copies runid qrunid 1 [ob target_a] ++ Ph2.copies runid qrunid 2 [ob target_b]
           ++ Ph2.copies runid qrunid 3 [ob target_c];
         Ph2.stdout :=
           [(Ph2.og_token_of runid qrunid 1 0, 120%Z);
            (Ph2.og_token_of runid qrunid 2 0, 380%Z);
            (Ph2.og_token_of runid qrunid 3 0, 540%Z)] |}.
Proof.
  rewrite main_done; [|done|..]; cycle 1.
  { cbn. repeat constructor; set_solver. }
  { simpl. lia. }
  unfold Ph2.state_after, Ph2.members, Ph2.itime, Ph2.duration_of.
  rewrite ph2_scenario_order.
  destruct ph2_scenario_mags as (Ha & Hb & Hc).
  cbn [length ph2_scenario seq fmap list_fmap lookup list_lookup from_option option_list
       mjoin list_join take foldr].
  rewrite Ha, Hb, Hc. cbn [mbind option_bind].
  rewrite exposure_time_22, exposure_time_24_5, exposure_time_26.
  cbn [default from_option id]. rewrite app_nil_r.
  do 2 f_equal. set_solver.
Qed.

End ScenarioFacts.

Section CfhtScenarioFacts.
Import Selector Examples.
Variable separation : SkyCoord -> SkyCoord -> R.
Variable qrunid : string.
Variable generate_observing_group_token : string -> string.
Hypothesis separation_self : forall c, separation c c = 0%R.

Lemma templates_lookup :
  templates !! 80%Z = Some "T80" /\ templates !! 340%Z = Some "T340" /\
  templates !! 500%Z = Some "T500".
Proof. by vm_compute. Qed.

Lemma cfht_scenario_templates :
  Forall (CreateCfht.has_template templates) cfht_scenario.
Proof.
  destruct templates_lookup as (H80 & H340 & H500).
  repeat constructor; unfold CreateCfht.has_template; simpl.
  - rewrite exposure_time_22. simpl. by rewrite H80.
  - rewrite exposure_time_24_5. simpl. by rewrite H340.
  - rewrite exposure_time_26. simpl. by rewrite H500.
Qed.

(** The three messages of the scenario are never scheduled: the sort raises. *)
Lemma cfht_scenario_run fuel :
  CreateCfht.execute separation qrunid generate_observing_group_token templates
                     fuel cfht_scenario = CreateCfht.Raised CreateCfht.TypeError.
Proof.
  apply cfht_execute_raises; [apply cfht_scenario_templates|simpl; lia].
Qed.


End CfhtScenarioFacts.

(** * The claims *)

Section SelectorClaims.
Import Selector.
Local Open Scope R_scope.

(** C4, as stated, fails: magnitude 22.0 has clamped ideal exposure 40 s, and
    the selector does not return the first bucket (40 s) for it. *)
Lemma selector_bright_not_first_bucket :
  ~ (exact_exptime 22 = 40 -> exposure_time 22 = Some 40%Z).
Proof.
  intros H.
  assert (Hx : exact_exptime 22 = 40).
  { apply exact_exptime_bright. rewrite ideal_exptime_22. lra. }
  destruct (exposure_time_bright 22 Hx) as [_ H80].
  specialize (H Hx). congruence.
Qed.

End SelectorClaims.

Section FloatSelectorClaims.
Import FloatSelector.
Local Open Scope R_scope.

(** C4, amended: with [-] and [/] correctly rounded and the special cases of
    Python's [**], magnitude 24.5 has clamped ideal exposure exactly 300 s
    and gets 340 s, the smallest bucket strictly above 300 s (index 7,
    configuration I8); whatever the arithmetic, a magnitude for which line
    24 computes a clamped ideal of 40 s gets the second bucket, 80 s (index
    1, I2), and one for which it computes 499 s gets the last bucket, 500 s
    (index 12, I13). *)
Theorem selector_boundaries (fl : Arithmetic) (mag : float) :
  (Exact fl -> PythonPow fl -> mag = Finite 24.5 ->
     exact_exptime fl mag = inr (Finite 300) /\
     exposure_time_index fl mag = inr 7%nat /\
     exposure_time fl mag = inr 340%Z /\
     instrument_configuration_identifier fl mag = inr "I8") /\
  (exact_exptime fl mag = inr (Finite 40) ->
     exposure_time_index fl mag = inr 1%nat /\
     exposure_time fl mag = inr 80%Z /\
     instrument_configuration_identifier fl mag = inr "I2") /\
  (exact_exptime fl mag = inr (Finite 499) ->
     exposure_time_index fl mag = inr 12%nat /\
     exposure_time fl mag = inr 500%Z /\
     instrument_configuration_identifier fl mag = inr "I13").
Proof.
  split; [|split].
  - intros Hexact Hpow ->.
    pose proof (float_exact_exptime_reference fl Hexact Hpow) as Hx.
    split; [done|].
    apply (float_exposure_time_at fl _ 300 7 Hx). by rewrite clamped_index_300.
  - intros Hx. apply (float_exposure_time_at fl _ 40 1 Hx). by rewrite clamped_index_40.
  - intros Hx. apply (float_exposure_time_at fl _ 499 12 Hx). by rewrite clamped_index_499.
Qed.

Lemma selector_boundaries_witness :
  exposure_time Unrounded.unrounded (Finite 24.5) = inr 340%Z /\
  exposure_time Unrounded.unrounded (Finite 22) = inr 80%Z /\
  exposure_time Unrounded.unrounded (Finite 26) = inr 500%Z.
Proof.
  split; [|split].
  - apply (selector_boundaries Unrounded.unrounded (Finite 24.5));
      [apply unrounded_Exact|apply unrounded_PythonPow|reflexivity].
  - apply (selector_boundaries Unrounded.unrounded (Finite 22)).
    rewrite unrounded_exact_exptime by lra. do 2 f_equal.
    apply exact_exptime_bright. rewrite ideal_exptime_22. lra.
  - apply (selector_boundaries Unrounded.unrounded (Finite 26)).
    rewrite unrounded_exact_exptime by lra. do 2 f_equal.
    apply exact_exptime_faint, ideal_exptime_26.
Defined.

(** C9: where rounding keeps the order, the selected exposure time is
    monotone in the magnitude: of two magnitudes for which the selector
    returns, the fainter one does not get the shorter exposure. *)
Theorem exposure_time_monotone (fl : Arithmetic) (m1 m2 : R) (e1 e2 : Z) :
  Monotone fl ->
  m1 < m2 ->
  exposure_time fl (Finite m1) = inr e1 ->
  exposure_time fl (Finite m2) = inr e2 ->
  (e1 <= e2)%Z.
Proof.
  intros Hmono Hm. apply (float_exposure_time_monotone fl Hmono). lra.
Qed.

Lemma exposure_time_monotone_witness :
  exposure_time Unrounded.unrounded (Finite 22) = inr 80%Z /\
  exposure_time Unrounded.unrounded (Finite 26) = inr 500%Z /\
  (80 <= 500)%Z.
Proof.
  assert (H22 : exposure_time Unrounded.unrounded (Finite 22) = inr 80%Z).
  { apply unrounded_exposure_time; [lra|].
    apply exposure_time_bright, exact_exptime_bright. rewrite ideal_exptime_22. lra. }
  assert (H26 : exposure_time Unrounded.unrounded (Finite 26) = inr 500%Z).
  { apply unrounded_exposure_time; [lra|].
    apply exposure_time_faint, exact_exptime_faint, ideal_exptime_26. }
  split; [done|]. split; [done|].
  apply (exposure_time_monotone Unrounded.unrounded 22 26 80 500 unrounded_Monotone);
    [lra|done..].
Defined.

(** C10, as stated, fails: at magnitude -975.5 the exponent of line 24 is
    400.0, and [10 ** 400.0] raises [OverflowError]: neither
    [exposure_time_index] nor [exposure_time] returns. *)
Lemma exposure_time_not_total :
  (forall fl, Exact fl -> PythonPow fl ->
     exposure_time_index fl (Finite (-975.5)) = inl OverflowError /\
     exposure_time fl (Finite (-975.5)) = inl OverflowError) /\
  exposure_time_index Unrounded.unrounded (Finite (-975.5)) = inl OverflowError /\
  exposure_time Unrounded.unrounded (Finite (-975.5)) = inl OverflowError.
Proof.
  assert (H : forall fl, Exact fl -> PythonPow fl ->
    exposure_time_index fl (Finite (-975.5)) = inl OverflowError /\
    exposure_time fl (Finite (-975.5)) = inl OverflowError).
  { intros fl Hexact Hpow.
    pose proof (float_ideal_exptime_overflow fl Hexact Hpow) as Hraise.
    split; [by apply float_exposure_time_index_inl|by apply float_exposure_time_inl]. }
  split; [done|]. apply H; [apply unrounded_Exact|apply unrounded_PythonPow].
Qed.

(** C10, amended: whenever [exposure_time_index] returns, its index lies in
    [1, 12], inside the 13-entry table, and [exposure_time] returns the
    entry there, between 80 and 500 seconds and never the first bucket, 40
    seconds; the two functions raise exactly what line 24 raises, which
    is [OverflowError] at magnitude -975.5 and [ZeroDivisionError] at
    magnitude 1024.5. *)
Theorem exposure_time_index_safe (fl : Arithmetic) (mag : float) :
  (forall i : nat, exposure_time_index fl mag = inr i ->
     (1 <= i <= 12)%nat /\ (i < length Selector.IC_exptimes)%nat /\
     exists v : Z,
       exposure_time fl mag = inr v /\ Selector.IC_exptimes !! i = Some v /\
       (80 <= v <= 500)%Z /\ v <> 40%Z) /\
  (forall e, exposure_time_index fl mag = inl e <-> ideal_exptime fl mag = inl e) /\
  (forall e, exposure_time fl mag = inl e <-> ideal_exptime fl mag = inl e) /\
  (Exact fl -> PythonPow fl ->
     exposure_time_index fl (Finite (-975.5)) = inl OverflowError /\
     exposure_time fl (Finite (-975.5)) = inl OverflowError /\
     exposure_time_index fl (Finite 1024.5) = inl ZeroDivisionError /\
     exposure_time fl (Finite 1024.5) = inl ZeroDivisionError).
Proof.
  split; [|split; [|split]].
  - intros i Hi. pose proof (float_exposure_time_index_range fl mag i Hi) as Hr.
    split; [done|]. split; [simpl; lia|].
    destruct (float_exposure_time_total fl mag i Hi) as (v & Hv & Hl & Hb).
    exists v. split; [done|]. split; [done|]. split; [done|lia].
  - apply float_exposure_time_index_inl.
  - apply float_exposure_time_inl.
  - intros Hexact Hpow.
    pose proof (float_ideal_exptime_overflow fl Hexact Hpow) as Hover.
    pose proof (float_ideal_exptime_zero_division fl Hexact Hpow) as Hzero.
    split; [by apply float_exposure_time_index_inl|].
    split; [by apply float_exposure_time_inl|].
    split; [by apply float_exposure_time_index_inl|by apply float_exposure_time_inl].
Qed.

Lemma exposure_time_index_safe_witness :
  exposure_time_index Unrounded.unrounded (Finite 24.5) = inr 7%nat /\
  exposure_time Unrounded.unrounded (Finite 24.5) = inr 340%Z /\
  exposure_time Unrounded.unrounded (Finite 1024.5) = inl ZeroDivisionError.
Proof.
  pose proof (exposure_time_index_safe Unrounded.unrounded (Finite 24.5))
    as (Hreturn & _ & _ & Hraise).
  assert (Hi : exposure_time_index Unrounded.unrounded (Finite 24.5) = inr 7%nat).
  { rewrite unrounded_exposure_time_index by lra. f_equal. apply exposure_time_reference. }
  destruct (Hreturn 7%nat Hi) as (_ & _ & v & Hv & [= <-] & _).
  split; [done|]. split; [done|].
  apply (Hraise unrounded_Exact unrounded_PythonPow).
Defined.

End FloatSelectorClaims.

Section ReconClaims.
Import ReconParser ReconExamples.
Local Open Scope Z_scope.

(** C2, as stated, fails: when the lookup of the second of three rows fails,
    the function returns no list of targets at all. *)
Lemma lookup_failure_loses_batch :
  catalogue "lost" = None /\
  ~ exists good_targets,
      parse_recon_table dusk dawn catalogue ["night"; "lost"; "brief"] = inr good_targets.
Proof. split; [reflexivity|]. intros [good H]. vm_compute in H. discriminate. Qed.

(** C2, amended: a failing Ephemeris Provider lookup is not caught. If the
    lookup fails for any row of the batch, [parse_recon_table] raises and
    returns no targets; when the rows before it went through, the exception
    raised is the lookup's own, whatever rows follow. *)
Theorem lookup_failure_aborts (sun_set_time sun_rise_time : Z)
    (lookup : string -> option FixedBody) (rows1 rows2 : list string) (row : string) :
  lookup row = None ->
  (exists e, parse_recon_table sun_set_time sun_rise_time lookup (rows1 ++ row :: rows2)
             = inl e) /\
  (forall good_targets,
     parse_recon_table sun_set_time sun_rise_time lookup rows1 = inr good_targets ->
     parse_recon_table sun_set_time sun_rise_time lookup (rows1 ++ row :: rows2)
     = inl HorizonsError).
Proof.
  intros Hl. split.
  - apply rows_loop_lookup_failure with row; [|done].
    apply elem_of_app. right. left.
  - intros good Hgood. unfold parse_recon_table in *.
    rewrite rows_loop_app, Hgood. simpl. by rewrite Hl.
Qed.

Lemma lookup_failure_aborts_witness :
  parse_recon_table dusk dawn catalogue (["night"] ++ "lost" :: ["brief"]) = inl HorizonsError.
Proof.
  apply (proj2 (lookup_failure_aborts dusk dawn catalogue ["night"] ["brief"] "lost"
                  eq_refl) [night_target]).
  vm_compute. reflexivity.
Defined.

(** C3, on the code: a target that rises after sunrise and sets no later than
    sunset gets no window ([start] and [end] stay [None]); the subtraction of
    line 302 then raises, and the batch returns no targets. The sibling loop of
    [build_et_files.py] gives this case an empty window instead. *)
Theorem no_window_raises (sun_set_time sun_rise_time : Z)
    (lookup : string -> option FixedBody) (rows1 rows2 : list string) (row : string)
    (target : FixedBody) :
  lookup row = Some target ->
  rise_time target > sun_rise_time -> set_time target <= sun_set_time ->
  window sun_set_time sun_rise_time (rise_time target) (set_time target) = None /\
  (exists e, parse_recon_table sun_set_time sun_rise_time lookup (rows1 ++ row :: rows2)
             = inl e) /\
  (forall good_targets,
     parse_recon_table sun_set_time sun_rise_time lookup rows1 = inr good_targets ->
     parse_recon_table sun_set_time sun_rise_time lookup (rows1 ++ row :: rows2)
     = inl TypeError).
Proof.
  intros Hl Hr Hs.
  pose proof (window_day_target sun_set_time sun_rise_time _ _ Hr Hs) as Hw.
  split; [done|]. split.
  - apply rows_loop_no_window with row target; [|done..].
    apply elem_of_app. right. left.
  - intros good Hgood. unfold parse_recon_table in *.
    rewrite rows_loop_app, Hgood. simpl. by rewrite Hl, Hw.
Qed.

Lemma no_window_raises_witness :
  parse_recon_table dusk dawn catalogue (["night"] ++ "day" :: ["brief"]) = inl TypeError.
Proof.
  assert (Hrise : rise_time day_target > dawn) by reflexivity.
  assert (Hset : set_time day_target <= dusk) by discriminate.
  apply (proj2 (proj2 (no_window_raises dusk dawn catalogue ["night"] ["brief"] "day"
                         day_target eq_refl Hrise Hset)) [night_target]).
  vm_compute. reflexivity.
Defined.

(** C5, on the code. When a call returns, every accepted target has a window
    of at least one hour with [start <= end], inside
    [sun_set_time, sun_rise_time], and no target with a shorter window is
    accepted; the orderings of section 4.1 give its windows where the
    comparisons are strict. The third ordering of section 4.1 includes the
    target that rises at the very second of sunset or of sunrise
    (sunSet <= targetRise <= sunRise): the code takes no branch for it (line
    295 compares strictly), finds no window, whatever its length would be,
    and line 302 raises [TypeError]: the target is not rejected as a normal
    outcome, and the batch returns no target at all. *)
Theorem accepted_windows (sun_set_time sun_rise_time : Z)
    (lookup : string -> option FixedBody) (rows1 rows2 : list string) (row : string)
    (target : FixedBody) :
  (lookup row = Some target ->
   sun_set_time <= rise_time target <= sun_rise_time ->
   rise_time target = sun_set_time \/ rise_time target = sun_rise_time ->
   window sun_set_time sun_rise_time (rise_time target) (set_time target) = None /\
   (exists e, parse_recon_table sun_set_time sun_rise_time lookup (rows1 ++ row :: rows2)
              = inl e) /\
   (forall good_targets,
      parse_recon_table sun_set_time sun_rise_time lookup rows1 = inr good_targets ->
      parse_recon_table sun_set_time sun_rise_time lookup (rows1 ++ row :: rows2)
      = inl TypeError)) /\
  (forall rows good_targets,
     parse_recon_table sun_set_time sun_rise_time lookup rows = inr good_targets ->
     Forall (λ target,
               exists start end_,
                 window sun_set_time sun_rise_time (rise_time target) (set_time target)
                   = Some (start, end_) /\
                 MINIMUM_UP_TIME <= end_ - start /\
                 start <= end_ /\ sun_set_time <= start /\ end_ <= sun_rise_time)
            good_targets /\
     (forall target start end_,
        window sun_set_time sun_rise_time (rise_time target) (set_time target)
          = Some (start, end_) ->
        end_ - start < MINIMUM_UP_TIME -> target ∉ good_targets)) /\
  (forall target_rise_time target_set_time,
     let end_ := Z.min target_set_time sun_rise_time in
     (target_rise_time > sun_rise_time -> target_set_time > sun_set_time ->
        window sun_set_time sun_rise_time target_rise_time target_set_time
          = Some (sun_set_time, end_)) /\
     (target_rise_time <= sun_rise_time -> target_rise_time < sun_set_time ->
        window sun_set_time sun_rise_time target_rise_time target_set_time
          = Some (sun_set_time, end_)) /\
     (sun_set_time < target_rise_time < sun_rise_time ->
        window sun_set_time sun_rise_time target_rise_time target_set_time
          = Some (target_rise_time, end_))).
Proof.
  split; [|split].
  - intros Hl Hnight Htie.
    pose proof (window_tie sun_set_time sun_rise_time _ (set_time target) Hnight Htie) as Hw.
    split; [done|]. split.
    + apply rows_loop_no_window with row target; [|done..].
      apply elem_of_app. right. left.
    + intros good Hgood. unfold parse_recon_table in *.
      rewrite rows_loop_app, Hgood. simpl. by rewrite Hl, Hw.
  - intros rows good_targets Hp.
    assert (Hacc : Forall (accepted sun_set_time sun_rise_time) good_targets).
    { eapply rows_loop_accepted; [exact Hp|constructor]. }
    rewrite Forall_forall in Hacc. split.
    + apply Forall_forall. intros t Ht. destruct (Hacc t Ht) as (s & e & Hw' & Hd).
      exists s, e. split; [done|]. split; [done|].
      by eapply window_accept_contained.
    + intros t s e Hw' Hd Ht. destruct (Hacc t Ht) as (s' & e' & Hw'' & Hd').
      rewrite Hw' in Hw''. injection Hw'' as <- <-. lia.
  - intros tr ts end_. apply window_orderings.
Qed.

Lemma accepted_windows_witness :
  rise_time dusk_target = dusk /\
  set_time dusk_target - rise_time dusk_target < MINIMUM_UP_TIME /\
  window dusk dawn (rise_time dusk_target) (set_time dusk_target) = None /\
  parse_recon_table dusk dawn catalogue_at_dusk (["night"] ++ "dusk" :: ["brief"])
  = inl TypeError.
Proof.
  assert (Hnight : dusk <= rise_time dusk_target <= dawn) by (by vm_compute).
  destruct (proj1 (accepted_windows dusk dawn catalogue_at_dusk ["night"] ["brief"] "dusk"
                     dusk_target) eq_refl Hnight (or_introl eq_refl))
    as (Hw & _ & Hraise).
  split; [reflexivity|]. split; [reflexivity|]. split; [exact Hw|].
  apply (Hraise [night_target]). vm_compute. reflexivity.
Defined.

End ReconClaims.

Section SeparationFacts.
Import Examples.
Local Open Scope R_scope.

Lemma equatorial_separation_self c : equatorial_separation c c = 0.
Proof.
  unfold equatorial_separation. replace (ra c - ra c) with 0 by lra.
  rewrite Rabs_R0. unfold Rmin. destruct (Rle_dec 0 (360 - 0)); lra.
Qed.

Lemma equatorial_separation_scenario :
  equatorial_separation (at_ra 12) (at_ra 10) <= 10 /\
  equatorial_separation (at_ra 200) (at_ra 10) > 10 /\
  equatorial_separation (at_ra 200) (at_ra 12) > 10.
Proof.
  unfold equatorial_separation, at_ra, Rmin, Rabs. simpl.
  repeat split; repeat destruct (Rcase_abs _); repeat destruct (Rle_dec _ _); lra.
Qed.

End SeparationFacts.

Section SchedulerClaims.
Import Selector Examples.

(** C1, on the code: in the scenario of three targets at right ascensions 10,
    12 and 200 degrees with magnitudes 22.0, 24.5 and 26.0, the first two
    within 10 degrees of each other, [ph2.py] ends after three passes with
    three groups of one target each, in three copies, and no group holds both
    close targets; [create_cfht_observations.py] raises [TypeError] when it
    sorts the three targets (line 91) and persists no group at all. *)
Theorem scenario_single_target_groups
    (separation : SkyCoord -> SkyCoord -> R) (runid qrunid : string)
    (generate_observing_group_token : string -> string) :
  (forall c, separation c c = 0%R) ->
  (separation (at_ra 12) (at_ra 10) <= 10)%R ->
  (separation (at_ra 200) (at_ra 10) > 10)%R ->
  (separation (at_ra 200) (at_ra 12) > 10)%R ->
  let ob := Ph2.ob_token_of qrunid in
  (exists st,
     Ph2.main separation runid qrunid 3 ph2_scenario = Ph2.Done st /\
     Ph2.observing_groups st =
       Ph2.copies runid qrunid 1 [ob target_a] ++ Ph2.copies runid qrunid 2 [ob target_b]
       ++ Ph2.copies runid qrunid 3 [ob target_c] /\
     Ph2.stdout st =
       [(Ph2.og_token_of runid qrunid 1 0, 120%Z);
        (Ph2.og_token_of runid qrunid 2 0, 380%Z);
        (Ph2.og_token_of runid qrunid 3 0, 540%Z)] /\
     Forall (λ g, ~ (ob target_a ∈ Ph2.observing_block_identifiers g /\
                     ob target_b ∈ Ph2.observing_block_identifiers g))
            (Ph2.observing_groups st)) /\
  (Forall (CreateCfht.has_template templates) cfht_scenario /\
   CreateCfht.targets_by_ra cfht_scenario = None /\
   forall fuel,
     CreateCfht.execute separation qrunid generate_observing_group_token templates
                        fuel cfht_scenario = CreateCfht.Raised CreateCfht.TypeError).
Proof.
  intros Hself _ _ _ ob. split.
  - eexists. split; [by apply ph2_scenario_run|]. cbn [Ph2.observing_groups Ph2.stdout].
    split; [done|]. split; [done|].
    assert (Hab : ob target_b <> ob target_a) by (by apply ob_ne).
    assert (Hac : ob target_a <> ob target_c) by (by apply ob_ne).
    repeat constructor; simpl; intros [Ha Hb]; set_solver.
  - split; [apply cfht_scenario_templates|]. split; [done|].
    intros fuel. apply cfht_scenario_run.
Qed.

End SchedulerClaims.

Lemma scenario_single_target_groups_witness :
  (exists st,
     Ph2.main Examples.equatorial_separation "17BC08" "18AQ01" 3 Examples.ph2_scenario
       = Ph2.Done st /\
     length (Ph2.observing_groups st) = 9 /\
     Forall (λ g, length (Ph2.observing_block_identifiers g) = 1)
            (Ph2.observing_groups st)) /\
  CreateCfht.execute Examples.equatorial_separation "18AQ01" Examples.named_token
    Examples.templates 3 Examples.cfht_scenario
  = CreateCfht.Raised CreateCfht.TypeError.
Proof.
  destruct equatorial_separation_scenario as (H1 & H2 & H3).
  destruct (scenario_single_target_groups Examples.equatorial_separation
              "17BC08" "18AQ01" Examples.named_token equatorial_separation_self H1 H2 H3)
    as [(st & Hrun & Hgroups & _) (_ & _ & Hcfht)].
  split; [|apply Hcfht].
  exists st. split; [exact Hrun|]. rewrite Hgroups. split; [reflexivity|].
  repeat constructor.
Defined.

Section TerminationClaims.
Import Selector Examples.



End TerminationClaims.


Section GroupClaims.
Import Selector Examples.

(** C7: in every group either program has emitted, at any point of a run,
    each member lies within 10 degrees of the group's anchor, its first
    member, and the group's cumulative duration, the one reported for it, is
    at most 3000 s. *)
Theorem groups_within_radius_and_budget
    (separation : SkyCoord -> SkyCoord -> R) (runid qrunid : string)
    (generate_observing_group_token : string -> string)
    (observing_template_by_exptime : gmap Z string) :
  (forall c, separation c c = 0%R) ->
  (forall targets fuel st,
     Ph2.main separation runid qrunid fuel targets = Ph2.Done st \/
     Ph2.main separation runid qrunid fuel targets = Ph2.Running st ->
     let tb := Ph2.load qrunid targets in
     (forall g, g ∈ Ph2.observing_groups st ->
        (forall anchor member,
           head (Ph2.observing_block_identifiers g) = Some anchor ->
           member ∈ Ph2.observing_block_identifiers g ->
           exists ca cm,
             Ph2.ob_coordinate tb !! anchor = Some ca /\
             Ph2.ob_coordinate tb !! member = Some cm /\
             (separation cm ca <= 10)%R) /\
        (Ph2.group_duration tb (Ph2.observing_block_identifiers g) <= 3000)%Z) /\
     (forall line, line ∈ Ph2.stdout st ->
        exists g, g ∈ Ph2.observing_groups st /\
                  Ph2.client_token g = line.1 /\
                  line.2 = Ph2.group_duration tb (Ph2.observing_block_identifiers g) /\
                  (line.2 <= 3000)%Z)) /\
  (forall messages fuel st,
     let run := CreateCfht.execute separation qrunid generate_observing_group_token
                  observing_template_by_exptime in
     run fuel messages = CreateCfht.Done st \/
     run fuel messages = CreateCfht.Running st ->
     (forall g, g ∈ (CreateCfht.persisted st).*2 ->
        forall anchor member,
          head (CreateCfht.observing_component g) = Some anchor ->
          member ∈ CreateCfht.observing_component g ->
          exists ta tm,
            ta ∈ messages /\ tm ∈ messages /\
            CreateCfht.token ta = CreateCfht.target_token anchor /\
            CreateCfht.token tm = CreateCfht.target_token member /\
            (separation (CreateCfht.coordinate tm) (CreateCfht.coordinate ta) <= 10)%R) /\
     (forall line, line ∈ CreateCfht.stdout st -> (line.2 <= 3000)%Z) /\
     exists bs,
       CreateCfht.emitted qrunid generate_observing_group_token bs st /\
       Forall (CreateCfht.well_grouped messages) bs).
Proof.
  intros Hself. split.
  - intros targets fuel st Hrun tb.
    destruct (main_reachable separation runid qrunid Hself targets fuel st Hrun)
      as [k ->].
    fold tb. split.
    + intros g Hg.
      apply elem_of_observing_groups in Hg as (i & Hi & ->).
      split.
      * intros anchor member Ha Hm.
        destruct (members_cases tb i) as [[Hnil _]|(t & Ht & Hone & _)];
          rewrite ?Hnil, ?Hone in *; [done|].
        injection Ha as <-. apply list_elem_of_singleton in Hm as ->.
        destruct (order_tokens_lookup tb (load_well_formed qrunid targets) i t Ht)
          as (c & _ & _ & Hc & _).
        exists c, c. rewrite Hself. repeat split; [done..|lra].
      * rewrite <-itime_group_duration. pose proof (itime_bounds tb i). lia.
    + intros line Hl.
      apply elem_of_stdout in Hl as (i & Hi & ->).
      eexists. split; [by apply first_copy_emitted|]. simpl.
      split; [done|]. split; [apply itime_group_duration|].
      pose proof (itime_bounds tb i). lia.
  - intros messages fuel st run Hrun.
    destruct (cfht_execute_emitted _ _ _ _ Hself _ _ _ Hrun) as (bs & Hem & Hwg).
    rewrite Forall_forall in Hwg.
    split; [|split; [|by exists bs; rewrite Forall_forall]].
    + intros g Hg anchor member Ha Hm.
      destruct (emitted_persisted _ _ _ _ _ Hem Hg) as (b & Hb & ->).
      destruct (well_grouped_bounds separation Hself _ _ (Hwg b Hb)) as [_ Hsep].
      destruct (Hsep anchor member Ha Hm) as (ta & tm & Hta & Htm & H1 & H2 & H3).
      by exists ta, tm.
    + intros line Hl.
      destruct (emitted_stdout _ _ _ _ _ Hem Hl) as (b & Hb & ->).
      destruct (well_grouped_bounds separation Hself _ _ (Hwg b Hb)) as [? _]. lia.
Qed.


End GroupClaims.

Lemma groups_within_radius_and_budget_witness :
  exists st,
    Ph2.main Examples.equatorial_separation "17BC08" "18AQ01" 3 Examples.ph2_scenario
      = Ph2.Done st /\
    forall line, line ∈ Ph2.stdout st -> (line.2 <= 3000)%Z.
Proof.
  eexists. split.
  - apply ph2_scenario_run, equatorial_separation_self.
  - intros line Hl.
    destruct (proj1 (groups_within_radius_and_budget
                       Examples.equatorial_separation "17BC08" "18AQ01"
                       Examples.named_token Examples.templates
                       equatorial_separation_self)
                Examples.ph2_scenario 3 _
                (or_introl (ph2_scenario_run _ _ _ equatorial_separation_self)))
      as [_ H].
    destruct (H line Hl) as (g & _ & _ & _ & Hle). exact Hle.
Defined.


(** * Further properties *)

Section FurtherProperties.
Import FloatSelector.

(** X1: whenever line 24 gives a clamped ideal exposure, the selected
    exposure time is the smallest bucket strictly greater than it. *)
Theorem selected_bucket_least_above (fl : Arithmetic) (mag x : float) :
  exact_exptime fl mag = inr x ->
  exists v : Z,
    exposure_time fl mag = inr v /\
    float_lt x (Finite (IZR v)) /\
    forall c : Z, c ∈ Selector.IC_exptimes -> float_lt x (Finite (IZR c)) -> (v <= c)%Z.
Proof.
  intros Hx. destruct (float_exact_exptime_bounds fl mag x Hx) as (r & -> & _).
  apply (float_exposure_time_least fl mag r Hx).
Qed.

(** X2: [parse_recon_table] finds no window, and raises at line 302, exactly
    for a target that rises after sunrise and sets no later than sunset, or
    that rises at the very second of sunset or of sunrise. *)
Theorem window_missing_iff (sun_set_time sun_rise_time : Z)
    (target_rise_time target_set_time : Z) :
  ReconParser.window sun_set_time sun_rise_time target_rise_time target_set_time = None <->
  (target_rise_time > sun_rise_time /\ target_set_time <= sun_set_time)%Z \/
  ((sun_set_time <= target_rise_time <= sun_rise_time)%Z /\
   (target_rise_time = sun_set_time \/ target_rise_time = sun_rise_time)).
Proof.
  unfold ReconParser.window.
  destruct (Z.gtb_spec target_rise_time sun_rise_time);
    [destruct (Z.gtb_spec target_set_time sun_set_time)|];
    [split; [done|lia]|split; [intros _; left; lia|done]|].
  destruct (Z.ltb_spec target_rise_time sun_set_time); [split; [done|lia]|].
  destruct (Z.ltb_spec sun_set_time target_rise_time),
    (Z.ltb_spec target_rise_time sun_rise_time); simpl;
    (split; [try done; intros _; right; lia|try done; lia]).
Qed.


End FurtherProperties.

Lemma selected_bucket_least_above_witness :
  FloatSelector.exact_exptime Unrounded.unrounded (FloatSelector.Finite 24.5)
  = inr (FloatSelector.Finite 300) /\
  exists v : Z,
    FloatSelector.exposure_time Unrounded.unrounded (FloatSelector.Finite 24.5) = inr v /\
    FloatSelector.float_lt (FloatSelector.Finite 300) (FloatSelector.Finite (IZR v)) /\
    forall c : Z,
      c ∈ Selector.IC_exptimes ->
      FloatSelector.float_lt (FloatSelector.Finite 300) (FloatSelector.Finite (IZR c)) ->
      (v <= c)%Z.
Proof.
  pose proof (float_exact_exptime_reference Unrounded.unrounded
                unrounded_Exact unrounded_PythonPow) as Hx.
  split; [done|].
  apply (selected_bucket_least_above Unrounded.unrounded (FloatSelector.Finite 24.5) _ Hx).
Defined.


(** * The rest of the repository *)

Section ReconOrder.
Import ReconParser.
Local Open Scope Z_scope.
Variables sun_set_time sun_rise_time : Z.
Variable lookup : string -> option FixedBody.

(** What the loop of [parse_recon_table] does with a target it found a
    window for: keep it when the window lasts the minimum up time. *)
#[local] Abbreviation kept target :=
  (match ReconParser.window sun_set_time sun_rise_time (rise_time target) (set_time target) with
   | Some (start, end_) => if (end_ - start <? MINIMUM_UP_TIME) then None else Some target
   | None => None
   end).

Lemma rows_loop_inr rows acc good :
  ReconParser.rows_loop sun_set_time sun_rise_time lookup rows acc = inr good <->
  exists targets,
    mapM lookup rows = Some targets /\
    Forall (λ target, is_Some (ReconParser.window sun_set_time sun_rise_time
                                 (rise_time target) (set_time target))) targets /\
    good = acc ++ omap (λ target, kept target) targets.
Proof.
  revert acc good. induction rows as [|row rows IH]; intros acc good.
  - cbn. split.
    + intros [= <-]. exists []. by rewrite app_nil_r.
    + intros (targets & [= <-] & _ & ->). by rewrite app_nil_r.
  - cbn [ReconParser.rows_loop mapM]. destruct (lookup row) as [target|]; [|split].
    + cbn [mbind option_bind].
      destruct (ReconParser.window _ _ _ _) as [[start end_]|] eqn:Hw.
      * destruct (end_ - start <? MINIMUM_UP_TIME) eqn:Hd; rewrite IH; split.
        -- intros (targets & -> & Hall & ->). exists (target :: targets).
           split; [done|]. split; [constructor; [by rewrite Hw|done]|].
           cbn. by rewrite Hw, Hd.
        -- intros (targets & Hm & Hall & ->).
           destruct (mapM lookup rows) as [targets'|]; [|done]. cbn in Hm.
           injection Hm as <-. apply Forall_cons in Hall as [_ Hall].
           exists targets'. split; [done|]. split; [done|]. cbn. by rewrite Hw, Hd.
        -- intros (targets & -> & Hall & ->). exists (target :: targets).
           split; [done|]. split; [constructor; [by rewrite Hw|done]|].
           cbn. rewrite Hw, Hd. by rewrite <-(assoc_L (++)).
        -- intros (targets & Hm & Hall & ->).
           destruct (mapM lookup rows) as [targets'|]; [|done]. cbn in Hm.
           injection Hm as <-. apply Forall_cons in Hall as [_ Hall].
           exists targets'. split; [done|]. split; [done|]. cbn. rewrite Hw, Hd.
           by rewrite <-(assoc_L (++)).
      * split; [done|]. intros (targets & Hm & Hall & _).
        destruct (mapM lookup rows) as [targets'|]; [|done]. cbn in Hm.
        injection Hm as <-. apply Forall_cons in Hall as [[w Hall] _].
        rewrite Hw in Hall. done.
    + done.
    + by intros (targets & [=] & _).
Qed.

End ReconOrder.

Section ReconOrderProperties.
Import ReconParser.
Local Open Scope Z_scope.

(** X24: [parse_recon_table] returns exactly when the lookup succeeds for
    every row and every target has a window; what it returns is then, in
    the order of the rows, the targets whose window lasts more than one
    hour, each as often as its row occurs. The test of line 303 compares
    hours computed in floats, which a window of exactly one hour may pass or
    fail: no target of the table is taken to have such a window here. *)
Theorem parse_recon_table_keeps_long_windows
    (sun_set_time sun_rise_time : Z) (lookup : string -> option FixedBody)
    (rows : list string) (good_targets : list FixedBody) :
  (forall row target start end_,
     row ∈ rows -> lookup row = Some target ->
     window sun_set_time sun_rise_time (rise_time target) (set_time target)
       = Some (start, end_) ->
     end_ - start <> MINIMUM_UP_TIME) ->
  parse_recon_table sun_set_time sun_rise_time lookup rows = inr good_targets <->
  exists targets,
    mapM lookup rows = Some targets /\
    Forall (λ target, is_Some (window sun_set_time sun_rise_time
                                 (rise_time target) (set_time target))) targets /\
    good_targets =
      omap (λ target,
              match window sun_set_time sun_rise_time
                      (rise_time target) (set_time target) with
              | Some (start, end_) =>
                  if (MINIMUM_UP_TIME <? end_ - start) then Some target else None
              | None => None
              end) targets.
Proof.
  intros Hhour. unfold parse_recon_table. rewrite rows_loop_inr.
  assert (Hkept : forall targets,
    mapM lookup rows = Some targets ->
    omap (M:=list)
         (λ target,
            match window sun_set_time sun_rise_time
                    (rise_time target) (set_time target) with
            | Some (start, end_) =>
                if (end_ - start <? MINIMUM_UP_TIME) then None else Some target
            | None => None
            end) targets
    = omap (M:=list)
           (λ target,
              match window sun_set_time sun_rise_time
                      (rise_time target) (set_time target) with
              | Some (start, end_) =>
                  if (MINIMUM_UP_TIME <? end_ - start) then Some target else None
              | None => None
              end) targets).
  { intros targets Hm. apply mapM_Some in Hm.
    induction Hm as [|row target rows' targets' Hrow _ IH]; [done|].
    cbn [omap list_omap]. rewrite IH by (intros; eapply Hhour; [by right|done..]).
    destruct (window _ _ _ _) as [[start end_]|] eqn:Hw; [|done].
    specialize (Hhour row target start end_ (list_elem_of_here _ _) Hrow Hw).
    destruct (Z.ltb_spec (end_ - start) MINIMUM_UP_TIME),
      (Z.ltb_spec MINIMUM_UP_TIME (end_ - start)); (done || lia). }
  split.
  - intros (targets & Hm & Hall & ->). exists targets. by rewrite <-Hkept.
  - intros (targets & Hm & Hall & ->). exists targets. by rewrite Hkept.
Qed.

End ReconOrderProperties.

Lemma parse_recon_table_keeps_long_windows_witness :
  ReconParser.parse_recon_table ReconExamples.dusk ReconExamples.dawn ReconExamples.catalogue
    ["night"; "brief"] = inr [ReconExamples.night_target] <->
  exists targets,
    mapM ReconExamples.catalogue ["night"; "brief"] = Some targets /\
    Forall (λ target,
              is_Some (ReconParser.window ReconExamples.dusk ReconExamples.dawn
                         (ReconParser.rise_time target) (ReconParser.set_time target)))
           targets /\
    [ReconExamples.night_target] =
      omap (λ target,
              match ReconParser.window ReconExamples.dusk ReconExamples.dawn
                      (ReconParser.rise_time target) (ReconParser.set_time target) with
              | Some (start, end_) =>
                  if (ReconParser.MINIMUM_UP_TIME <? end_ - start)%Z then Some target
                  else None
              | None => None
              end) targets.
Proof.
  apply (parse_recon_table_keeps_long_windows ReconExamples.dusk ReconExamples.dawn
           ReconExamples.catalogue ["night"; "brief"] [ReconExamples.night_target]).
  intros row target start end_ Hrow Hl Hw.
  apply elem_of_cons in Hrow as [->|Hrow];
    [|apply elem_of_cons in Hrow as [->|Hrow]; [|by apply elem_of_nil in Hrow]];
    vm_compute in Hl; injection Hl as <-; vm_compute in Hw; injection Hw as <- <-; done.
Defined.

(** ** The program file of [ph2.py] *)

Section Ph2ProgramFacts.
Import Selector Ph2Program.
Variable separation : SkyCoord -> SkyCoord -> R.
Variables runid qrunid : string.

#[local] Abbreviation add_file := (add_file qrunid).
#[local] Abbreviation add_files := (add_files qrunid).
#[local] Abbreviation block_of := (block_of qrunid).
#[local] Abbreviation main := (main separation runid qrunid).

Lemma add_file_read program tb file :
  add_file (program, tb) file =
    target ← read file;
    Some ({| Ph2Program.runid := Ph2Program.runid program;
             pi_login := pi_login program;
             targets := targets program ++ [file];
             observing_blocks := observing_blocks program ++ [block_of target];
             observing_groups := observing_groups program |},
          Ph2.load_target qrunid tb target).
Proof.
  unfold Ph2Program.add_file, read.
  destruct (name file) as [n|]; [|done].
  destruct (mag file) as [m|]; [|done].
  destruct (client_token file) as [t|]; [|done].
  by destruct (coordinate file) as [c|].
Qed.

Lemma add_files_read files program targets0 :
  add_files files (program, Ph2.load qrunid targets0) =
    targets' ← mapM read files;
    Some ({| Ph2Program.runid := Ph2Program.runid program;
             pi_login := pi_login program;
             targets := targets program ++ files;
             observing_blocks := observing_blocks program ++ (block_of <$> targets');
             observing_groups := observing_groups program |},
          Ph2.load qrunid (targets0 ++ targets')).
Proof.
  revert program targets0. induction files as [|file files IH]; intros program targets0.
  - cbn. rewrite !app_nil_r. by destruct program.
  - cbn [Ph2Program.add_files]. rewrite add_file_read. cbn [mapM].
    destruct (read file) as [target|]; [|done]. cbn [mbind option_bind].
    rewrite <-load_snoc, IH. cbn [targets observing_blocks].
    destruct (mapM read files) as [targets'|]; [|done]. cbn.
    by rewrite <-!(assoc_L (++)).
Qed.

Lemma main_read fuel files :
  main fuel files =
    match mapM read files with
    | None => Raised
    | Some targets' =>
        match Ph2.main separation runid qrunid fuel targets' with
        | Ph2.Done st =>
            Dumped {| Ph2Program.runid := runid; pi_login := "kavelaars";
                      targets := files;
                      observing_blocks := block_of <$> targets';
                      observing_groups := Ph2.observing_groups st |}
        | Ph2.Raised => Raised
        | Ph2.Running _ => Running
        end
    end.
Proof.
  unfold Ph2Program.main.
  change {| Ph2.ob_tokens := []; Ph2.mags := ∅; Ph2.ob_coordinate := ∅ |}
    with (Ph2.load qrunid []).
  rewrite add_files_read. destruct (mapM read files) as [targets'|]; [|done].
  cbn. unfold Ph2.main. by destruct (Ph2.while _ _ _ _ _ _).
Qed.

Lemma read_mag file : mag file = None -> read file = None.
Proof. intros Hm. unfold read. rewrite Hm. by destruct (name file). Qed.


End Ph2ProgramFacts.

Section Ph2ProgramProperties.
Import Selector Ph2Program.

(** X13: the fallback magnitude of [ph2.py] (25.0, lines 121-124) is never
    used: a target file without a magnitude makes the run raise at line 120,
    whatever the other files are, and no program file is written. *)
Theorem missing_magnitude_raises
    (separation : SkyCoord -> SkyCoord -> R) (runid qrunid : string)
    (files : list TargetFile) (fuel : nat) :
  Exists (λ file, mag file = None) files ->
  main separation runid qrunid fuel files = Raised.
Proof.
  intros Hex. rewrite main_read.
  assert (Hnone : mapM read files = None).
  { apply mapM_None. eapply Exists_impl; [done|]. intros file. apply read_mag. }
  by rewrite Hnone.
Qed.



End Ph2ProgramProperties.

Lemma missing_magnitude_raises_witness :
  Ph2Program.main Examples.equatorial_separation "17BC08" "18AQ01" 4
    (Ph2ProgramExamples.scenario_files ++ [Ph2ProgramExamples.file_without_mag])
  = Ph2Program.Raised.
Proof.
  apply (missing_magnitude_raises Examples.equatorial_separation "17BC08" "18AQ01"
           (Ph2ProgramExamples.scenario_files ++ [Ph2ProgramExamples.file_without_mag]) 4).
  apply Exists_app. right. by left.
Defined.



Section CfhtTemplatesFacts.
Import CfhtTemplates.

Lemma observing_template_by_exptime_snoc listing t :
  observing_template_by_exptime (listing ++ [t])
  = <[etime_sec t := t]> (observing_template_by_exptime listing).
Proof. unfold observing_template_by_exptime. by rewrite foldl_app. Qed.

Lemma observing_template_by_exptime_lookup listing e :
  observing_template_by_exptime listing !! e
  = last (filter (λ t, etime_sec t = e) listing).
Proof.
  induction listing as [|t listing IH] using rev_ind; [done|].
  rewrite observing_template_by_exptime_snoc, filter_app, filter_cons, filter_nil.
  destruct (decide (etime_sec t = e)) as [<-|Hne].
  - by rewrite lookup_insert_eq, last_snoc.
  - by rewrite lookup_insert_ne, app_nil_r.
Qed.

End CfhtTemplatesFacts.

Section CfhtTemplatesProperties.
Import CfhtTemplates.
Local Open Scope Z_scope.

(** X16: [execute] files each listed observing template under the key
    [etime_sec] it computes for it; of the listed templates with the same
    key the last one is kept, and an exposure time has a template exactly
    when a listed template has that key. For an exposure time of 0 to 2^53
    milliseconds, the integers that the float division of line 69 handles
    without rounding, the key is the exposure time in whole seconds, the
    fraction dropped. *)
Theorem last_listed_template_is_kept (listing : list ObservingTemplate) (e : Z) :
  observing_template_by_exptime listing !! e
  = last (filter (λ t, etime_sec t = e) listing) /\
  (is_Some (template_tokens listing !! e) <->
   exists t, t ∈ listing /\ etime_sec t = e) /\
  (forall t, t ∈ listing -> 0 <= exposure_time_ms t <= 2 ^ 53 ->
     1000 * etime_sec t <= exposure_time_ms t < 1000 * etime_sec t + 1000) /\
  (forall before t after,
     listing = before ++ t :: after -> Forall (λ t', etime_sec t' <> etime_sec t) after ->
     template_tokens listing !! etime_sec t = Some (token t)).
Proof.
  split; [apply observing_template_by_exptime_lookup|]. split; [|split].
  - unfold template_tokens. rewrite lookup_fmap, fmap_is_Some.
    rewrite observing_template_by_exptime_lookup. split.
    + intros [t Ht]. apply last_Some in Ht as [l Hl].
      assert (Hin : t ∈ filter (λ t, etime_sec t = e) listing)
        by (rewrite Hl; set_solver).
      apply list_elem_of_filter in Hin as [? ?]. by exists t.
    + intros (t & Hin & He).
      assert (Hf : t ∈ filter (λ t, etime_sec t = e) listing)
        by (by apply list_elem_of_filter).
      destruct (filter _ listing) as [|x l] using rev_ind; [by apply elem_of_nil in Hf|].
      rewrite last_snoc. by eexists.
  - intros t _ [Hms _]. unfold etime_sec.
    rewrite Z.quot_div_nonneg by lia.
    pose proof (Z.div_mod (exposure_time_ms t) 1000).
    pose proof (Z.mod_pos_bound (exposure_time_ms t) 1000). lia.
  - intros before t after -> Hafter. unfold template_tokens.
    rewrite lookup_fmap, observing_template_by_exptime_lookup.
    rewrite filter_app, filter_cons, decide_True by done.
    assert (Hnil : filter (λ t', etime_sec t' = etime_sec t) after = []).
    { induction Hafter as [|t' after Ht' _ IH]; [done|].
      by rewrite filter_cons, decide_False. }
    rewrite Hnil. change (?a ++ [?b]) with (a ++ [b]). by rewrite last_snoc.
Qed.

End CfhtTemplatesProperties.

(** ** The table parser *)

Section HtmlTableFacts.
Import HtmlTable.

(** *** The second loop *)

Lemma write_row_spec texts r c df row :
  df !! r = Some row ->
  write_row texts r c df =
    if decide (texts = [] \/ c + length texts <= length row)
    then Some (<[r := take c row ++ (Some <$> texts) ++ drop (c + length texts) row]> df)
    else None.
Proof.
  revert c df row. induction texts as [|text texts IH]; intros c df row Hrow.
  - rewrite decide_True by (by left). cbn. rewrite Nat.add_0_r, take_drop.
    by rewrite list_insert_id.
  - cbn [write_row]. unfold iat_set. rewrite Hrow. cbn [mbind option_bind].
    destruct (decide (c < length row)) as [Hc|Hc].
    + cbn [mbind option_bind].
      rewrite (IH _ _ (<[c := Some text]> row)) by (apply list_lookup_insert_eq; by eapply lookup_lt_Some).
      rewrite length_insert, list_insert_insert_eq.
      destruct (decide (texts = [] \/ S c + length texts <= length row)) as [H|H].
      * rewrite decide_True by (right; cbn; destruct H as [->|H]; cbn; lia).
        do 2 f_equal. cbn [length fmap list_fmap].
        rewrite (take_S_r (<[c := Some text]> row) c (Some text))
          by (apply list_lookup_insert_eq; lia).
        rewrite take_insert_ge by lia. rewrite drop_insert_lt by lia.
        rewrite <-(assoc_L (++)). cbn. by rewrite Nat.add_succ_r.
      * rewrite decide_False; [done|]. intros [?|Hle]; [done|]. cbn in Hle.
        apply H. right. lia.
    + rewrite decide_False; [done|]. intros [?|Hle]; [done|]. cbn in Hle. lia.
Qed.

Lemma write_row_outside texts r c df :
  df !! r = None -> write_row texts r c df = if decide (texts = []) then Some df else None.
Proof.
  intros Hr. destruct texts as [|text texts]; [done|].
  cbn. unfold iat_set. by rewrite Hr.
Qed.

#[local] Abbreviation blank w := (replicate w (@None string)).

Lemma completed_blank w texts :
  length texts <= w ->
  take 0 (blank w) ++ (Some <$> texts) ++ drop (0 + length texts) (blank w) = completed w texts.
Proof. intros Hw. unfold completed. cbn. by rewrite drop_replicate. Qed.

(** The frame while the second loop runs: the rows written so far, then
    blank rows. *)
Lemma fill_spec w rows done k :
  fill rows false (length done)
       ((completed w ∘ td <$> done) ++ replicate k (blank w))
  = let wr := filter (λ row, td row <> []) rows in
    if decide (length wr <= k /\ Forall (λ row, length (td row) <= w) wr)
    then Some ((completed w ∘ td <$> done ++ wr) ++ replicate (k - length wr) (blank w))
    else None.
Proof.
  revert done k. induction rows as [|row rows IH]; intros done k.
  - cbn. rewrite decide_True by (split; [lia|constructor]).
    by rewrite app_nil_r, Nat.sub_0_r.
  - cbn [fill]. rewrite filter_cons.
    destruct (decide (td row <> [])) as [Htd|Htd].
    + rewrite (decide_True (P := 0 < length (td row)))
        by (destruct (td row); [done|cbn; lia]).
      destruct k as [|k].
      * rewrite write_row_outside
          by (rewrite app_nil_r; apply lookup_ge_None_2; by rewrite length_fmap).
        rewrite decide_False by done. cbn.
        rewrite decide_False; [done|]. cbn. lia.
      * rewrite (write_row_spec _ _ _ _ (blank w))
          by (rewrite lookup_app_r, length_fmap, Nat.sub_diag by (by rewrite length_fmap); done).
        rewrite length_replicate. cbn [Nat.add].
        destruct (decide (length (td row) <= w)) as [Hw|Hw].
        -- rewrite decide_True by (by right). cbn [mbind option_bind].
           rewrite completed_blank by done.
           rewrite insert_app_r_alt, length_fmap, Nat.sub_diag by (by rewrite length_fmap).
           cbn [replicate list_insert].
           replace ((completed w ∘ td <$> done) ++ completed w (td row) :: replicate k (blank w))
             with ((completed w ∘ td <$> (done ++ [row])) ++ replicate k (blank w))
             by (by rewrite fmap_app, <-(assoc_L (++))).
           replace (S (length done)) with (length (done ++ [row]))
             by (rewrite length_app; cbn; lia).
           rewrite IH. cbn zeta. cbn [length].
           destruct (decide (length (filter (λ row0, td row0 <> []) rows) <= k /\ _))
             as [[H1 H2]|H].
           ++ rewrite decide_True by (split; [lia|by constructor]).
              by rewrite <-(assoc_L (++)).
           ++ rewrite decide_False; [done|]. intros [H1 H2]. apply H.
              apply Forall_cons in H2 as [_ H2]. split; [lia|done].
        -- rewrite decide_False by (intros [?|?]; [done|lia]). cbn.
           rewrite decide_False; [done|]. intros [_ H2]. by apply Forall_cons in H2 as [? _].
    + apply dec_stable in Htd. rewrite Htd. cbn [write_row mbind option_bind length].
      rewrite decide_False by lia. apply IH.
Qed.

Lemma fill_skip rows skip m df :
  fill rows skip m df = fill (if skip then tail rows else rows) false m df.
Proof. destruct skip; [|done]. by destruct rows. Qed.

(** *** The first loop *)

Lemma count_snoc rows row : count (rows ++ [row]) = count_row (count rows) row.
Proof. unfold count. by rewrite foldl_app. Qed.

(** The rows the second loop will write, counted. *)
#[local] Abbreviation writes rows := (Z.of_nat (length (written rows))).

Lemma written_snoc rows row :
  rows <> [] -> skip_first_tr (count (rows ++ [row])) = skip_first_tr (count rows) ->
  written (rows ++ [row])
  = written rows ++ filter (λ row, td row <> []) [row].
Proof.
  intros Hne Hskip. unfold written. rewrite Hskip.
  destruct (skip_first_tr (count rows)); [|by rewrite filter_app].
  destruct rows as [|r rows]; [done|]. cbn. by rewrite filter_app.
Qed.

(** One row of the first loop, by the case it falls in. *)
#[local] Abbreviation holds_cells row := (if decide (td row = []) then 0%Z else 1%Z).

Ltac count_row_cases :=
  unfold count_row;
  destruct (td _), (th _), (column_names _); try done; cbn [length app];
  repeat (case_decide; try (exfalso; cbn in *; (lia || tauto)));
  cbn; try done; try (f_equal; lia).

Lemma count_row_titled st row :
  column_names st <> [] ->
  count_row st row
  = {| n_columns := if decide (n_columns st = 0) then length (td row) else n_columns st;
       n_rows := n_rows st + holds_cells row;
       column_names := column_names st;
       skip_first_tr := skip_first_tr st |}.
Proof. intros Hn. count_row_cases. Qed.

Lemma count_row_th st row :
  column_names st = [] -> th row <> [] ->
  count_row st row
  = {| n_columns := if decide (n_columns st = 0) then length (td row) else n_columns st;
       n_rows := n_rows st + holds_cells row;
       column_names := th row;
       skip_first_tr := false |}.
Proof. intros Hn Hth. count_row_cases. Qed.

Lemma count_row_td st row :
  column_names st = [] -> th row = [] ->
  count_row st row
  = {| n_columns := if decide (n_columns st = 0) then length (td row) else n_columns st;
       n_rows := n_rows st + holds_cells row - 1;
       column_names := td row;
       skip_first_tr := true |}.
Proof. intros Hn Hth. count_row_cases. Qed.

Lemma length_filter_snoc (rows : list Row) row :
  Z.of_nat (length (filter (λ row, td row <> []) (rows ++ [row])))
  = (Z.of_nat (length (filter (λ row, td row <> []) rows)) + holds_cells row)%Z.
Proof.
  rewrite filter_app, length_app, filter_cons, filter_nil.
  destruct (decide (td row = [])) as [H|H].
  - rewrite (decide_False (P := td row <> [])) by (by intros H'). cbn. lia.
  - rewrite (decide_True (P := td row <> [])) by done. cbn. lia.
Qed.

(** While no title is known, every row was taken for the titles. *)
Lemma count_untitled rows :
  column_names (count rows) = [] ->
  n_rows (count rows) = (- Z.of_nat (length rows))%Z /\
  (rows <> [] -> skip_first_tr (count rows) = true).
Proof.
  induction rows as [|row rows IH] using rev_ind; [done|].
  rewrite count_snoc, length_app. cbn [length].
  destruct (decide (column_names (count rows) = [])) as [Hn|Hn].
  - destruct (decide (th row = [])) as [Hth|Hth].
    + rewrite count_row_td by done. cbn. intros ->.
      destruct (IH Hn) as [-> _]. rewrite decide_True by done. split; [lia|done].
    + rewrite count_row_th by done. cbn. done.
  - rewrite count_row_titled by done. cbn. done.
Qed.

Lemma count_titled rows : column_names (count rows) <> [] -> rows <> [].
Proof. by destruct rows. Qed.

(** The frame never has more rows than the second loop writes, and it has
    fewer when the table starts with a row that holds no cell and no
    title. *)
Lemma n_rows_written rows :
  (n_rows (count rows) <= writes rows)%Z /\
  (forall rest, rows = {| th := []; td := [] |} :: rest ->
     (n_rows (count rows) + 1 <= writes rows)%Z).
Proof.
  induction rows as [|row rows IH] using rev_ind; [done|].
  destruct IH as [IH1 IH2].
  assert (Hw0 : (0 <= Z.of_nat (length (filter (λ r, td r <> []) (tail (rows ++ [row])))))%Z)
    by lia.
  assert (Hlead : forall rest, rows ++ [row] = {| th := []; td := [] |} :: rest ->
            (rows = [] /\ row = {| th := []; td := [] |}) \/
            exists rest', rows = {| th := []; td := [] |} :: rest').
  { intros rest Heq. destruct rows as [|r rows']; [left|right].
    - by injection Heq as <- _.
    - injection Heq as -> _. by eexists. }
  unfold written. rewrite count_snoc.
  destruct (decide (column_names (count rows) = [])) as [Hn|Hn].
  - destruct (count_untitled rows Hn) as [Hrows Hskip].
    destruct (decide (th row = [])) as [Hth|Hth].
    + rewrite count_row_td by done. cbn [n_rows skip_first_tr]. rewrite Hrows.
      destruct rows as [|r rows'].
      * cbn. split; [case_decide; cbn; lia|].
        intros rest [= -> <-]. cbn. rewrite decide_True by done. lia.
      * cbn [tail app]. rewrite length_filter_snoc. cbn [length].
        split; [case_decide; cbn; lia|]. intros; case_decide; cbn; lia.
    + rewrite count_row_th by done. cbn [n_rows skip_first_tr]. rewrite Hrows.
      rewrite length_filter_snoc.
      split; [lia|]. intros rest Heq. destruct (Hlead rest Heq) as [[-> ->]|[rest' ->]].
      * done.
      * cbn [length]. lia.
  - rewrite count_row_titled by done. cbn [n_rows skip_first_tr].
    pose proof (count_titled rows Hn) as Hne.
    assert (Hwr : writes (rows ++ [row]) = (writes rows + holds_cells row)%Z).
    { unfold written. rewrite count_snoc, count_row_titled by done. cbn [skip_first_tr].
      destruct (skip_first_tr (count rows)); [|apply length_filter_snoc].
      destruct rows as [|r rows']; [done|]. cbn [tail app]. apply length_filter_snoc. }
    unfold written in Hwr. rewrite count_snoc, count_row_titled in Hwr by done.
    cbn [skip_first_tr] in Hwr. rewrite Hwr. fold (written rows).
    split; [lia|]. intros rest Heq. destruct (Hlead rest Heq) as [[-> ->]|[rest' ->]].
    + done.
    + specialize (IH2 _ eq_refl). lia.
Qed.

(** *** The whole function *)

(** The labels of the frame. *)
#[local] Abbreviation labels rows :=
  (if decide (0 < length (column_names (count rows)))
   then Title <$> column_names (count rows)
   else Position <$> seq 0 (n_columns (count rows))).

Lemma length_labels rows :
  ~ (0 < length (column_names (count rows)) /\
     length (column_names (count rows)) <> n_columns (count rows)) ->
  length (labels rows) = n_columns (count rows).
Proof.
  intros Hok. case_decide.
  - rewrite length_fmap. destruct (decide (length (column_names (count rows))
                                           = n_columns (count rows))); [done|tauto].
  - by rewrite length_fmap, length_seq.
Qed.

Lemma parse_html_table_inr rows df :
  parse_html_table rows = inr df <->
  ~ (0 < length (column_names (count rows)) /\
     length (column_names (count rows)) <> n_columns (count rows)) /\
  length (written rows) = Z.to_nat (n_rows (count rows)) /\
  Forall (λ row, length (td row) <= n_columns (count rows)) (written rows) /\
  df = {| columns := labels rows;
          cells := completed (n_columns (count rows)) ∘ td <$> written rows |}.
Proof.
  unfold parse_html_table. cbn zeta.
  destruct (decide (0 < length (column_names (count rows)) /\ _)) as [Hbad|Hok];
    [split; [done|tauto]|].
  rewrite (length_labels rows Hok), fill_skip.
  pose proof (fill_spec (n_columns (count rows))
                (if skip_first_tr (count rows) then tail rows else rows) []
                (Z.to_nat (n_rows (count rows)))) as Hfill.
  cbn [length fmap list_fmap app] in Hfill. rewrite Hfill. clear Hfill. cbn zeta.
  fold (written rows).
  destruct (n_rows_written rows) as [Hle _].
  destruct (decide (length (written rows) <= Z.to_nat (n_rows (count rows)) /\ _))
    as [[H1 H2]|Hno].
  - assert (Heq : length (written rows) = Z.to_nat (n_rows (count rows))) by lia.
    rewrite <-Heq, Nat.sub_diag. cbn [replicate]. rewrite app_nil_r.
    split.
    + intros [= <-]. done.
    + intros (_ & _ & _ & ->). done.
  - split; [done|]. intros (_ & Heq & Hall & _). destruct Hno. split; [lia|done].
Qed.

(** Once the titles are known, the rows that follow change the counts
    only. *)
Lemma foldl_count_row_titled st rows :
  column_names st <> [] ->
  foldl count_row st rows
  = {| n_columns :=
         if decide (n_columns st = 0)
         then default 0 (length ∘ td <$> head (filter (λ row, td row <> []) rows))
         else n_columns st;
       n_rows := n_rows st + Z.of_nat (length (filter (λ row, td row <> []) rows));
       column_names := column_names st;
       skip_first_tr := skip_first_tr st |}.
Proof.
  revert st. induction rows as [|row rows IH]; intros st Hn.
  - cbn [foldl filter list_filter length head fmap option_fmap option_map default].
    rewrite Z.add_0_r. destruct st as [n ? ? ?]; cbn [n_columns n_rows column_names skip_first_tr].
    by case_decide; subst.
  - cbn [foldl]. rewrite IH, count_row_titled by (by rewrite ?count_row_titled).
    destruct st as [c n names skip].
    cbn [n_columns n_rows column_names skip_first_tr]. rewrite filter_cons.
    destruct (decide (td row = [])) as [Htd|Htd].
    + rewrite (decide_False (P := td row <> [])) by (by intros H).
      rewrite Htd. cbn [length]. f_equal; [|lia].
      repeat case_decide; (done || lia).
    + rewrite (decide_True (P := td row <> [])) by done.
      cbn [head fmap option_fmap option_map default length compose].
      f_equal; [|lia].
      assert (length (td row) <> 0) by (by destruct (td row)).
      repeat case_decide; (done || lia).
Qed.

(** The frame is as wide as the first row with cells. *)
Lemma n_columns_foldl rows st0 :
  n_columns (foldl count_row st0 rows)
  = if decide (n_columns st0 = 0)
    then default 0 (length ∘ td <$> head (filter (λ row, td row <> []) rows))
    else n_columns st0.
Proof.
  revert st0. induction rows as [|row rows IH]; intros st0.
  - cbn. by case_decide.
  - cbn [foldl]. rewrite IH, filter_cons.
    assert (Hc : n_columns (count_row st0 row)
                 = if decide (n_columns st0 = 0) then length (td row) else n_columns st0).
    { unfold count_row. repeat case_decide; repeat case_match; by simplify_eq/=. }
    rewrite Hc. destruct (decide (td row = [])) as [Htd|Htd].
    + rewrite (decide_False (P := td row <> [])) by (by intros H). rewrite Htd.
      cbn [length]. repeat case_decide; (done || lia).
    + rewrite (decide_True (P := td row <> [])) by done.
      cbn [head fmap option_fmap option_map default compose].
      assert (length (td row) <> 0) by (by destruct (td row)).
      repeat case_decide; (done || lia).
Qed.

Lemma n_columns_count rows :
  n_columns (count rows)
  = default 0 (length ∘ td <$> head (filter (λ row, td row <> []) rows)).
Proof. unfold count. by rewrite n_columns_foldl. Qed.

End HtmlTableFacts.

Section HtmlTableProperties.
Import HtmlTable.

(** X20: when [parse_html_table] returns a frame, the frame is as wide as the
    first row with cells, and its rows are the rows of the table that hold
    cells, in order, the first row of the table left out when it gave the
    titles; each cell text stands in its column, and a row with fewer cells
    than the frame is wide is completed with blanks. No written row has
    more cells than the frame is wide. *)
Theorem parse_html_table_frame (rows : list Row) (df : DataFrame) :
  parse_html_table rows = inr df ->
  let st := count rows in
  columns df = (if decide (column_names st = [])
                then Position <$> seq 0 (n_columns st)
                else Title <$> column_names st) /\
  length (columns df) = n_columns st /\
  n_columns st = default 0 (length ∘ td <$> head (filter (λ row, td row <> []) rows)) /\
  cells df = completed (n_columns st) ∘ td <$> written rows /\
  Forall (λ row, length (td row) <= n_columns st) (written rows).
Proof.
  intros Hrun st. apply parse_html_table_inr in Hrun as (Hok & Hlen & Hall & ->).
  cbn [columns cells]. fold st in Hok, Hlen, Hall |- *.
  split; [|split; [|split; [|done]]].
  - destruct (column_names st); [done|]. by rewrite decide_True by (cbn; lia).
  - by apply length_labels.
  - apply n_columns_count.
Qed.

(** X21: a table whose first row gives the titles, as [<th>] tags or as
    [<td>] tags, and whose other rows have one cell for each title, is read
    as the frame of those titles and those rows; with [<th>] titles the
    table has to have one such row at least. *)
Theorem parse_html_table_titled (titles : list string) (data : list Row) :
  titles <> [] ->
  Forall (λ row, length (td row) = length titles) data ->
  let df := {| columns := Title <$> titles; cells := (fmap Some ∘ td) <$> data |} in
  (data <> [] -> parse_html_table ({| th := titles; td := [] |} :: data) = inr df) /\
  parse_html_table ({| th := []; td := titles |} :: data) = inr df.
Proof.
  intros Htitles Hdata df.
  assert (Hk : 0 < length titles) by (destruct titles; [done|cbn; lia]).
  assert (Hcells : Forall (λ row, td row <> []) data).
  { eapply Forall_impl; [exact Hdata|]. intros row Hrow Htd. cbn in Hrow. rewrite Htd in Hrow. cbn in Hrow. lia. }
  assert (Hfilter : filter (λ row, td row <> []) data = data).
  { clear -Hcells. induction Hcells as [|row data Hrow _ IH]; [done|].
    by rewrite filter_cons, decide_True, IH. }
  assert (Hcompleted : completed (length titles) ∘ td <$> data = (fmap Some ∘ td) <$> data).
  { apply Forall_fmap_ext. eapply Forall_impl; [exact Hdata|]. intros row Hrow. cbn.
    unfold completed. cbn in Hrow.
    replace (length titles - length (td row)) with 0 by lia. apply app_nil_r. }
  assert (Hwide : Forall (λ row, length (td row) <= length titles) data).
  { eapply Forall_impl; [exact Hdata|]. intros row Hrow. cbn in Hrow. lia. }
  split.
  - intros Hne.
    assert (Hcount : count ({| th := titles; td := [] |} :: data)
                     = {| n_columns := length titles; n_rows := Z.of_nat (length data);
                          column_names := titles; skip_first_tr := false |}).
    { unfold count. cbn [foldl]. rewrite count_row_th by done.
      rewrite foldl_count_row_titled by done.
      cbn [n_columns n_rows column_names skip_first_tr td length].
      rewrite Hfilter. rewrite decide_True by done. f_equal.
      destruct data as [|row data']; [done|]. apply Forall_cons in Hdata as [Hrow _].
      cbn. by rewrite Hrow. }
    apply parse_html_table_inr. unfold written. rewrite Hcount.
    cbn [n_columns n_rows column_names skip_first_tr].
    rewrite filter_cons, decide_False by (by intros H). rewrite Hfilter.
    split; [intros [_ H]; by apply H|]. split; [lia|]. split; [done|].
    unfold df. rewrite decide_True by done. by rewrite Hcompleted.
  - assert (Hcount : count ({| th := []; td := titles |} :: data)
                     = {| n_columns := length titles; n_rows := Z.of_nat (length data);
                          column_names := titles; skip_first_tr := true |}).
    { unfold count. cbn [foldl]. rewrite count_row_td by done.
      rewrite foldl_count_row_titled by done.
      cbn [n_columns n_rows column_names skip_first_tr td length].
      rewrite Hfilter. rewrite (decide_True (P := 0 = 0)) by done.
      rewrite (decide_False (P := titles = [])) by done.
      rewrite decide_False by lia. by f_equal; lia. }
    apply parse_html_table_inr. unfold written. rewrite Hcount.
    cbn [n_columns n_rows column_names skip_first_tr tail]. rewrite Hfilter.
    split; [intros [_ H]; by apply H|]. split; [lia|]. split; [done|].
    unfold df. rewrite decide_True by done. by rewrite Hcompleted.
Qed.

(** X22: [parse_html_table] raises its own exception, that the column titles
    do not match, when the titles are not as many as the cells of the first
    row with cells, and also when the table has titles and no row with
    cells. *)
Theorem parse_html_table_title_mismatch (titles : list string) (rows : list Row) :
  titles <> [] ->
  length titles
  <> default 0 (length ∘ td <$> head (filter (λ row, td row <> []) rows)) ->
  parse_html_table ({| th := titles; td := [] |} :: rows) = inl ColumnTitles.
Proof.
  intros Htitles Hwidth.
  assert (Hk : 0 < length titles) by (destruct titles; [done|cbn; lia]).
  assert (Hnames : column_names (count ({| th := titles; td := [] |} :: rows)) = titles).
  { unfold count. cbn [foldl]. rewrite count_row_th by done.
    by rewrite foldl_count_row_titled. }
  unfold parse_html_table. cbn zeta.
  rewrite n_columns_count, filter_cons.
  rewrite (decide_False (P := td _ <> [])) by (by intros H).
  rewrite Hnames. by rewrite decide_True.
Qed.

(** X23: a table that starts with a row holding no cell and no title, and
    has a row with cells further down, is never read: [parse_html_table]
    raises. *)
Theorem parse_html_table_leading_empty_row (rest : list Row) :
  Exists (λ row, td row <> []) rest ->
  exists e, parse_html_table ({| th := []; td := [] |} :: rest) = inl e.
Proof.
  intros Hex. set (rows := {| th := []; td := [] |} :: rest).
  destruct (parse_html_table rows) as [e|df] eqn:Hrun; [by eexists|]. exfalso.
  apply parse_html_table_inr in Hrun as (_ & Hlen & _).
  destruct (n_rows_written rows) as [_ Hlead]. specialize (Hlead rest eq_refl).
  assert (Hw : 0 < length (written rows)).
  { assert (Hsub : filter (λ row, td row <> []) rest = written rows).
    { unfold written, rows. destruct (skip_first_tr _); [done|].
      by rewrite filter_cons, decide_False by (by intros H). }
    rewrite <-Hsub. apply Exists_exists in Hex as (row & Hin & Hrow).
    assert (Hf : row ∈ filter (λ row, td row <> []) rest) by (by apply list_elem_of_filter).
    destruct (filter _ rest); [by apply elem_of_nil in Hf|cbn; lia]. }
  lia.
Qed.

End HtmlTableProperties.

Lemma parse_html_table_frame_witness :
  HtmlTable.cells
    {| HtmlTable.columns := HtmlTable.Title <$> HtmlTableExamples.titles;
       HtmlTable.cells := [[Some "15RR245"; Some "0.35"]; [Some "04PB112"; Some "1.20"]] |}
  = HtmlTable.completed (HtmlTable.n_columns (HtmlTable.count HtmlTableExamples.recon_table))
      ∘ HtmlTable.td <$> HtmlTable.written HtmlTableExamples.recon_table.
Proof.
  apply (parse_html_table_frame HtmlTableExamples.recon_table
           {| HtmlTable.columns := HtmlTable.Title <$> HtmlTableExamples.titles;
              HtmlTable.cells := [[Some "15RR245"; Some "0.35"];
                                  [Some "04PB112"; Some "1.20"]] |}).
  reflexivity.
Defined.

Lemma parse_html_table_titled_witness :
  HtmlTable.parse_html_table
    ({| HtmlTable.th := []; HtmlTable.td := HtmlTableExamples.titles |}
     :: HtmlTableExamples.objects)
  = inr {| HtmlTable.columns := HtmlTable.Title <$> HtmlTableExamples.titles;
           HtmlTable.cells := (fmap Some ∘ HtmlTable.td) <$> HtmlTableExamples.objects |}.
Proof.
  apply (parse_html_table_titled HtmlTableExamples.titles HtmlTableExamples.objects);
    [done|repeat constructor].
Defined.

Lemma parse_html_table_title_mismatch_witness :
  HtmlTable.parse_html_table
    [{| HtmlTable.th := HtmlTableExamples.titles; HtmlTable.td := [] |}]
  = inl HtmlTable.ColumnTitles.
Proof.
  apply (parse_html_table_title_mismatch HtmlTableExamples.titles []); done.
Defined.

Lemma parse_html_table_leading_empty_row_witness :
  exists e,
    HtmlTable.parse_html_table
      ({| HtmlTable.th := []; HtmlTable.td := [] |} :: HtmlTableExamples.recon_table)
    = inl e.
Proof.
  apply (parse_html_table_leading_empty_row HtmlTableExamples.recon_table).
  apply Exists_cons_tl, Exists_cons_hd. done.
Defined.

Section BuildEtFilesFacts.
Import BuildEtFiles.
Local Open Scope Z_scope.
Variables sun_set_time sun_rise_time : Z.
Variable lookup : string -> option (string * Z * Z).

#[local] Abbreviation window := (window sun_set_time sun_rise_time).
#[local] Abbreviation rows_loop := (rows_loop sun_set_time sun_rise_time lookup).
#[local] Abbreviation parse_recon_table := (parse_recon_table sun_set_time sun_rise_time lookup).

(** A row takes no branch of lines 205-227 when its target rises at the
    very second of sunset or of sunrise. *)
Lemma window_falls_through previous tr ts :
  sun_set_time <= sun_rise_time ->
  (tr = sun_set_time \/ tr = sun_rise_time) -> window previous tr ts = previous.
Proof.
  intros Hnight Htr. unfold BuildEtFiles.window.
  destruct (Z.gtb_spec tr sun_rise_time); [lia|].
  destruct (Z.ltb_spec tr sun_set_time); [lia|].
  destruct (Z.gtb_spec tr sun_set_time), (Z.ltb_spec tr sun_rise_time); simpl; (done || lia).
Qed.

Lemma window_branch previous tr ts :
  tr <> sun_set_time -> tr <> sun_rise_time -> sun_set_time <= sun_rise_time ->
  exists start end_, window previous tr ts = Some (start, end_).
Proof.
  intros H1 H2 Hnight. unfold BuildEtFiles.window.
  destruct (Z.gtb_spec tr sun_rise_time); [destruct (Z.gtb_spec ts sun_set_time); eauto|].
  destruct (Z.ltb_spec tr sun_set_time); [eauto|].
  destruct (Z.gtb_spec tr sun_set_time), (Z.ltb_spec tr sun_rise_time); simpl; eauto; lia.
Qed.

Lemma window_previous_Some w tr ts : is_Some (window (Some w) tr ts).
Proof.
  unfold BuildEtFiles.window. repeat case_match; by eexists.
Qed.

(** Once a row has left a window behind, no later row raises for want of
    one. *)
Lemma rows_loop_previous_Some rows count w good :
  Forall (λ row, is_Some (lookup row)) rows ->
  exists names, rows_loop rows count (Some w) good = inr names.
Proof.
  revert count w good. induction rows as [|row rows IH]; intros count w good Hall.
  - by eexists.
  - apply Forall_cons in Hall as [[[[name tr] ts] Hrow] Hall]. cbn. rewrite Hrow.
    destruct (window_previous_Some w tr ts) as [[start end_] ->].
    repeat case_match; eauto.
Qed.

(** The rows from the eighth on are never reached. *)
Lemma rows_loop_take rows count previous good :
  (count < max_per_iter)%nat ->
  rows_loop rows count previous good
  = rows_loop (take (max_per_iter - count) rows) count previous good.
Proof.
  revert count previous good. induction rows as [|row rows IH]; intros count previous good Hc.
  - by rewrite take_nil.
  - replace (max_per_iter - count)%nat with (S (max_per_iter - S count))
      by (unfold max_per_iter in *; lia).
    cbn [take BuildEtFiles.rows_loop].
    destruct (lookup row) as [[[name tr] ts]|]; [|done].
    destruct (window previous tr ts) as [[start end_]|]; [|done].
    destruct (decide (S count = max_per_iter)) as [Heq|Hne]; [done|].
    rewrite !(IH (S count)) by (unfold max_per_iter in *; lia). done.
Qed.

Lemma rows_loop_length rows count previous good names :
  rows_loop rows count previous good = inr names ->
  (count < max_per_iter)%nat ->
  (length names <= length good + (max_per_iter - count))%nat.
Proof.
  revert count previous good. induction rows as [|row rows IH]; intros count previous good.
  - intros [= <-]. lia.
  - cbn [BuildEtFiles.rows_loop].
    destruct (lookup row) as [[[name tr] ts]|]; [|done].
    destruct (window previous tr ts) as [[start end_]|]; [|done].
    destruct (Z.ltb_spec (end_ - start) 3600);
      destruct (decide (S count = max_per_iter)) as [Heq|Hne]; unfold max_per_iter in *.
    + intros [= <-]. lia.
    + intros Hrun Hc. apply IH in Hrun; lia.
    + intros [= <-] Hc. rewrite length_app. simpl. lia.
    + intros Hrun Hc. apply IH in Hrun; [|lia]. rewrite length_app in Hrun. simpl in Hrun. lia.
Qed.

End BuildEtFilesFacts.

Section BuildEtFilesProperties.
Import BuildEtFiles.
Local Open Scope Z_scope.

(** X17: a call of [parse_recon_table] of [build_et_files.py] looks at seven
    rows at most, those from row [7 * iter] on: the rows after them change
    nothing, and at most seven names are returned. *)
Theorem parse_recon_table_seven_rows
    (sun_set_time sun_rise_time : Z) (lookup : string -> option (string * Z * Z))
    (rows : list string) (iter : nat) :
  parse_recon_table sun_set_time sun_rise_time lookup rows iter
  = parse_recon_table sun_set_time sun_rise_time lookup
      (take 7 (drop (iter * 7) rows)) 0 /\
  (forall rows',
     take (iter * 7 + 7) rows' = take (iter * 7 + 7) rows ->
     parse_recon_table sun_set_time sun_rise_time lookup rows' iter
     = parse_recon_table sun_set_time sun_rise_time lookup rows iter) /\
  (forall names,
     parse_recon_table sun_set_time sun_rise_time lookup rows iter = inr names ->
     (length names <= 7)%nat).
Proof.
  assert (Hbatch : forall rows',
    parse_recon_table sun_set_time sun_rise_time lookup rows' iter
    = rows_loop sun_set_time sun_rise_time lookup (take 7 (drop (iter * 7) rows')) 0 None []).
  { intros rows'. unfold parse_recon_table. by rewrite rows_loop_take by (cbv; lia). }
  split; [|split].
  - rewrite Hbatch. unfold parse_recon_table. simpl drop.
    by rewrite (rows_loop_take _ _ _ (take 7 _)), take_take by (cbv; lia).
  - intros rows' Heq. rewrite !Hbatch. by rewrite !take_drop_commute, Heq.
  - intros names Hrun. apply rows_loop_length in Hrun; [|cbv; lia]. simpl in Hrun.
    unfold max_per_iter in Hrun. lia.
Qed.

(** X18: in [build_et_files.py] a target above the horizon in daytime only
    is no error, and the one way to reach line 229 without a window is the
    first row of the call with a target that rises at the very second of
    sunset or of sunrise: then the call raises, otherwise, the lookups
    succeeding, it returns. *)
Theorem parse_recon_table_unbound_window
    (sun_set_time sun_rise_time : Z) (lookup : string -> option (string * Z * Z))
    (rows rest : list string) (iter : nat) (row name : string)
    (target_rise_time target_set_time : Z) :
  sun_set_time <= sun_rise_time ->
  drop (iter * 7) rows = row :: rest ->
  lookup row = Some (name, target_rise_time, target_set_time) ->
  Forall (λ row, is_Some (lookup row)) rest ->
  ((target_rise_time = sun_set_time \/ target_rise_time = sun_rise_time) ->
   parse_recon_table sun_set_time sun_rise_time lookup rows iter = inl UnboundLocalError) /\
  (target_rise_time <> sun_set_time -> target_rise_time <> sun_rise_time ->
   exists names,
     parse_recon_table sun_set_time sun_rise_time lookup rows iter = inr names) /\
  (target_rise_time > sun_rise_time -> target_set_time <= sun_set_time ->
   window sun_set_time sun_rise_time None target_rise_time target_set_time
   = Some (target_set_time, target_set_time) /\
   parse_recon_table sun_set_time sun_rise_time lookup rows iter
   = rows_loop sun_set_time sun_rise_time lookup rest 1
       (Some (target_set_time, target_set_time)) []).
Proof.
  intros Hnight Hrows Hrow Hrest. unfold parse_recon_table.
  change (iter * max_per_iter)%nat with (iter * 7)%nat. rewrite Hrows.
  cbn [rows_loop]. rewrite Hrow. split; [|split].
  - intros Htie. by rewrite window_falls_through.
  - intros H1 H2.
    destruct (window_branch sun_set_time sun_rise_time None target_rise_time
                target_set_time H1 H2 Hnight) as (start & end_ & ->).
    destruct (Z.ltb_spec (end_ - start) 3600);
      (destruct (decide (1%nat = max_per_iter)) as [Heq|_]; [done|]);
      by apply rows_loop_previous_Some.
  - intros Hr Hs.
    assert (Hw : window sun_set_time sun_rise_time None target_rise_time target_set_time
                 = Some (target_set_time, target_set_time)).
    { unfold window. destruct (Z.gtb_spec target_rise_time sun_rise_time); [|lia].
      destruct (Z.gtb_spec target_set_time sun_set_time); [lia|done]. }
    split; [done|]. rewrite Hw.
    replace (target_set_time - target_set_time) with 0 by lia. done.
Qed.

(** X19: in [build_et_files.py] a target that rises at the very second of
    sunset or of sunrise is judged by the window of the row before it: it is
    kept when that window lasts more than an hour and skipped when it lasts
    less, whatever its own set time. (The test of line 230 compares hours
    computed in floats, which a window of exactly one hour may pass or fail:
    the window of the row before is taken not to last exactly one hour.) *)
Theorem tied_row_reuses_previous_window
    (sun_set_time sun_rise_time : Z) (lookup : string -> option (string * Z * Z))
    (row name : string) (rows : list string) (count : nat)
    (start end_ target_rise_time target_set_time : Z) (good_targets : list string) :
  sun_set_time <= sun_rise_time ->
  lookup row = Some (name, target_rise_time, target_set_time) ->
  (target_rise_time = sun_set_time \/ target_rise_time = sun_rise_time) ->
  S count <> max_per_iter ->
  end_ - start <> 3600 ->
  rows_loop sun_set_time sun_rise_time lookup (row :: rows) count
    (Some (start, end_)) good_targets
  = rows_loop sun_set_time sun_rise_time lookup rows (S count) (Some (start, end_))
      (if decide (3600 < end_ - start) then good_targets ++ [name] else good_targets).
Proof.
  intros Hnight Hrow Htie Hcount Hhour. cbn [rows_loop]. rewrite Hrow.
  rewrite window_falls_through by done.
  destruct (Z.ltb_spec (end_ - start) 3600); rewrite (decide_False (P := S count = _)) by done.
  - by rewrite decide_False by lia.
  - by rewrite decide_True by lia.
Qed.

End BuildEtFilesProperties.

Lemma parse_recon_table_unbound_window_witness :
  BuildEtFiles.parse_recon_table 18000 57600 BuildEtFilesExamples.catalogue
    ["dusk"; "night"] 0 = inl BuildEtFiles.UnboundLocalError.
Proof.
  apply (parse_recon_table_unbound_window 18000 57600 BuildEtFilesExamples.catalogue
           ["dusk"; "night"] ["night"] 0 "dusk" "2004 PB112" 18000 19000);
    [lia|reflexivity|reflexivity| |by left].
  repeat constructor. by eexists.
Defined.

Lemma tied_row_reuses_previous_window_witness :
  BuildEtFiles.rows_loop 18000 57600 BuildEtFilesExamples.catalogue ["dusk"] 1
    (Some (21600, 43200)%Z) ["2015 RR245"]
  = BuildEtFiles.rows_loop 18000 57600 BuildEtFilesExamples.catalogue [] 2
      (Some (21600, 43200)%Z)
      (if decide (3600 < 43200 - 21600)%Z then ["2015 RR245"] ++ ["2004 PB112"]
       else ["2015 RR245"]).
Proof.
  apply (tied_row_reuses_previous_window 18000 57600 BuildEtFilesExamples.catalogue
           "dusk" "2004 PB112" [] 1 21600 43200 18000 19000 ["2015 RR245"]);
    [lia|reflexivity|by left|done|lia].
Defined.

(** ** The ephemeris loop *)

Section EphemerisFacts.
Import MinorPlanetEphemeris.
Local Open Scope Z_scope.
Variable sun : Z -> Body.
Variable predict : Z -> option SkyCoord.
Variable fixed_body : SkyCoord -> Z -> Body.
Variables start_time stop_time step_size : Z.

#[local] Abbreviation pass := (pass sun predict fixed_body step_size).
#[local] Abbreviation while := (while sun predict fixed_body stop_time step_size).
#[local] Abbreviation passes := (passes start_time stop_time step_size).
#[local] Abbreviation time_of := (time_of start_time step_size).
#[local] Abbreviation point_at := (point_at sun predict fixed_body).
#[local] Abbreviation points := (points sun predict fixed_body start_time step_size).

Lemma target_up_spec fb_rise_time current_time fb_set_time :
  target_up fb_rise_time current_time fb_set_time = true <->
  current_time < fb_set_time /\ current_time <> fb_rise_time.
Proof.
  unfold target_up.
  destruct (Z.ltb_spec fb_rise_time current_time), (Z.ltb_spec current_time fb_set_time),
    (Z.ltb_spec fb_set_time current_time), (Z.gtb_spec fb_rise_time current_time),
    (Z.gtb_spec fb_set_time current_time), (Z.gtb_spec current_time fb_set_time);
    simpl; split; try done; try lia.
Qed.

Lemma sun_down_spec current_time sun_set sun_rise :
  sun_down current_time sun_set sun_rise = true <-> sun_set <= current_time <= sun_rise.
Proof.
  unfold sun_down.
  destruct (Z.ltb_spec current_time sun_set), (Z.gtb_spec current_time sun_rise);
    simpl; split; try done; lia.
Qed.

(** The state the loop is in after [k] passes. *)
#[local] Abbreviation after k := {| current_time := time_of k; et := points k |}.

Lemma points_S k :
  points (S k) = points k ++ option_list (point_at (time_of k)).
Proof.
  unfold MinorPlanetEphemeris.points. rewrite seq_S, omap_app. simpl.
  by destruct (MinorPlanetEphemeris.point_at _ _ _ _).
Qed.

Lemma pass_after k :
  is_Some (predict (time_of k)) -> pass (after k) = Some (after (S k)).
Proof.
  intros [c Hc]. unfold MinorPlanetEphemeris.pass. cbn [current_time et].
  rewrite Hc. cbn [mbind option_bind]. f_equal.
  rewrite points_S. unfold MinorPlanetEphemeris.point_at. rewrite Hc.
  cbn [mbind option_bind].
  assert (Ht : time_of k + step_size = time_of (S k))
    by (unfold MinorPlanetEphemeris.time_of; lia).
  rewrite Ht. f_equal. case_match; [done|]. by rewrite app_nil_r.
Qed.

Lemma time_of_passes k :
  0 < step_size -> time_of k < stop_time <-> (k < passes)%nat.
Proof.
  intros Hstep. unfold MinorPlanetEphemeris.time_of, MinorPlanetEphemeris.passes.
  set (D := stop_time - start_time).
  replace (stop_time - start_time + step_size - 1) with (D + step_size - 1) by (unfold D; lia).
  pose proof (Z.div_mod (D + step_size - 1) step_size) as Hdm.
  pose proof (Z.mod_pos_bound (D + step_size - 1) step_size Hstep) as Hm.
  set (q := (D + step_size - 1) / step_size) in *.
  assert (Hk : start_time + Z.of_nat k * step_size < stop_time <-> Z.of_nat k < q).
  { unfold D in *. split; intros H; nia. }
  rewrite Hk. lia.
Qed.

Lemma while_saved fuel k :
  0 < step_size -> (forall i, (i < passes)%nat -> is_Some (predict (time_of i))) ->
  (k <= passes)%nat -> (passes <= k + fuel)%nat ->
  while fuel (after k) = Saved (points passes).
Proof.
  intros Hstep Hpred. revert k. induction fuel as [|fuel IH]; intros k Hk Hfuel.
  - assert (k = passes) as -> by lia. simpl.
    destruct (Z.ltb_spec (time_of passes) stop_time) as [Hlt|]; [|done].
    apply time_of_passes in Hlt; [lia|done].
  - cbn [MinorPlanetEphemeris.while current_time et].
    destruct (Z.ltb_spec (time_of k) stop_time) as [Hlt|Hge].
    + apply time_of_passes in Hlt; [|done].
      rewrite pass_after by auto. apply IH; lia.
    + assert (k = passes) as ->; [|done].
      rewrite <-Z.nlt_ge, time_of_passes in Hge by done. lia.
Qed.

Lemma while_running fuel k :
  0 < step_size -> (forall i, (i < passes)%nat -> is_Some (predict (time_of i))) ->
  (k + fuel < passes)%nat ->
  while fuel (after k) = Running (after (k + fuel)).
Proof.
  intros Hstep Hpred. revert k. induction fuel as [|fuel IH]; intros k Hfuel.
  - simpl. rewrite (proj2 (Z.ltb_lt _ _)) by (apply time_of_passes; [done|lia]).
    by rewrite Nat.add_0_r.
  - cbn [MinorPlanetEphemeris.while current_time et].
    rewrite (proj2 (Z.ltb_lt _ _)) by (apply time_of_passes; [done|lia]).
    rewrite pass_after by (apply Hpred; lia).
    rewrite IH by lia. by rewrite Nat.add_succ_r.
Qed.

(** If a prediction fails on the way, the loop raises. *)
Lemma while_raised fuel k j :
  0 < step_size -> (forall i, (i < j)%nat -> is_Some (predict (time_of i))) ->
  predict (time_of j) = None -> (j < passes)%nat ->
  (k <= j)%nat -> (j < k + fuel)%nat ->
  while fuel (after k) = Raised.
Proof.
  intros Hstep Hpred Hj Hjn. revert k. induction fuel as [|fuel IH]; intros k Hk Hfuel; [lia|].
  cbn [MinorPlanetEphemeris.while current_time et].
  rewrite (proj2 (Z.ltb_lt _ _)) by (apply time_of_passes; [done|lia]).
  destruct (decide (k = j)) as [->|Hne].
  - unfold MinorPlanetEphemeris.pass. cbn [current_time]. by rewrite Hj.
  - rewrite pass_after by (apply Hpred; lia). apply IH; lia.
Qed.

(** With a step that does not advance, the loop never reaches [et.save()]. *)
Lemma while_not_saved fuel st et' :
  step_size <= 0 -> current_time st < stop_time -> while fuel st <> Saved et'.
Proof.
  intros Hstep. revert st. induction fuel as [|fuel IH]; intros st Hlt; simpl;
    rewrite (proj2 (Z.ltb_lt _ _)) by done; [done|].
  destruct (MinorPlanetEphemeris.pass _ _ _ _ st) as [st'|] eqn:Hpass; [|done].
  apply IH. unfold MinorPlanetEphemeris.pass in Hpass.
  destruct (predict _); simplify_eq/=. lia.
Qed.

Lemma elem_of_points p n :
  p ∈ points n <->
  exists k c, (k < n)%nat /\ predict (time_of k) = Some c /\
    let fb := fixed_body c (time_of k) in
    p = {| coordinate := c; point_mag := mag fb; obstime := time_of k |} /\
    time_of k < set_time fb /\ time_of k <> rise_time fb /\
    set_time (sun (time_of k)) <= time_of k <= rise_time (sun (time_of k)).
Proof.
  unfold MinorPlanetEphemeris.points. rewrite list_elem_of_omap. split.
  - intros (k & Hk & Hp). apply elem_of_seq in Hk.
    unfold MinorPlanetEphemeris.point_at in Hp.
    destruct (predict (time_of k)) as [c|] eqn:Hc; [|done]. cbn in Hp.
    destruct (target_up _ _ _) eqn:Hup; [|done].
    destruct (sun_down _ _ _) eqn:Hdown; [|done]. simplify_eq/=.
    apply target_up_spec in Hup. apply sun_down_spec in Hdown.
    exists k, c. repeat split; try done; lia.
  - intros (k & c & Hk & Hc & -> & Hset & Hrise & Hsun).
    exists k. split; [apply elem_of_seq; lia|].
    unfold MinorPlanetEphemeris.point_at. rewrite Hc. cbn.
    rewrite (proj2 (target_up_spec _ _ _)), (proj2 (sun_down_spec _ _ _)) by done.
    done.
Qed.

End EphemerisFacts.

Section EphemerisProperties.
Import MinorPlanetEphemeris.
Local Open Scope Z_scope.

(** X9: the four tests of [build_ephem_files] count the target as up exactly
    when the current time is before its set time and is not its rise time;
    in particular a target that is still to rise, and to set after that,
    counts as up. *)
Theorem target_up_before_set_time (fb_rise_time current_time fb_set_time : Z) :
  (target_up fb_rise_time current_time fb_set_time = true <->
   current_time < fb_set_time /\ current_time <> fb_rise_time) /\
  (current_time < fb_rise_time < fb_set_time ->
   target_up fb_rise_time current_time fb_set_time = true) /\
  (fb_set_time < fb_rise_time < current_time ->
   target_up fb_rise_time current_time fb_set_time = false).
Proof.
  split; [apply target_up_spec|]. split.
  - intros H. apply target_up_spec. lia.
  - intros H. apply not_true_is_false. rewrite target_up_spec. lia.
Qed.

(** X10: with a positive step and a Horizons query that answers,
    [build_ephem_files] visits the times [start_time + k * step_size] below
    [stop_time], leaves its loop after ceil((stop - start) / step) passes and
    saves, in order, one point for each visited time at which the sun is
    down and the target counts as up. The program steps its time in floats
    (line 70), and where a time it has stepped to falls on the very second
    of a time it is compared with, the rounding decides the comparison: the
    times after the first are taken to fall on none of these seconds (the
    stop time, the rise and set times of the sun and of the target). *)
Theorem build_ephem_files_saves_visited_points
    (sun : Z -> Body) (predict : Z -> option SkyCoord)
    (fixed_body : SkyCoord -> Z -> Body) (start_time stop_time step_size : Z) :
  let passes := passes start_time stop_time step_size in
  let time_of := time_of start_time step_size in
  let run := build_ephem_files sun predict fixed_body start_time stop_time step_size in
  let points := points sun predict fixed_body start_time step_size in
  0 < step_size ->
  is_Some (predict start_time) ->
  (forall k, (k < passes)%nat -> is_Some (predict (time_of k))) ->
  (forall k, (1 <= k <= passes)%nat ->
     time_of k <> stop_time /\
     time_of k <> set_time (sun (time_of k)) /\
     time_of k <> rise_time (sun (time_of k)) /\
     forall c, predict (time_of k) = Some c ->
       time_of k <> rise_time (fixed_body c (time_of k)) /\
       time_of k <> set_time (fixed_body c (time_of k))) ->
  (forall fuel, (passes <= fuel)%nat -> run fuel = Saved (points passes)) /\
  (forall fuel, (fuel < passes)%nat ->
     run fuel = Running {| current_time := time_of fuel; et := points fuel |}) /\
  (forall k, time_of k < stop_time <-> (k < passes)%nat) /\
  (forall p, p ∈ points passes <->
     exists k c, (k < passes)%nat /\ predict (time_of k) = Some c /\
       let fb := fixed_body c (time_of k) in
       p = {| coordinate := c; point_mag := mag fb; obstime := time_of k |} /\
       time_of k < set_time fb /\ time_of k <> rise_time fb /\
       set_time (sun (time_of k)) <= time_of k <= rise_time (sun (time_of k))).
Proof.
  intros passes time_of run points Hstep [c0 Hc0] Hpred _.
  assert (Hstart : {| current_time := start_time; et := [] |}
                   = {| current_time := time_of 0%nat; et := points 0%nat |}).
  { unfold time_of, MinorPlanetEphemeris.time_of. f_equal. lia. }
  split; [|split; [|split]].
  - intros fuel Hfuel. unfold run, build_ephem_files. rewrite Hc0, Hstart.
    apply while_saved; [done|done|lia|lia].
  - intros fuel Hfuel. unfold run, build_ephem_files. rewrite Hc0, Hstart.
    apply (while_running sun predict fixed_body start_time stop_time step_size fuel 0);
      [done|done|]. fold passes. lia.
  - intros k. by apply time_of_passes.
  - intros p. apply elem_of_points.
Qed.

(** X11: with a step that is zero or negative and a start before the stop,
    [build_ephem_files] never leaves its loop by the loop condition: nothing
    is ever saved. *)
Theorem build_ephem_files_needs_positive_step
    (sun : Z -> Body) (predict : Z -> option SkyCoord)
    (fixed_body : SkyCoord -> Z -> Body) (start_time stop_time step_size : Z) :
  step_size <= 0 -> start_time < stop_time ->
  ~ exists fuel et,
      build_ephem_files sun predict fixed_body start_time stop_time step_size fuel
      = Saved et.
Proof.
  intros Hstep Hlt (fuel & et' & Hrun). revert Hrun. unfold build_ephem_files.
  destruct (predict start_time); [|done].
  by apply while_not_saved.
Qed.

(** X12: a Horizons query that raises at one of the visited times makes
    [build_ephem_files] raise: the points appended before are not saved. *)
Theorem build_ephem_files_failed_query
    (sun : Z -> Body) (predict : Z -> option SkyCoord)
    (fixed_body : SkyCoord -> Z -> Body) (start_time stop_time step_size : Z)
    (j : nat) :
  let time_of := time_of start_time step_size in
  0 < step_size ->
  (j < passes start_time stop_time step_size)%nat ->
  (forall i, (i < j)%nat -> is_Some (predict (time_of i))) ->
  predict (time_of j) = None ->
  forall fuel, (j < fuel)%nat ->
    build_ephem_files sun predict fixed_body start_time stop_time step_size fuel = Raised.
Proof.
  intros time_of Hstep Hj Hpred Hnone fuel Hfuel. unfold build_ephem_files.
  assert (Ht0 : time_of 0%nat = start_time)
    by (unfold time_of, MinorPlanetEphemeris.time_of; lia).
  destruct (predict start_time) as [c0|] eqn:Hc0; [|done].
  assert (Hstart : {| current_time := start_time; et := [] |}
                   = {| current_time := time_of 0%nat;
                        et := points sun predict fixed_body start_time step_size 0 |}).
  { by rewrite Ht0. }
  rewrite Hstart. apply (while_raised _ _ _ _ _ _ fuel 0%nat j); try done; lia.
Qed.

End EphemerisProperties.

Lemma build_ephem_files_saves_visited_points_witness :
  MinorPlanetEphemeris.build_ephem_files EphemerisExamples.night EphemerisExamples.always
    EphemerisExamples.steady 19500 26000 1800 4
  = MinorPlanetEphemeris.Saved
      (MinorPlanetEphemeris.points EphemerisExamples.night EphemerisExamples.always
         EphemerisExamples.steady 19500 1800 4).
Proof.
  apply (build_ephem_files_saves_visited_points EphemerisExamples.night
           EphemerisExamples.always EphemerisExamples.steady 19500 26000 1800);
    [lia|by eexists|by eexists| |reflexivity].
  intros k Hk. change (MinorPlanetEphemeris.passes 19500 26000 1800) with 4%nat in Hk.
  assert (k = 1 \/ k = 2 \/ k = 3 \/ k = 4)%nat as [->|[->|[->| ->]]] by lia;
    repeat split; by vm_compute.
Defined.

Lemma build_ephem_files_needs_positive_step_witness :
  ~ exists fuel et,
      MinorPlanetEphemeris.build_ephem_files EphemerisExamples.night EphemerisExamples.always
        EphemerisExamples.steady 19800 27000 0 fuel
      = MinorPlanetEphemeris.Saved et.
Proof.
  apply (build_ephem_files_needs_positive_step EphemerisExamples.night
           EphemerisExamples.always EphemerisExamples.steady 19800 27000 0); lia.
Defined.

Lemma build_ephem_files_failed_query_witness :
  MinorPlanetEphemeris.build_ephem_files EphemerisExamples.night EphemerisExamples.early
    EphemerisExamples.steady 19800 27000 1800 4
  = MinorPlanetEphemeris.Raised.
Proof.
  apply (build_ephem_files_failed_query EphemerisExamples.night EphemerisExamples.early
           EphemerisExamples.steady 19800 27000 1800 2); [lia|vm_compute; lia| |reflexivity|lia].
  intros i Hi. assert (i = 0 \/ i = 1)%nat as [->| ->] by lia; by eexists.
Defined.

(** ** Packed designations *)

Section MpcreadFacts.
Import Mpcread.
Local Open Scope Z_scope.

Lemma digits_value_from_app acc s1 s2 :
  digits_value_from acc (s1 +:+ s2) = digits_value_from (digits_value_from acc s1) s2.
Proof. revert acc. induction s1 as [|c s1 IH]; intros acc; simpl; [done|apply IH]. Qed.

Lemma all_digits_app s1 s2 : all_digits (s1 +:+ s2) = all_digits s1 && all_digits s2.
Proof. induction s1 as [|c s1 IH]; simpl; [done|]. by rewrite IH, andb_assoc. Qed.

Lemma string_app_cons c s1 s2 : String c s1 +:+ s2 = String c (s1 +:+ s2).
Proof. reflexivity. Qed.

Lemma string_app_assoc s1 s2 s3 : (s1 +:+ s2) +:+ s3 = s1 +:+ (s2 +:+ s3).
Proof. induction s1 as [|c s1 IH]; [done|]. by rewrite !string_app_cons, IH. Qed.

Lemma string_length_app s1 s2 :
  String.length (s1 +:+ s2) = (String.length s1 + String.length s2)%nat.
Proof. induction s1 as [|c s1 IH]; simpl; [done|]. by rewrite IH. Qed.

Lemma pretty_N_char_digit x :
  (x < 10)%N ->
  is_digit (pretty_N_char x) = true /\ digit_value (pretty_N_char x) = Z.of_N x.
Proof.
  intros Hx.
  assert (x = 0 \/ x = 1 \/ x = 2 \/ x = 3 \/ x = 4 \/ x = 5 \/ x = 6 \/ x = 7
          \/ x = 8 \/ x = 9)%N as Hc by lia.
  repeat destruct Hc as [->|Hc]; try subst x; done.
Qed.

Lemma pretty_N_go_app x s : pretty_N_go x s = pretty_N_go x EmptyString +:+ s.
Proof.
  revert s. induction (N.lt_wf_0 x) as [x _ IH]; intros s.
  destruct (decide (x = 0)%N) as [->|Hx]; [done|].
  assert (Hlt : (x `div` 10 < x)%N) by (apply N.div_lt; lia).
  rewrite !(pretty_N_go_step x) by lia.
  rewrite (IH _ Hlt (String _ s)), (IH _ Hlt (String _ EmptyString)).
  by rewrite string_app_assoc.
Qed.

Lemma pretty_N_go_snoc x :
  (0 < x)%N ->
  pretty_N_go x EmptyString
  = pretty_N_go (x `div` 10) EmptyString
    +:+ String (pretty_N_char (x `mod` 10)) EmptyString.
Proof. intros Hx. by rewrite pretty_N_go_step, pretty_N_go_app. Qed.

Lemma pretty_N_go_digits x :
  all_digits (pretty_N_go x EmptyString) = true /\
  digits_value (pretty_N_go x EmptyString) = Z.of_N x.
Proof.
  induction (N.lt_wf_0 x) as [x _ IH].
  destruct (decide (x = 0)%N) as [->|Hx]; [done|].
  rewrite pretty_N_go_snoc by lia.
  destruct (IH (x `div` 10)%N) as [Hd Hv]; [apply N.div_lt; lia|].
  destruct (pretty_N_char_digit (x `mod` 10)) as [Hcd Hcv]; [by apply N.mod_lt|].
  split.
  - rewrite all_digits_app, Hd. simpl. by rewrite Hcd.
  - unfold digits_value in *. rewrite digits_value_from_app, Hv. simpl. rewrite Hcv.
    rewrite (N.div_mod x 10) at 3 by done. lia.
Qed.

Lemma pretty_N_go_length x (k : nat) :
  (x < 10 ^ N.of_nat k)%N -> (String.length (pretty_N_go x EmptyString) <= k)%nat.
Proof.
  revert x. induction k as [|k IH]; intros x Hx.
  - assert (x = 0%N) as -> by (simpl in Hx; lia). done.
  - destruct (decide (x = 0)%N) as [->|Hx0]; [simpl; lia|].
    rewrite pretty_N_go_snoc, string_length_app by lia. simpl.
    assert (x `div` 10 < 10 ^ N.of_nat k)%N.
    { apply N.Div0.div_lt_upper_bound.
      rewrite Nat2N.inj_succ, N.pow_succ_r' in Hx. lia. }
    specialize (IH _ H). lia.
Qed.

Lemma pretty_Z_pos n : 0 < n -> pretty n = pretty_N_go (Z.to_N n) EmptyString.
Proof.
  destruct n as [|p|p]; [lia| |lia]. intros _.
  unfold pretty at 1, pretty_Z, pretty, pretty_positive, pretty, pretty_N.
  by rewrite decide_False.
Qed.

Lemma pretty_Z_digits n :
  0 <= n ->
  pretty n <> EmptyString /\ all_digits (pretty n) = true /\ digits_value (pretty n) = n.
Proof.
  intros Hn. destruct (decide (n = 0)) as [->|Hn0]; [done|].
  rewrite pretty_Z_pos by lia.
  destruct (pretty_N_go_digits (Z.to_N n)) as [Hd Hv].
  split; [|split; [done|rewrite Hv; lia]].
  rewrite pretty_N_go_snoc by lia. intros H.
  apply (f_equal String.length) in H. rewrite string_length_app in H. simpl in H. lia.
Qed.

Lemma pretty_Z_length n (k : nat) :
  0 <= n < 10 ^ Z.of_nat k -> (0 < k)%nat -> (String.length (pretty n) <= k)%nat.
Proof.
  intros Hn Hk. destruct (decide (n = 0)) as [->|Hn0]; [simpl; lia|].
  rewrite pretty_Z_pos by lia. apply pretty_N_go_length.
  apply N2Z.inj_lt. rewrite N2Z.inj_pow, Z2N.id, nat_N_Z by lia. simpl. lia.
Qed.

End MpcreadFacts.

Section MpcreadTables.
Import Mpcread.
Local Open Scope Z_scope.

Lemma getitem_nonneg s i : 0 <= i -> getitem s i = String.get (Z.to_nat i) s.
Proof. intros Hi. unfold getitem. by rewrite (proj2 (Z.leb_le 0 i) Hi). Qed.

(** The literal indices of the source. *)
Lemma getitem_0 s : getitem s 0 = String.get 0 s.
Proof. reflexivity. Qed.
Lemma getitem_3 s : getitem s 3 = String.get 3 s.
Proof. reflexivity. Qed.
Lemma getitem_4 s : getitem s 4 = String.get 4 s.
Proof. reflexivity. Qed.
Lemma getitem_5 s : getitem s 5 = String.get 5 s.
Proof. reflexivity. Qed.
Lemma getitem_6 s : getitem s 6 = String.get 6 s.
Proof. reflexivity. Qed.

Lemma string_get_length s (k : nat) c : String.get k s = Some c -> (k < String.length s)%nat.
Proof.
  revert k. induction s as [|x s IH]; intros [|k]; simpl; try done; [lia|].
  intros H. apply IH in H. lia.
Qed.

Lemma string_get_is_Some s (k : nat) : (k < String.length s)%nat -> is_Some (String.get k s).
Proof.
  revert k. induction s as [|x s IH]; intros [|k]; simpl; try lia; [by eexists|].
  intros Hk. apply IH. lia.
Qed.

Lemma rfind_get s c (i : nat) : rfind s c = Some i -> String.get i s = Some c.
Proof.
  revert i. induction s as [|x s IH]; intros i; simpl; [done|].
  destruct (rfind s c) as [j|].
  - intros [= <-]. by apply IH.
  - case_decide; [|done]. intros [= <-]. by subst.
Qed.

(** Every character of [Ncode] stands at one index only. *)
Lemma Ncode_rfind i c :
  0 <= i -> getitem Ncode i = Some c -> rfind Ncode c = Some (Z.to_nat i).
Proof.
  intros Hi. rewrite getitem_nonneg by done. intros Hc.
  assert (Hall : Forall (λ k, String.get k Ncode ≫= rfind Ncode = Some k) (seq 0 62))
    by (apply (bool_decide_unpack _); by vm_compute).
  rewrite Forall_forall in Hall. specialize (Hall (Z.to_nat i)).
  rewrite Hc in Hall. apply Hall, elem_of_seq.
  apply string_get_length in Hc. simpl in Hc. lia.
Qed.

(** From index 10 on, [Ncode] runs through the letters of [Kilo]. *)
Lemma Ncode_Kilo i c :
  10 <= i -> getitem Ncode i = Some c ->
  rfind Kilo c = Some (Z.to_nat i - 10)%nat /\ is_digit c = false.
Proof.
  intros Hi. rewrite getitem_nonneg by lia. intros Hc.
  assert (Hall : Forall (λ k, (c ← String.get k Ncode; Some (rfind Kilo c, is_digit c))
                              = Some (Some (k - 10)%nat, false)) (seq 10 52))
    by (apply (bool_decide_unpack _); by vm_compute).
  rewrite Forall_forall in Hall. specialize (Hall (Z.to_nat i)).
  rewrite Hc in Hall. simpl in Hall.
  assert (Hin : Z.to_nat i ∈ seq 10 52).
  { apply elem_of_seq. apply string_get_length in Hc. simpl in Hc. lia. }
  specialize (Hall Hin). by simplify_eq.
Qed.

Lemma Ncode_lookup i : 0 <= i < 62 -> is_Some (getitem Ncode i).
Proof.
  intros Hi. rewrite getitem_nonneg by lia.
  apply string_get_is_Some. simpl. lia.
Qed.

Lemma Ncode_out_of_range i : 62 <= i -> getitem Ncode i = None.
Proof.
  intros Hi. rewrite getitem_nonneg by lia.
  destruct (String.get _ _) as [c|] eqn:Hc; [|done].
  apply string_get_length in Hc. simpl in Hc. lia.
Qed.

Lemma all_digits_zero_fill k s : all_digits (zero_fill k s) = all_digits s.
Proof.
  unfold zero_fill. rewrite all_digits_app.
  by induction (k - String.length s)%nat as [|n IH].
Qed.

Lemma digits_value_zero_fill k s : digits_value (zero_fill k s) = digits_value s.
Proof.
  unfold zero_fill, digits_value. rewrite digits_value_from_app. f_equal.
  by induction (k - String.length s)%nat as [|n IH].
Qed.

Lemma length_zero_fill k s :
  String.length (zero_fill k s) = (k `max` String.length s)%nat.
Proof.
  unfold zero_fill. rewrite string_length_app.
  assert (String.length (string_of_list_ascii
            (replicate (k - String.length s) "0"%char)) = (k - String.length s)%nat).
  { induction (k - String.length s)%nat as [|n IH]; simpl; [done|by rewrite IH]. }
  lia.
Qed.

Lemma match_digits_all s : s <> EmptyString -> all_digits s = true -> match_digits s = true.
Proof.
  induction s as [|c s IH]; [done|]. intros _. simpl.
  intros [Hc Hs]%andb_prop. rewrite Hc. simpl.
  destruct s as [|c' [|c'' s]]; [done| |].
  - simpl in Hs. apply andb_prop in Hs as [-> _]. done.
  - by apply IH.
Qed.

Lemma slice_to_all s (k : nat) : (String.length s <= k)%nat -> slice_to k s = s.
Proof.
  revert k. induction s as [|c s IH]; intros [|k]; simpl; try done; [lia|].
  intros Hk. rewrite IH; [done|lia].
Qed.

Lemma format_04d_digits r :
  0 <= r < 10000 ->
  String.length (format_04d r) = 4%nat /\ all_digits (format_04d r) = true /\
  digits_value (format_04d r) = r.
Proof.
  intros Hr. unfold format_04d. rewrite (proj2 (Z.ltb_ge r 0)) by lia.
  destruct (pretty_Z_digits r) as (Hne & Hd & Hv); [lia|].
  rewrite all_digits_zero_fill, digits_value_zero_fill, length_zero_fill.
  split; [|done].
  pose proof (pretty_Z_length r 4). lia.
Qed.

End MpcreadTables.

Section MpcreadDesignations.
Import Mpcread.
Local Open Scope Z_scope.
Variable int : string -> option Z.
Context `{!IntSpec int}.

#[local] Abbreviation desig_pack := (desig_pack int).
#[local] Abbreviation desig_unpack := (desig_unpack int).

Lemma div_sub_mod a b : (a - a mod b) / b = a / b.
Proof.
  destruct (decide (b = 0)) as [->|Hb]; [by rewrite !Z.div_0_r|].
  rewrite (Z.div_mod a b) at 1 by done.
  by rewrite Z.add_simpl_r, Z.mul_comm, Z.div_mul.
Qed.

Lemma int_pretty n : 0 <= n -> int (pretty n) = Some n.
Proof.
  intros Hn. destruct (pretty_Z_digits n Hn) as (Hne & Hd & Hv).
  by rewrite int_digits, Hv.
Qed.

Lemma match_digits_prefix_digits s :
  s <> EmptyString -> all_digits s = true -> match_digits_prefix s = true.
Proof. destruct s as [|c s]; [done|]. simpl. by intros _ [-> _]%andb_prop. Qed.

Lemma desig_pack_small n : 0 <= n < 100000 -> desig_pack (pretty n) = inr (pretty n).
Proof.
  intros Hn. unfold desig_pack, Mpcread.desig_pack, desig_pack_number.
  rewrite int_pretty by lia. simpl.
  by rewrite (proj2 (Z.ltb_lt n 100000)) by lia.
Qed.

Lemma desig_unpack_number n : 0 <= n -> desig_unpack (pretty n) = inr (pretty n).
Proof.
  intros Hn. unfold desig_unpack, Mpcread.desig_unpack.
  destruct (pretty_Z_digits n Hn) as (Hne & Hd & Hv).
  rewrite match_digits_prefix_digits, int_pretty by done. done.
Qed.

Lemma desig_pack_large n :
  100000 <= n < 620000 ->
  exists pow, getitem Ncode (n / 10000) = Some pow /\
    desig_pack (pretty n) = inr (String pow (format_04d (n mod 10000))).
Proof.
  intros Hn. destruct (Ncode_lookup (n / 10000)) as [pow Hpow].
  { split; [apply Z.div_pos; lia|apply Z.div_lt_upper_bound; lia]. }
  exists pow. split; [done|].
  unfold desig_pack, Mpcread.desig_pack, desig_pack_number.
  rewrite int_pretty by lia. simpl.
  rewrite (proj2 (Z.ltb_ge n 100000)) by lia.
  by rewrite div_sub_mod, Hpow.
Qed.

Lemma desig_unpack_large n pow :
  100000 <= n < 620000 -> getitem Ncode (n / 10000) = Some pow ->
  desig_unpack (String pow (format_04d (n mod 10000))) = inr (pretty n).
Proof.
  intros Hn Hpow.
  assert (Hq : 10 <= n / 10000) by (apply Z.div_le_lower_bound; lia).
  destruct (Ncode_Kilo _ _ Hq Hpow) as [Hj Hnd].
  destruct (format_04d_digits (n mod 10000)) as (Hlen & Hd & Hv).
  { apply Z.mod_pos_bound. lia. }
  unfold desig_unpack, Mpcread.desig_unpack. cbn [match_digits_prefix].
  rewrite Hnd, getitem_0. cbn [String.get or_raise mbind exception_bind].
  rewrite Hj.
  assert (Hs : slice 1 7 (String pow (format_04d (n mod 10000))) = format_04d (n mod 10000)).
  { unfold slice. cbn [slice_from]. apply slice_to_all. rewrite Hlen. simpl. lia. }
  assert (Hne : format_04d (n mod 10000) <> EmptyString)
    by (intros E; by rewrite E in Hlen).
  rewrite Hs, match_digits_all, int_digits, Hv by done.
  cbn [or_raise mbind exception_bind mret exception_ret]. do 2 f_equal.
  rewrite (Z.div_mod n 10000) at 3 by lia. lia.
Qed.

Lemma slice_from_all s (k : nat) : (String.length s <= k)%nat -> slice_from k s = EmptyString.
Proof.
  revert k. induction s as [|c s IH]; intros [|k]; simpl; try done; [lia|].
  intros Hk. apply IH. lia.
Qed.

(** The handler needs a seventh character and a numeral after it. *)
Lemma desig_pack_provisional_short desig :
  (String.length desig <= 7)%nat ->
  exists e, desig_pack_provisional int desig = inl e.
Proof.
  intros Hlen. unfold desig_pack_provisional.
  rewrite (slice_from_all desig 7), int_empty by done.
  destruct (int (slice 0 2 desig)) as [i|]; [|eexists; reflexivity].
  cbn [or_raise mbind exception_bind].
  destruct (getitem Ncode i) as [c|]; [|eexists; reflexivity].
  cbn [or_raise mbind exception_bind].
  destruct (getitem desig 5) as [month|]; [|eexists; reflexivity].
  cbn [or_raise mbind exception_bind].
  destruct (getitem desig 6) as [l2|]; eexists; reflexivity.
Qed.

Lemma pretty_snoc a b :
  0 < a -> 0 <= b < 10 ->
  pretty (10 * a + b) = pretty a +:+ String (pretty_N_char (Z.to_N b)) EmptyString.
Proof.
  intros Ha Hb. rewrite !pretty_Z_pos by lia.
  assert (Hx : Z.to_N (10 * a + b) = (10 * Z.to_N a + Z.to_N b)%N) by lia.
  rewrite pretty_N_go_snoc by lia. rewrite Hx.
  assert (Hlt : (Z.to_N b < 10)%N) by lia.
  rewrite <-(N.div_unique _ 10 (Z.to_N a) (Z.to_N b)) by done.
  by rewrite <-(N.mod_unique _ 10 (Z.to_N a) (Z.to_N b)) by done.
Qed.

Lemma pretty_digit b : 0 <= b < 10 -> pretty b = String (pretty_N_char (Z.to_N b)) EmptyString.
Proof.
  intros Hb.
  assert (b = 0 \/ b = 1 \/ b = 2 \/ b = 3 \/ b = 4 \/ b = 5 \/ b = 6 \/ b = 7
          \/ b = 8 \/ b = 9) as Hc by lia.
  repeat destruct Hc as [->|Hc]; try subst b; done.
Qed.

(** A year of the centuries [YY] knows, digit by digit. *)
Lemma pretty_year yyyy :
  1800 <= yyyy < 2100 ->
  exists c1 c2 century,
    pretty (yyyy / 100) = String c1 (String c2 EmptyString) /\
    getitem Ncode (yyyy / 100) = Some century /\
    dict_get YY century = Some (yyyy / 100 * 100) /\
    is_digit century = false /\
    pretty yyyy
    = String c1 (String c2 (String (pretty_N_char (Z.to_N (yyyy mod 100 / 10)))
        (String (pretty_N_char (Z.to_N (yyyy mod 10))) EmptyString))).
Proof.
  intros Hy.
  assert (Hq : yyyy / 100 = 18 \/ yyyy / 100 = 19 \/ yyyy / 100 = 20).
  { assert (18 <= yyyy / 100) by (apply Z.div_le_lower_bound; lia).
    assert (yyyy / 100 < 21) by (apply Z.div_lt_upper_bound; lia). lia. }
  assert (Hsplit : yyyy = 10 * (10 * (yyyy / 100) + yyyy mod 100 / 10) + yyyy mod 10).
  { pose proof (Z.div_mod yyyy 100). pose proof (Z.div_mod (yyyy mod 100) 10).
    assert (yyyy mod 100 mod 10 = yyyy mod 10).
    { apply Z.mod_mod_divide. by exists 10. }
    lia. }
  assert (Hd : 0 <= yyyy mod 100 / 10 < 10).
  { pose proof (Z.mod_pos_bound yyyy 100).
    split; [apply Z.div_pos; lia|apply Z.div_lt_upper_bound; lia]. }
  assert (Hu : 0 <= yyyy mod 10 < 10) by (apply Z.mod_pos_bound; lia).
  assert (Hp : pretty yyyy
               = (pretty (yyyy / 100)
                  +:+ String (pretty_N_char (Z.to_N (yyyy mod 100 / 10))) EmptyString)
                 +:+ String (pretty_N_char (Z.to_N (yyyy mod 10))) EmptyString).
  { rewrite Hsplit at 1. by rewrite !pretty_snoc by lia. }
  rewrite Hp.
  destruct Hq as [Hq|[Hq|Hq]]; rewrite Hq;
    [exists "1"%char, "8"%char, "I"%char|exists "1"%char, "9"%char, "J"%char
    |exists "2"%char, "0"%char, "K"%char]; repeat split.
Qed.

End MpcreadDesignations.

Section MpcreadProperties.
Import Mpcread.
Local Open Scope Z_scope.

#[global] Instance int_of_digits_spec : IntSpec int_of_digits.
Proof.
  split; [|done]. intros s Hne Hd. unfold int_of_digits.
  by rewrite Hd, bool_decide_eq_false_2.
Qed.

(** X4: a minor planet number below 620000 survives packing and unpacking:
    below 100000 it is packed as itself, from 100000 on as a letter and four
    digits, and [desig_unpack] gives the number back. *)
Theorem numbered_designation_round_trip
    (int : string -> option Z) `{!IntSpec int} (n : Z) :
  0 <= n < 620000 ->
  exists packed,
    desig_pack int (pretty n) = inr packed /\
    desig_unpack int packed = inr (pretty n) /\
    (n < 100000 -> packed = pretty n) /\
    (100000 <= n -> String.length packed = 5%nat /\ match_digits_prefix packed = false).
Proof.
  intros Hn. destruct (decide (n < 100000)) as [Hs|Hl].
  - exists (pretty n). rewrite (desig_pack_small int), (desig_unpack_number int) by lia.
    split; [done|]. split; [done|]. split; [done|lia].
  - destruct (desig_pack_large int n) as (pow & Hpow & Hpack); [lia|].
    exists (String pow (format_04d (n mod 10000))).
    rewrite Hpack, (desig_unpack_large int n pow) by (done || lia).
    split; [done|]. split; [done|]. split; [lia|]. intros _. split.
    + destruct (format_04d_digits (n mod 10000)) as (Hlen & _).
      { apply Z.mod_pos_bound. lia. }
      simpl. by rewrite Hlen.
    + apply (Ncode_Kilo (n / 10000)); [apply Z.div_le_lower_bound; lia|done].
Qed.

(** X5: [desig_pack] raises on every number from 620000 to 9999999: the code
    table has no letter for it, and the handler of the bare [except] fails
    in turn. *)
Theorem desig_pack_number_out_of_range
    (int : string -> option Z) `{!IntSpec int} (n : Z) :
  620000 <= n < 10000000 ->
  desig_pack_number int (pretty n) = inl IndexError /\
  exists e, desig_pack int (pretty n) = inl e.
Proof.
  intros Hn.
  assert (Hnum : desig_pack_number int (pretty n) = inl IndexError).
  { unfold desig_pack_number. rewrite (int_pretty int) by lia.
    cbn [or_raise mbind exception_bind].
    rewrite (proj2 (Z.ltb_ge n 100000)) by lia.
    rewrite div_sub_mod, Ncode_out_of_range; [done|].
    apply Z.div_le_lower_bound; lia. }
  split; [done|]. unfold desig_pack. rewrite Hnum.
  apply (desig_pack_provisional_short int).
  apply (pretty_Z_length n 7); [simpl; lia|lia].
Qed.

(** X6: a provisional designation "yyyy ML<cycle>" of the years 1800 to 2099
    with a cycle count from 1 to 619 is packed into seven characters, and
    [desig_unpack] gives the designation back. *)
Theorem provisional_designation_round_trip
    (int : string -> option Z) `{!IntSpec int}
    (yyyy cycle : Z) (month l2 : ascii) :
  let desig := pretty yyyy +:+ " " +:+ String month (String l2 (pretty cycle)) in
  1800 <= yyyy < 2100 -> 1 <= cycle < 620 -> is_digit month = false ->
  int desig = None ->
  exists packed,
    desig_pack int desig = inr packed /\
    String.length packed = 7%nat /\
    desig_unpack int packed = inr desig.
Proof.
  intros desig Hy Hc Hmonth Hnan.
  destruct (pretty_year yyyy Hy) as (c1 & c2 & century & Hcc & Hcentury & HYY & Hnd & Hyyyy).
  destruct (Ncode_lookup (cycle / 10)) as [n Hn].
  { split; [apply Z.div_pos; lia|apply Z.div_lt_upper_bound; lia]. }
  assert (Hd : 0 <= cycle mod 10 < 10) by (apply Z.mod_pos_bound; lia).
  assert (Hd3 : 0 <= yyyy mod 100 / 10 < 10).
  { pose proof (Z.mod_pos_bound yyyy 100).
    split; [apply Z.div_pos; lia|apply Z.div_lt_upper_bound; lia]. }
  assert (Hd4 : 0 <= yyyy mod 10 < 10) by (apply Z.mod_pos_bound; lia).
  set (d3 := pretty_N_char (Z.to_N (yyyy mod 100 / 10))) in *.
  set (d4 := pretty_N_char (Z.to_N (yyyy mod 10))) in *.
  set (dg := pretty_N_char (Z.to_N (cycle mod 10))).
  destruct (pretty_N_char_digit (Z.to_N (yyyy mod 100 / 10))) as [Hd3d Hd3v]; [lia|].
  destruct (pretty_N_char_digit (Z.to_N (yyyy mod 10))) as [Hd4d Hd4v]; [lia|].
  destruct (pretty_N_char_digit (Z.to_N (cycle mod 10))) as [Hdgd Hdgv]; [lia|].
  fold d3 in Hd3d, Hd3v. fold d4 in Hd4d, Hd4v. fold dg in Hdgd, Hdgv.
  assert (Hdesig : desig
    = String c1 (String c2 (String d3 (String d4 (String " "
        (String month (String l2 (pretty cycle)))))))).
  { unfold desig. by rewrite Hyyyy. }
  exists (String century (String d3 (String d4 (String month (String n (String dg
            (String l2 EmptyString))))))).
  split; [|split; [done|]].
  - unfold desig_pack. rewrite Hdesig.
    replace (desig_pack_number int _) with (inl ValueError : exception + string)
      by (unfold desig_pack_number; by rewrite <-Hdesig, Hnan).
    unfold desig_pack_provisional.
    change (slice 0 2 _) with (String c1 (String c2 EmptyString)).
    change (slice 2 4 _) with (String d3 (String d4 EmptyString)).
    change (slice_from 7 _) with (pretty cycle).
    rewrite <-Hcc, !(int_pretty int) by (lia || (apply Z.div_pos; lia)).
    cbn [or_raise mbind exception_bind].
    rewrite Hcentury, getitem_5, getitem_6.
    cbn [String.get or_raise mbind exception_bind].
    rewrite div_sub_mod, Hn, pretty_digit by done.
    reflexivity.
  - unfold desig_unpack. cbn [match_digits_prefix]. rewrite Hnd, getitem_0.
    cbn [String.get or_raise mbind exception_bind].
    change (slice 1 7 _) with (String d3 (String d4 (String month (String n (String dg
                                 (String l2 EmptyString)))))).
    change (slice 1 3 _) with (String d3 (String d4 EmptyString)).
    cbn [match_digits]. rewrite Hd3d, Hd4d, Hmonth. cbn [andb].
    rewrite HYY, getitem_3, getitem_4, getitem_5, getitem_6.
    rewrite !(int_digits (int := int)) by (done || (simpl; by rewrite ?Hd3d, ?Hd4d, ?Hdgd)).
    cbn [String.get or_raise mbind exception_bind].
    rewrite (Ncode_rfind (cycle / 10) n) by (done || apply Z.div_pos; lia).
    cbn [or_raise mbind exception_bind].
    rewrite (int_digits (int := int)) by (done || (simpl; by rewrite Hdgd)).
    cbn [or_raise mbind exception_bind mret exception_ret].
    unfold digits_value. cbn [digits_value_from]. rewrite Hd3v, Hd4v, Hdgv.
    assert (Hyear : yyyy / 100 * 100 + (10 * (10 * 0 + Z.of_N (Z.to_N (yyyy mod 100 / 10)))
                       + Z.of_N (Z.to_N (yyyy mod 10))) = yyyy).
    { pose proof (Z.div_mod yyyy 100). pose proof (Z.div_mod (yyyy mod 100) 10).
      assert (yyyy mod 100 mod 10 = yyyy mod 10) by (apply Z.mod_mod_divide; by exists 10).
      lia. }
    assert (Hcycle : Z.of_nat (Z.to_nat (cycle / 10)) * 10
                     + (10 * 0 + Z.of_N (Z.to_N (cycle mod 10))) = cycle).
    { pose proof (Z.div_mod cycle 10). assert (0 <= cycle / 10) by (apply Z.div_pos; lia).
      lia. }
    rewrite Hyear, Hcycle, (proj2 (Z.ltb_lt 0 cycle)) by lia.
    by rewrite Hdesig, Hyyyy.
Qed.

(** X7: the two functions are not inverse on cycle count 0. A packed
    provisional designation whose cycle characters are 00 unpacks to
    "yyyy ML", without a number, and [desig_pack] raises [ValueError] on that
    designation. *)
Theorem cycle_zero_unpacks_but_does_not_pack
    (int : string -> option Z) `{!IntSpec int} (yyyy : Z) (month l2 : ascii) :
  let desig := pretty yyyy +:+ " " +:+ String month (String l2 EmptyString) in
  1800 <= yyyy < 2100 -> is_digit month = false -> int desig = None ->
  (exists packed,
     String.length packed = 7%nat /\
     slice 3 7 packed = String month (String "0" (String "0" (String l2 EmptyString))) /\
     desig_unpack int packed = inr desig) /\
  desig_pack int desig = inl ValueError.
Proof.
  intros desig Hy Hmonth Hnan.
  destruct (pretty_year yyyy Hy) as (c1 & c2 & century & Hcc & Hcentury & HYY & Hnd & Hyyyy).
  assert (Hd3 : 0 <= yyyy mod 100 / 10 < 10).
  { pose proof (Z.mod_pos_bound yyyy 100).
    split; [apply Z.div_pos; lia|apply Z.div_lt_upper_bound; lia]. }
  assert (Hd4 : 0 <= yyyy mod 10 < 10) by (apply Z.mod_pos_bound; lia).
  set (d3 := pretty_N_char (Z.to_N (yyyy mod 100 / 10))) in *.
  set (d4 := pretty_N_char (Z.to_N (yyyy mod 10))) in *.
  destruct (pretty_N_char_digit (Z.to_N (yyyy mod 100 / 10))) as [Hd3d Hd3v]; [lia|].
  destruct (pretty_N_char_digit (Z.to_N (yyyy mod 10))) as [Hd4d Hd4v]; [lia|].
  fold d3 in Hd3d, Hd3v. fold d4 in Hd4d, Hd4v.
  assert (Hdesig : desig
    = String c1 (String c2 (String d3 (String d4 (String " "
        (String month (String l2 EmptyString))))))).
  { unfold desig. by rewrite Hyyyy. }
  split.
  - exists (String century (String d3 (String d4 (String month (String "0" (String "0"
              (String l2 EmptyString))))))).
    split; [done|]. split; [done|].
    unfold desig_unpack. cbn [match_digits_prefix]. rewrite Hnd, getitem_0.
    cbn [String.get or_raise mbind exception_bind].
    change (slice 1 7 _) with (String d3 (String d4 (String month (String "0" (String "0"
                                 (String l2 EmptyString)))))).
    change (slice 1 3 _) with (String d3 (String d4 EmptyString)).
    cbn [match_digits]. rewrite Hd3d, Hd4d, Hmonth. cbn [andb].
    rewrite HYY, getitem_3, getitem_4, getitem_5, getitem_6.
    rewrite !(int_digits (int := int)) by (done || (simpl; by rewrite ?Hd3d, ?Hd4d)).
    cbn [String.get or_raise mbind exception_bind].
    change (rfind Ncode "0") with (Some 0%nat).
    cbn [or_raise mbind exception_bind].
    rewrite (int_digits (int := int)) by done.
    cbn [or_raise mbind exception_bind mret exception_ret].
    unfold digits_value. cbn [digits_value_from]. rewrite Hd3v, Hd4v.
    assert (Hyear : yyyy / 100 * 100 + (10 * (10 * 0 + Z.of_N (Z.to_N (yyyy mod 100 / 10)))
                       + Z.of_N (Z.to_N (yyyy mod 10))) = yyyy).
    { pose proof (Z.div_mod yyyy 100). pose proof (Z.div_mod (yyyy mod 100) 10).
      assert (yyyy mod 100 mod 10 = yyyy mod 10) by (apply Z.mod_mod_divide; by exists 10).
      lia. }
    rewrite Hyear. by rewrite Hdesig, Hyyyy.
  - unfold desig_pack.
    replace (desig_pack_number int desig) with (inl ValueError : exception + string)
      by (unfold desig_pack_number; by rewrite Hnan).
    rewrite Hdesig. unfold desig_pack_provisional.
    change (slice 0 2 _) with (String c1 (String c2 EmptyString)).
    change (slice_from 7 _) with EmptyString.
    rewrite <-Hcc, (int_pretty int) by (apply Z.div_pos; lia).
    cbn [or_raise mbind exception_bind].
    rewrite Hcentury, getitem_5, getitem_6, int_empty. reflexivity.
Qed.

(** X8: when [date_unpack] returns, the packed date has at least five
    characters, and the month and the day are the positions, below 62, of its
    fourth and fifth characters in [Ncode]; on a shorter string it raises. *)
Theorem date_unpack_returns
    (int : string -> option Z) (pdate : string) :
  (forall yyyy mm dd,
     date_unpack int pdate = inr (yyyy, mm, dd) ->
     (5 <= String.length pdate)%nat /\
     0 <= mm < 62 /\ 0 <= dd < 62 /\
     getitem Ncode mm = getitem pdate 3 /\ getitem Ncode dd = getitem pdate 4 /\
     exists century yy,
       (century = 1800 \/ century = 1900 \/ century = 2000) /\
       int (slice 1 3 pdate) = Some yy /\ yyyy = century + yy) /\
  ((String.length pdate < 5)%nat -> exists e, date_unpack int pdate = inl e).
Proof.
  assert (Hret : forall yyyy mm dd,
    date_unpack int pdate = inr (yyyy, mm, dd) ->
    (5 <= String.length pdate)%nat /\
    0 <= mm < 62 /\ 0 <= dd < 62 /\
    getitem Ncode mm = getitem pdate 3 /\ getitem Ncode dd = getitem pdate 4 /\
    exists century yy,
      (century = 1800 \/ century = 1900 \/ century = 2000) /\
      int (slice 1 3 pdate) = Some yy /\ yyyy = century + yy).
  { intros yyyy mm dd. unfold date_unpack. rewrite getitem_0, getitem_3, getitem_4.
    destruct (String.get 0 pdate) as [c0|]; [|done].
    cbn [or_raise mbind exception_bind].
    destruct (dict_get YY c0) as [century|] eqn:Hcentury; [|done].
    cbn [or_raise mbind exception_bind].
    destruct (int (slice 1 3 pdate)) as [yy|]; [|done].
    cbn [or_raise mbind exception_bind].
    destruct (String.get 3 pdate) as [c3|] eqn:H3; [|done].
    cbn [or_raise mbind exception_bind].
    destruct (rfind Ncode c3) as [i|] eqn:Hi; [|done].
    cbn [or_raise mbind exception_bind].
    destruct (String.get 4 pdate) as [c4|] eqn:H4; [|done].
    cbn [or_raise mbind exception_bind].
    destruct (rfind Ncode c4) as [j|] eqn:Hj; [|done].
    cbn [or_raise mbind exception_bind mret exception_ret].
    intros [= <- <- <-].
    apply rfind_get in Hi, Hj.
    pose proof (string_get_length _ _ _ Hi) as Hil.
    pose proof (string_get_length _ _ _ Hj) as Hjl.
    pose proof (string_get_length _ _ _ H4) as H4l.
    simpl in Hil, Hjl.
    split; [lia|]. split; [lia|]. split; [lia|].
    rewrite !getitem_nonneg, !Nat2Z.id by lia.
    split; [done|]. split; [done|].
    exists century, yy. split; [|done].
    simpl in Hcentury. repeat case_decide; simplify_eq; auto. }
  split; [done|].
  intros Hlen. destruct (date_unpack int pdate) as [e|[[yyyy mm] dd]]; [by eexists|].
  destruct (Hret _ _ _ eq_refl) as [? _]. lia.
Qed.

End MpcreadProperties.

Lemma numbered_designation_round_trip_witness :
  exists packed,
    Mpcread.desig_pack Mpcread.int_of_digits "123456" = inr packed /\
    Mpcread.desig_unpack Mpcread.int_of_digits packed = inr "123456" /\
    (123456 < 100000 -> packed = "123456")%Z /\
    (100000 <= 123456 ->
     String.length packed = 5%nat /\ Mpcread.match_digits_prefix packed = false)%Z.
Proof.
  apply (numbered_designation_round_trip Mpcread.int_of_digits 123456). lia.
Defined.

Lemma desig_pack_number_out_of_range_witness :
  Mpcread.desig_pack_number Mpcread.int_of_digits "700000" = inl Mpcread.IndexError /\
  exists e, Mpcread.desig_pack Mpcread.int_of_digits "700000" = inl e.
Proof.
  apply (desig_pack_number_out_of_range Mpcread.int_of_digits 700000). lia.
Defined.

Lemma provisional_designation_round_trip_witness :
  exists packed,
    Mpcread.desig_pack Mpcread.int_of_digits "2004 PB112" = inr packed /\
    String.length packed = 7%nat /\
    Mpcread.desig_unpack Mpcread.int_of_digits packed = inr "2004 PB112".
Proof.
  apply (provisional_designation_round_trip Mpcread.int_of_digits 2004 112 "P" "B");
    [lia|lia|reflexivity|reflexivity].
Defined.

Lemma cycle_zero_unpacks_but_does_not_pack_witness :
  (exists packed,
     String.length packed = 7%nat /\
     Mpcread.slice 3 7 packed = "P00B" /\
     Mpcread.desig_unpack Mpcread.int_of_digits packed = inr "2004 PB") /\
  Mpcread.desig_pack Mpcread.int_of_digits "2004 PB" = inl Mpcread.ValueError.
Proof.
  apply (cycle_zero_unpacks_but_does_not_pack Mpcread.int_of_digits 2004 "P" "B");
    [lia|reflexivity|reflexivity].
Defined.
